(** * pptxtojson-demo: a shallow embedding of the slide conversion pipeline

    The development follows the JavaScript sources:
    - [utils.js]      : [base64ArrayBuffer], [getTextByPathList],
                        [angleToDegrees], [toHex], ...
    - [fill.js]       : [getFillType], [getPicFill], [getBgGradientFill],
                        [getSlideBackgroundFill], [getShapeFill], [getSolidFill]
    - [pptxtojson.js] : [processSingleSlide], [processNodesInSlide],
                        [processGroupSpNode], [processSpNode], [genShape],
                        [processPicNode], ...

    JavaScript values are embedded as an inductive type of dynamic values,
    numbers as IEEE 754 binary64 floats (Rocq's primitive floats), exceptions
    and rejected promises as an error monad, [await] as sequencing. *)

From Stdlib Require Import ZArith List String Ascii Lia Bool Floats.
From Stdlib Require Sorting.Permutation Sorting.Sorted.
Import ListNotations.

(* ================================================================= *)
(** * Part 1. [base64ArrayBuffer] (utils.js) *)
(* ================================================================= *)

Module Base64.

Local Open Scope string_scope.
Local Open Scope Z_scope.

(** [const encodings = 'ABC...+/'] *)
Definition encodings : string :=
  "ABCDEFGHIJKLMNOPQRSTUVWXYZabcdefghijklmnopqrstuvwxyz0123456789+/".

(** [encodings[a]]: indexing a string yields a one-character string, and
    [undefined] (printed as such by [+]) outside of it. *)
Definition char_at (a : Z) : string :=
  match String.get (Z.to_nat a) encodings with
  | Some c => String c EmptyString
  | None => "undefined"
  end.

(** [bytes[i]] of a [Uint8Array]: the byte as a number; a read past the end is
    [undefined], which the bit operators take as 0. *)
Definition byte_at (bytes : list Byte.byte) (i : Z) : Z :=
  match nth_error bytes (Z.to_nat i) with
  | Some b => Z.of_N (Byte.to_N b)
  | None => 0
  end.

(** The four characters appended by one turn of the main loop.  All
    intermediate values stay below [2^24], so the 32-bit wrap-around of the
    JavaScript bit operators never applies. *)
Definition quad (bytes : list Byte.byte) (i : Z) : string :=
  let chunk := Z.lor (Z.lor (Z.shiftl (byte_at bytes i) 16)
                            (Z.shiftl (byte_at bytes (i + 1)) 8))
                     (byte_at bytes (i + 2)) in
  let a := Z.shiftr (Z.land chunk 16515072) 18 in
  let b := Z.shiftr (Z.land chunk 258048) 12 in
  let c := Z.shiftr (Z.land chunk 4032) 6 in
  let d := Z.land chunk 63 in
  char_at a ++ char_at b ++ char_at c ++ char_at d.

(** [for (let i = 0; i < mainLength; i = i + 3) { ... base64 += ... }] *)
Fixpoint main_loop (fuel : nat) (bytes : list Byte.byte) (mainLength i : Z)
         (base64 : string) : string :=
  match fuel with
  | O => base64
  | S fuel' =>
      if i <? mainLength
      then main_loop fuel' bytes mainLength (i + 3) (base64 ++ quad bytes i)
      else base64
  end.

Definition base64ArrayBuffer (bytes : list Byte.byte) : string :=
  let byteLength := Z.of_nat (List.length bytes) in
  let byteRemainder := byteLength mod 3 in
  let mainLength := byteLength - byteRemainder in
  let base64 := main_loop (List.length bytes) bytes mainLength 0 "" in
  if byteRemainder =? 1 then
    let chunk := byte_at bytes mainLength in
    let a := Z.shiftr (Z.land chunk 252) 2 in
    let b := Z.shiftl (Z.land chunk 3) 4 in
    base64 ++ char_at a ++ char_at b ++ "=="
  else if byteRemainder =? 2 then
    let chunk := Z.lor (Z.shiftl (byte_at bytes mainLength) 8)
                       (byte_at bytes (mainLength + 1)) in
    let a := Z.shiftr (Z.land chunk 64512) 10 in
    let b := Z.shiftr (Z.land chunk 1008) 4 in
    let c := Z.shiftl (Z.land chunk 15) 2 in
    base64 ++ char_at a ++ char_at b ++ char_at c ++ "="
  else base64.

(** ** RFC 4648, section 4, written from the RFC's words

    "A 24-bit input group is formed by concatenating 3 8-bit input groups.
    These 24 bits are then treated as 4 concatenated 6-bit groups, each of
    which is translated into a single character in the base 64 alphabet."
    The alphabet of Table 1 is given by ranges. *)
Definition rfc_char (v : Z) : ascii :=
  if v <? 26 then ascii_of_nat (Z.to_nat (65 + v))
  else if v <? 52 then ascii_of_nat (Z.to_nat (97 + (v - 26)))
  else if v <? 62 then ascii_of_nat (Z.to_nat (48 + (v - 52)))
  else if v =? 62 then "+"%char
  else "/"%char.

Definition rfc_value (c : ascii) : option Z :=
  let n := Z.of_nat (nat_of_ascii c) in
  if (65 <=? n) && (n <=? 90) then Some (n - 65)
  else if (97 <=? n) && (n <=? 122) then Some (n - 97 + 26)
  else if (48 <=? n) && (n <=? 57) then Some (n - 48 + 52)
  else if n =? 43 then Some 62
  else if n =? 47 then Some 63
  else None.

Definition val (b : Byte.byte) : Z := Z.of_N (Byte.to_N b).

Definition str1 (c : ascii) : string := String c EmptyString.

(** Full 24-bit groups, then the final quantum: 8 bits give two characters
    and "==", 16 bits give three characters and "=". *)
Fixpoint rfc4648_encode (bs : list Byte.byte) : string :=
  match bs with
  | [] => ""
  | [b0] =>
      let n := val b0 * 16 in
      str1 (rfc_char (n / 64)) ++ str1 (rfc_char (n mod 64)) ++ "=="
  | [b0; b1] =>
      let n := (val b0 * 256 + val b1) * 4 in
      str1 (rfc_char (n / 4096)) ++ str1 (rfc_char ((n / 64) mod 64))
        ++ str1 (rfc_char (n mod 64)) ++ "="
  | b0 :: b1 :: b2 :: rest =>
      let n := val b0 * 65536 + val b1 * 256 + val b2 in
      str1 (rfc_char (n / 262144)) ++ str1 (rfc_char ((n / 4096) mod 64))
        ++ str1 (rfc_char ((n / 64) mod 64)) ++ str1 (rfc_char (n mod 64))
        ++ rfc4648_encode rest
  end.

Definition byte_of (n : Z) : Byte.byte :=
  match Byte.of_N (Z.to_N n) with Some b => b | None => Byte.x00 end.

(** Decoding: four characters at a time; padding is accepted only in the
    last group. *)
Definition full_group (c0 c1 c2 c3 : ascii) : option (list Byte.byte) :=
  match rfc_value c0, rfc_value c1, rfc_value c2, rfc_value c3 with
  | Some v0, Some v1, Some v2, Some v3 =>
      let n := v0 * 262144 + v1 * 4096 + v2 * 64 + v3 in
      Some [byte_of (n / 65536); byte_of ((n / 256) mod 256); byte_of (n mod 256)]
  | _, _, _, _ => None
  end.

Definition final_group (c0 c1 c2 c3 : ascii) : option (list Byte.byte) :=
  if Ascii.eqb c3 "=" then
    if Ascii.eqb c2 "=" then
      match rfc_value c0, rfc_value c1 with
      | Some v0, Some v1 => Some [byte_of ((v0 * 64 + v1) / 16)]
      | _, _ => None
      end
    else
      match rfc_value c0, rfc_value c1, rfc_value c2 with
      | Some v0, Some v1, Some v2 =>
          let n := (v0 * 4096 + v1 * 64 + v2) / 4 in
          Some [byte_of (n / 256); byte_of (n mod 256)]
      | _, _, _ => None
      end
  else full_group c0 c1 c2 c3.

Fixpoint rfc4648_decode_chars (cs : list ascii) : option (list Byte.byte) :=
  match cs with
  | [] => Some []
  | c0 :: c1 :: c2 :: c3 :: rest =>
      match rest with
      | [] => final_group c0 c1 c2 c3
      | _ :: _ =>
          match full_group c0 c1 c2 c3, rfc4648_decode_chars rest with
          | Some g, Some bs => Some (g ++ bs)%list
          | _, _ => None
          end
      end
  | _ => None
  end.

Definition rfc4648_decode (s : string) : option (list Byte.byte) :=
  rfc4648_decode_chars (list_ascii_of_string s).

(** No padding character occurs in the string. *)
Fixpoint no_pad (s : string) : bool :=
  match s with
  | EmptyString => true
  | String c s' => negb (Ascii.eqb c "=") && no_pad s'
  end.

End Base64.

(* ================================================================= *)
(** * Part 2. JavaScript values and the operators the sources use *)
(* ================================================================= *)

Module JS.

Local Open Scope string_scope.

(** ** Dynamic values

    An object keeps its own properties in insertion order, which is the
    order of [for ... in] for the non-numeric keys used here.  Numbers are
    IEEE 754 binary64 values. *)
#[local] Unset Elimination Schemes.
Inductive value : Type :=
| Undefined
| Null
| Bool (b : bool)
| Num (n : float)
| Str (s : string)
| Arr (items : list value)
| Obj (fields : list (string * value)).
#[local] Set Elimination Schemes.

(** ** Exceptions and rejected promises *)
Inductive error : Type :=
| TypeError (msg : string)
| OutOfFuel.

Inductive result (A : Type) : Type :=
| Ok (a : A)
| Throw (e : error).

Arguments Ok {A} a.
Arguments Throw {A} e.

Definition bind {A B : Type} (c : result A) (k : A -> result B) : result B :=
  match c with
  | Ok a => k a
  | Throw e => Throw e
  end.

Notation "x <- c1 ;; c2" := (bind c1 (fun x => c2))
  (at level 61, c1 at next level, right associativity).

(** ** Characters and digit strings *)

Definition code (c : ascii) : Z := Z.of_nat (nat_of_ascii c).

(** White space and line terminators of the ASCII range. *)
Definition is_ws (c : ascii) : bool :=
  let n := code c in
  ((9 <=? n) && (n <=? 13) || (n =? 32))%Z.

Fixpoint skip_ws (s : string) : string :=
  match s with
  | String c r => if is_ws c then skip_ws r else s
  | EmptyString => EmptyString
  end.

Fixpoint rev_string (s acc : string) : string :=
  match s with
  | String c r => rev_string r (String c acc)
  | EmptyString => acc
  end.

Definition trim (s : string) : string :=
  rev_string (skip_ws (rev_string (skip_ws s) "")) "".

(** The value of a digit in the given radix (2 to 16). *)
Definition digit_of (radix : Z) (c : ascii) : option Z :=
  let n := code c in
  let d := (if (48 <=? n) && (n <=? 57) then n - 48
            else if (97 <=? n) && (n <=? 102) then n - 87
            else if (65 <=? n) && (n <=? 70) then n - 55
            else 99)%Z in
  if (d <? radix)%Z then Some d else None.

(** The longest prefix of digits: its value, its length, and the rest. *)
Fixpoint take_digits (radix : Z) (s : string) (acc : Z) (len : nat)
  : Z * nat * string :=
  match s with
  | String c r =>
      match digit_of radix c with
      | Some d => take_digits radix r (acc * radix + d)%Z (S len)
      | None => (acc, len, s)
      end
  | EmptyString => (acc, len, s)
  end.

Definition digit_char (d : Z) : ascii :=
  if (d <? 10)%Z then ascii_of_nat (Z.to_nat (48 + d))
  else ascii_of_nat (Z.to_nat (87 + d)).

(** The digits of a non-negative integer, most significant first. *)
Fixpoint digits_of (fuel : nat) (radix z : Z) (acc : string) : string :=
  match fuel with
  | O => acc
  | S fuel' =>
      let acc' := String (digit_char (z mod radix)) acc in
      if (z / radix =? 0)%Z then acc'
      else digits_of fuel' radix (z / radix)%Z acc'
  end.

Definition Z_to_string (radix z : Z) : string :=
  digits_of (S (Z.to_nat (Z.log2 z))) radix z "".

Fixpoint repeat_char (c : ascii) (n : nat) : string :=
  match n with
  | O => EmptyString
  | S n' => String c (repeat_char c n')
  end.

Fixpoint take (n : nat) (s : string) : string :=
  match n, s with
  | S n', String c r => String c (take n' r)
  | _, _ => EmptyString
  end.

Fixpoint drop (n : nat) (s : string) : string :=
  match n, s with
  | S n', String _ r => drop n' r
  | _, _ => s
  end.

(** ** Numbers *)

(** The double nearest to an integer, and to a quotient of positive integers
    (round to nearest, ties to even). *)
Definition Z2float (z : Z) : float :=
  SF2Prim (binary_normalize prec emax z 0 false).

Definition Q2float (neg : bool) (n d : Z) : float :=
  let '(mz, ez, lz) := SFdiv_core_binary prec emax n 0 d 0 in
  SF2Prim (binary_round_aux prec emax neg mz ez lz).

(** [s * 10^p] as a double, for [s > 0]. *)
Definition dec2float (neg : bool) (s p : Z) : float :=
  if (0 <=? p)%Z
  then Z2float (if neg then - (s * 10 ^ p) else s * 10 ^ p)%Z
  else Q2float neg s (10 ^ (- p))%Z.

Definition signed_zero (neg : bool) : float := if neg then neg_zero else zero.
Definition signed_inf (neg : bool) : float := if neg then neg_infinity else infinity.


(** The sign, mantissa and exponent of a finite non-zero double:
    its value is [(-1)^s * m * 2^e]. *)
Definition finite_parts (x : float) : option (bool * Z * Z) :=
  match Prim2SF x with
  | S754_finite s m e => Some (s, Z.pos m, e)
  | _ => None
  end.

(** [Math.round]: the nearest integer, ties towards +infinity; zeros,
    infinities and NaN are returned as they are, and a negative argument
    that rounds to zero gives -0. *)
Definition Math_round (x : float) : float :=
  match finite_parts x with
  | Some (s, m, e) =>
      if (0 <=? e)%Z then x
      else
        let d := (2 ^ (- e))%Z in
        let q := ((2 * (if s then - m else m) + d) / (2 * d))%Z in
        if (q =? 0)%Z then signed_zero s else Z2float q
  | None => x
  end.

(** *** [Number::toString]

    For a finite [x > 0] the specification takes integers [n], [k], [s] with
    [10^(k-1) <= s < 10^k], [s * 10^(n-k)] converting to [x], and [k] as small
    as possible; of several [s] the one closest to [x], the even one on a
    tie. *)

(** [n] with [10^(n-1) <= m * 2^e < 10^n]. *)
Fixpoint decimal_exponent_up (fuel : nat) (num den n : Z) : Z :=
  match fuel with
  | O => n
  | S fuel' =>
      if (num <? den * 10 ^ n)%Z then n
      else decimal_exponent_up fuel' num den (n + 1)%Z
  end.

Fixpoint decimal_exponent_down (fuel : nat) (num den j : Z) : Z :=
  match fuel with
  | O => (- j)%Z
  | S fuel' =>
      if (den <=? num * 10 ^ (j + 1))%Z then (- j)%Z
      else decimal_exponent_down fuel' num den (j + 1)%Z
  end.

Definition decimal_exponent (num den : Z) : Z :=
  if (den <=? num)%Z then decimal_exponent_up 400 num den 1
  else decimal_exponent_down 400 num den 0.

(** The candidates with [k] digits: [floor (x / 10^(n-k))] and its successor. *)
Definition shortest_candidate (x : float) (num den n k : Z) : option Z :=
  let p := (n - k)%Z in
  let lo := (if (0 <=? p)%Z then num / (den * 10 ^ p)
             else (num * 10 ^ (- p)) / den)%Z in
  let hi := (lo + 1)%Z in
  let ok (s : Z) := PrimFloat.eqb (dec2float false s p) x in
  (* twice the distance of [s * 10^p] to [x], scaled by a common factor *)
  let dist (s : Z) :=
    (if (0 <=? p)%Z then Z.abs (s * 10 ^ p * den - num)
     else Z.abs (s * den - num * 10 ^ (- p)))%Z in
  match ok lo, ok hi with
  | true, true =>
      if (dist lo <? dist hi)%Z then Some lo
      else if (dist hi <? dist lo)%Z then Some hi
      else if Z.even lo then Some lo else Some hi
  | true, false => Some lo
  | false, true => Some hi
  | false, false => None
  end.

Fixpoint shortest_digits (fuel : nat) (x : float) (num den n k : Z) : Z * Z :=
  match fuel with
  | O => (0%Z, k)
  | S fuel' =>
      match shortest_candidate x num den n k with
      | Some s => (s, k)
      | None => shortest_digits fuel' x num den n (k + 1)%Z
      end
  end.

Definition positive_to_string (x : float) (m e : Z) : string :=
  let num := (if (0 <=? e)%Z then m * 2 ^ e else m)%Z in
  let den := (if (0 <=? e)%Z then 1 else 2 ^ (- e))%Z in
  let n0 := decimal_exponent num den in
  let '(s0, k0) := shortest_digits 17 x num den n0 1 in
  (* a candidate equal to [10^k] is the digit 1 with one more place *)
  let '(s, n) := (if (s0 =? 10 ^ k0)%Z then (10 ^ (k0 - 1), n0 + 1) else (s0, n0))%Z in
  let digits := Z_to_string 10 s in
  let k := k0 in
  if ((-5 <=? n) && (n <=? 21))%Z then
    if (k <=? n)%Z then digits ++ repeat_char "0" (Z.to_nat (n - k))
    else if (0 <? n)%Z then
      take (Z.to_nat n) digits ++ "." ++ drop (Z.to_nat n) digits
    else "0." ++ repeat_char "0" (Z.to_nat (- n)) ++ digits
  else
    let ex := (n - 1)%Z in
    let sign := if (ex <? 0)%Z then "-" else "+" in
    let mant := if (k =? 1)%Z then digits
                else take 1 digits ++ "." ++ drop 1 digits in
    mant ++ "e" ++ sign ++ Z_to_string 10 (Z.abs ex).

Definition number_to_string (x : float) : string :=
  match Prim2SF x with
  | S754_nan => "NaN"
  | S754_zero _ => "0"
  | S754_infinity s => if s then "-Infinity" else "Infinity"
  | S754_finite s m e =>
      (if s then "-" else "") ++ positive_to_string (PrimFloat.abs x) (Z.pos m) e
  end.

(** *** [Number.prototype.toString(16)]

    The integer part, and the hexadecimal expansion of the fraction, which is
    finite for a double.  (For radices other than 10 the language leaves the
    number of fraction digits to the engine; the expansion here is the exact
    one.) *)
Fixpoint hex_fraction (fuel : nat) (num den : Z) : string :=
  match fuel with
  | O => EmptyString
  | S fuel' =>
      if (num =? 0)%Z then EmptyString
      else String (digit_char (16 * num / den))
                  (hex_fraction fuel' ((16 * num) mod den)%Z den)
  end.

Definition toString16 (x : float) : string :=
  match Prim2SF x with
  | S754_nan => "NaN"
  | S754_zero _ => "0"
  | S754_infinity s => if s then "-Infinity" else "Infinity"
  | S754_finite s m e =>
      let num := (if (0 <=? e)%Z then Z.pos m * 2 ^ e else Z.pos m)%Z in
      let den := (if (0 <=? e)%Z then 1 else 2 ^ (- e))%Z in
      let frac := hex_fraction 300 (num mod den)%Z den in
      (if s then "-" else "") ++ Z_to_string 16 (num / den)
        ++ (match frac with EmptyString => "" | _ => "." ++ frac end)
  end.

(** *** [parseInt(string)] with no radix argument *)
Definition parseInt_string (s : string) : float :=
  let s := skip_ws s in
  let '(neg, s) := match s with
                   | String "-" r => (true, r)
                   | String "+" r => (false, r)
                   | _ => (false, s)
                   end in
  let '(radix, s) := match s with
                     | String "0" (String "x" r) => (16%Z, r)
                     | String "0" (String "X" r) => (16%Z, r)
                     | _ => (10%Z, s)
                     end in
  match take_digits radix s 0 0 with
  | (_, O, _) => nan
  | (n, S _, _) =>
      if (n =? 0)%Z then signed_zero neg
      else Z2float (if neg then - n else n)%Z
  end.

(** *** [StringToNumber]: the numeric value of a string *)

(** A decimal literal without sign: digits, an optional fraction, an optional
    exponent, and nothing after them. *)
Definition decimal_literal (neg : bool) (s : string) : float :=
  let '(ip, il, r1) := take_digits 10 s 0 0 in
  let '(m, fl, r2) := match r1 with
                      | String "." r => take_digits 10 r ip 0
                      | _ => (ip, O, r1)
                      end in
  if Nat.eqb (il + fl) 0 then nan
  else
    let exp : option Z :=
      match r2 with
      | EmptyString => Some 0%Z
      | String c r =>
          if (Ascii.eqb c "e" || Ascii.eqb c "E")%bool then
            let '(eneg, r') := match r with
                               | String "-" r' => (true, r')
                               | String "+" r' => (false, r')
                               | _ => (false, r)
                               end in
            match take_digits 10 r' 0 0 with
            | (ev, S _, EmptyString) => Some (if eneg then - ev else ev)%Z
            | _ => None
            end
          else None
      end in
    match exp with
    | None => nan
    | Some ev =>
        let p := (ev - Z.of_nat fl)%Z in
        if (m =? 0)%Z then signed_zero neg
        else if (400 <? p)%Z then signed_inf neg
        else if (p + Z.of_nat (il + fl) <? -400)%Z then signed_zero neg
        else dec2float neg m p
    end.

Definition radix_literal (radix : Z) (s : string) : float :=
  match take_digits radix s 0 0 with
  | (n, S _, EmptyString) => Z2float n
  | _ => nan
  end.

Definition string_to_number (s : string) : float :=
  let s := trim s in
  match s with
  | EmptyString => zero
  | String "0" (String "x" r) | String "0" (String "X" r) => radix_literal 16 r
  | String "0" (String "o" r) | String "0" (String "O" r) => radix_literal 8 r
  | String "0" (String "b" r) | String "0" (String "B" r) => radix_literal 2 r
  | String "-" r =>
      if String.eqb r "Infinity" then neg_infinity else decimal_literal true r
  | String "+" r =>
      if String.eqb r "Infinity" then infinity else decimal_literal false r
  | _ => if String.eqb s "Infinity" then infinity else decimal_literal false s
  end.


(** *** [parseFloat(string)]: the longest prefix that is a decimal literal *)
Definition parseFloat_string (s : string) : float :=
  let s := skip_ws s in
  let '(neg, s) := match s with
                   | String "-" r => (true, r)
                   | String "+" r => (false, r)
                   | _ => (false, s)
                   end in
  if String.eqb (take 8 s) "Infinity" then signed_inf neg
  else
    let '(ip, il, r1) := take_digits 10 s 0 0 in
    let '(m, fl, r2) := match r1 with
                        | String "." r => take_digits 10 r ip 0
                        | _ => (ip, O, r1)
                        end in
    if Nat.eqb (il + fl) 0 then nan
    else
      let ev : Z :=
        match r2 with
        | String c r =>
            if (Ascii.eqb c "e" || Ascii.eqb c "E")%bool then
              let '(eneg, r') := match r with
                                 | String "-" r' => (true, r')
                                 | String "+" r' => (false, r')
                                 | _ => (false, r)
                                 end in
              match take_digits 10 r' 0 0 with
              | (e, S _, _) => if eneg then (- e)%Z else e
              | _ => 0%Z
              end
            else 0%Z
        | EmptyString => 0%Z
        end in
      let p := (ev - Z.of_nat fl)%Z in
      if (m =? 0)%Z then signed_zero neg
      else if (400 <? p)%Z then signed_inf neg
      else if (p + Z.of_nat (il + fl) <? -400)%Z then signed_zero neg
      else dec2float neg m p.

(** ** Conversions and operators on values *)

(** [ToBoolean] *)
Definition truthy (v : value) : bool :=
  match v with
  | Undefined | Null => false
  | Bool b => b
  | Num n => negb (PrimFloat.is_nan n || PrimFloat.is_zero n)
  | Str s => negb (String.eqb s "")
  | Arr _ | Obj _ => true
  end.

(** [ToString]; an array is joined with commas, its [undefined] and [null]
    elements giving the empty string. *)
Fixpoint to_string (v : value) : string :=
  match v with
  | Undefined => "undefined"
  | Null => "null"
  | Bool b => if b then "true" else "false"
  | Num n => number_to_string n
  | Str s => s
  | Arr items =>
      (fix join (l : list value) : string :=
         match l with
         | [] => ""
         | x :: r =>
             let e := match x with
                      | Undefined | Null => ""
                      | _ => to_string x
                      end in
             match r with
             | [] => e
             | _ :: _ => e ++ "," ++ join r
             end
         end) items
  | Obj _ => "[object Object]"
  end.

(** [ToNumber] *)
Definition to_number (v : value) : float :=
  match v with
  | Undefined => nan
  | Null => zero
  | Bool b => if b then one else zero
  | Num n => n
  | Str s => string_to_number s
  | Arr _ | Obj _ => string_to_number (to_string v)
  end.

Definition parseInt (v : value) : float := parseInt_string (to_string v).

Definition isNaN (x : float) : bool := PrimFloat.is_nan x.

(** [a + b]: concatenation as soon as one operand is (or converts to) a
    string, addition of numbers otherwise. *)
Definition add (a b : value) : value :=
  match a, b with
  | (Str _ | Arr _ | Obj _), _ | _, (Str _ | Arr _ | Obj _) =>
      Str (to_string a ++ to_string b)
  | _, _ => Num (to_number a + to_number b)%float
  end.

(** [v === 'literal'] *)
Definition is_str (v : value) (lit : string) : bool :=
  match v with
  | Str s => String.eqb s lit
  | _ => false
  end.

Fixpoint lookup (fields : list (string * value)) (k : string) : value :=
  match fields with
  | [] => Undefined
  | (k', v) :: r => if String.eqb k' k then v else lookup r k
  end.

(** [v[k]] for a [v] that is neither [undefined] nor [null].  The keys read
    by the sources are XML names and relationship ids: on a string or an
    array (where only indices and [length] exist) the read is [undefined],
    and an object answers with its own properties. *)
Definition prop (v : value) (k : string) : value :=
  match v with
  | Obj fields => lookup fields k
  | _ => Undefined
  end.

(** [v[k]] in general: reading a property of [undefined] or [null] throws. *)
Definition get (v : value) (k : string) : result value :=
  match v with
  | Undefined | Null =>
      Throw (TypeError ("Cannot read properties of " ++ to_string v
                          ++ " (reading '" ++ k ++ "')"))
  | _ => Ok (prop v k)
  end.

(** [v.constructor === Array] *)
Definition constructor_is_Array (v : value) : result bool :=
  match v with
  | Undefined | Null =>
      Throw (TypeError ("Cannot read properties of " ++ to_string v
                          ++ " (reading 'constructor')"))
  | Arr _ => Ok true
  | _ => Ok false
  end.

(** The keys and values enumerated by [for (const k in v)]. *)
Fixpoint indexed (i : Z) (l : list value) : list (string * value) :=
  match l with
  | [] => []
  | x :: r => (Z_to_string 10 i, x) :: indexed (i + 1)%Z r
  end.

Fixpoint chars (s : string) : list value :=
  match s with
  | EmptyString => []
  | String c r => Str (String c EmptyString) :: chars r
  end.

Definition entries (v : value) : list (string * value) :=
  match v with
  | Obj fields => fields
  | Arr items => indexed 0 items
  | Str s => indexed 0 (chars s)
  | _ => []
  end.

(** [{ ...o, k: v }]: the property keeps its place when [o] has it and is
    appended otherwise. *)
Fixpoint set_field (fields : list (string * value)) (k : string) (v : value)
  : list (string * value) :=
  match fields with
  | [] => [(k, v)]
  | (k', v') :: r =>
      if String.eqb k' k then (k, v) :: r else (k', v') :: set_field r k v
  end.

(** ** String methods *)

(** [s.indexOf(c) !== -1] for a one-character [c]. *)
Fixpoint contains (c : ascii) (s : string) : bool :=
  match s with
  | EmptyString => false
  | String c' r => Ascii.eqb c' c || contains c r
  end.

(** [s.split(c).shift()]: the part before the first [c]. *)
Fixpoint before_first (c : ascii) (s : string) : string :=
  match s with
  | EmptyString => EmptyString
  | String c' r => if Ascii.eqb c' c then EmptyString else String c' (before_first c r)
  end.

(** [s.split(c).pop()]: the part after the last [c]. *)
Fixpoint after_last (c : ascii) (s : string) : string :=
  match s with
  | EmptyString => EmptyString
  | String c' r =>
      if contains c s
      then (if Ascii.eqb c' c && negb (contains c r) then r else after_last c r)
      else s
  end.

Definition lower (c : ascii) : ascii :=
  let n := code c in
  if ((65 <=? n) && (n <=? 90))%Z then ascii_of_nat (Z.to_nat (n + 32)) else c.

Fixpoint toLowerCase (s : string) : string :=
  match s with
  | EmptyString => EmptyString
  | String c r => String (lower c) (toLowerCase r)
  end.

End JS.

(* ================================================================= *)
(** * Part 3. The conversion pipeline *)
(* ================================================================= *)

Module Pptx.

Import JS.

Local Open Scope string_scope.

(** ** The per-slide context [warpObj]

    [zip] is the archive: [zip.file(path)] is [null] for a path that is not
    in it, and the bytes of the entry otherwise. *)
Record warpObj : Type := {
  zip : string -> option (list Byte.byte);
  slideLayoutContent : value;
  slideLayoutTables : value;
  slideMasterContent : value;
  slideMasterTables : value;
  slideContent : value;
  tableStyles : value;
  slideResObj : value;
  slideMasterTextStyles : value;
  layoutResObj : value;
  masterResObj : value;
  themeContent : value;
  themeResObj : value;
  digramFileContent : value;
  diagramResObj : value;
  defaultTextStyle : value
}.

(** [warpObj] read as an object ([warpObj[key]]); the archive handle is an
    object of no interest to the paths read here. *)
Definition warp_value (w : warpObj) : value :=
  Obj [ ("zip", Obj []);
        ("slideLayoutContent", slideLayoutContent w);
        ("slideLayoutTables", slideLayoutTables w);
        ("slideMasterContent", slideMasterContent w);
        ("slideMasterTables", slideMasterTables w);
        ("slideContent", slideContent w);
        ("tableStyles", tableStyles w);
        ("slideResObj", slideResObj w);
        ("slideMasterTextStyles", slideMasterTextStyles w);
        ("layoutResObj", layoutResObj w);
        ("masterResObj", masterResObj w);
        ("themeContent", themeContent w);
        ("themeResObj", themeResObj w);
        ("digramFileContent", digramFileContent w);
        ("diagramResObj", diagramResObj w);
        ("defaultTextStyle", defaultTextStyle w) ].

(** [await zip.file(name).async('arraybuffer')] *)
Definition zip_read (w : warpObj) (name : value) : result (list Byte.byte) :=
  match zip w (to_string name) with
  | Some bytes => Ok bytes
  | None => Throw (TypeError "Cannot read properties of null (reading 'async')")
  end.

(** ** Collaborators

    The modules [schemeColor], [color], [border], [text], [shadow], [align],
    [shape], [table] and [chart] are not part of the sources at hand, and
    [tinycolor2] is a library: their functions are parameters of the
    development.  A helper of the repository may throw; the three graphic
    frame builders, whose bodies are calls into [table], [chart] and [text],
    are taken whole. *)
Class Helpers : Type := {
  getSchemeColorFromTheme : value -> warpObj -> value -> value -> result value;
  applyShade : value -> float -> bool -> result value;
  applyTint : value -> float -> bool -> result value;
  applyLumOff : value -> float -> bool -> result value;
  applyLumMod : value -> float -> bool -> result value;
  applyHueMod : value -> float -> bool -> result value;
  applySatMod : value -> float -> bool -> result value;
  hslToRgb : float -> float -> float -> result value;
  getColorName2Hex : value -> result value;
  getBorder : value -> value -> warpObj -> result value;
  genTextBody : value -> value -> value -> value -> warpObj -> result value;
  getShadow : value -> warpObj -> result value;
  getVerticalAlign : value -> value -> value -> value -> result value;
  getCustomShapePath : value -> float -> float -> result value;
  genTable : value -> warpObj -> result value;
  genChart : value -> warpObj -> result value;
  genDiagram : value -> warpObj -> result value;
  (** [tinycolor(c).toHsl()], [tinycolor({h, s, l, a}).toHexString()] and
      [tinycolor(c).setAlpha(a).toHex8()] *)
  tinycolor_toHsl : value -> value;
  tinycolor_toHexString : value -> value;
  tinycolor_alpha_toHex8 : value -> float -> value;
  (** [urlRegex.test(s)] of [isVideoLink] *)
  urlRegex_test : string -> bool;
  (** [URL.createObjectURL(new Blob([bytes], { type }))] *)
  createObjectURL : list Byte.byte -> value -> string
}.

(** ** utils.js *)

(** [for (let i = 0; i < node.length; i++) result += func(node[i], i)]: what
    the callback returns is appended to a string, hence converted to one. *)
Fixpoint each_loop (func : value -> Z -> result value) (items : list value)
         (i : Z) (acc : string) : result string :=
  match items with
  | [] => Ok acc
  | x :: items' =>
      ret <- func x i ;; each_loop func items' (i + 1)%Z (acc ++ to_string ret)
  end.

Definition eachElement (node : value) (func : value -> Z -> result value)
  : result value :=
  if negb (truthy node) then Ok node
  else
    match node with
    | Arr items => s <- each_loop func items 0%Z "" ;; Ok (Str s)
    | _ => ret <- func node 0%Z ;; Ok (Str (to_string ret))
    end.

(** [for (const key of path) { node = node[key]; if (!node) return node }] *)
Fixpoint path_loop (node : value) (path : list string) : value :=
  match path with
  | [] => node
  | key :: path' =>
      let node := prop node key in
      if truthy node then path_loop node path' else node
  end.

Definition getTextByPathList (node : value) (path : list string) : value :=
  if truthy node then path_loop node path else node.

Definition angleToDegrees (angle : value) : float :=
  if truthy angle then Math_round (to_number angle / 60000)%float else zero.

(** A method of strings called on a value: attribute values are strings, and
    the call throws on [undefined], [null], numbers, booleans and objects. *)
Definition as_string (method : string) (v : value) : result string :=
  match v with
  | Str s => Ok s
  | _ => Throw (TypeError (to_string v ++ "." ++ method ++ " is not a function"))
  end.

Fixpoint last_index_of (c : ascii) (s : string) (i : Z) (found : Z) : Z :=
  match s with
  | EmptyString => found
  | String c' r => last_index_of c r (i + 1)%Z (if Ascii.eqb c' c then i else found)
  end.

(** [filename.substr((~-filename.lastIndexOf('.') >>> 0) + 2)] *)
Definition extractFileExtension (filename : value) : result string :=
  s <- as_string "lastIndexOf" filename ;;
  let i := last_index_of "." s 0 (-1) in
  let start := (((i - 1) mod 4294967296) + 2)%Z in
  Ok (if (start <? Z.of_nat (String.length s))%Z then drop (Z.to_nat start) s
      else "").

Definition quote : ascii := ascii_of_nat 34.

Fixpoint escapeHtml_string (s : string) : string :=
  match s with
  | EmptyString => EmptyString
  | String c r =>
      (if Ascii.eqb c "&" then "&amp;"
       else if Ascii.eqb c "<" then "&lt;"
       else if Ascii.eqb c ">" then "&gt;"
       else if Ascii.eqb c quote then "&quot;"
       else if Ascii.eqb c "'" then "&#039;"
       else String c EmptyString) ++ escapeHtml_string r
  end.

Definition escapeHtml (text : value) : result string :=
  s <- as_string "replace" text ;; Ok (escapeHtml_string s).

Definition getMimeType (imgFileExt : string) : string :=
  let e := toLowerCase imgFileExt in
  if String.eqb e "jpg" || String.eqb e "jpeg" then "image/jpeg"
  else if String.eqb e "png" then "image/png"
  else if String.eqb e "gif" then "image/gif"
  else if String.eqb e "emf" then "image/x-emf"
  else if String.eqb e "wmf" then "image/x-wmf"
  else if String.eqb e "svg" then "image/svg+xml"
  else if String.eqb e "mp4" then "video/mp4"
  else if String.eqb e "webm" then "video/webm"
  else if String.eqb e "ogg" then "video/ogg"
  else if String.eqb e "avi" then "video/avi"
  else if String.eqb e "mpg" then "video/mpg"
  else if String.eqb e "wmv" then "video/wmv"
  else if String.eqb e "mp3" then "audio/mpeg"
  else if String.eqb e "wav" then "audio/wav"
  else if String.eqb e "tif" then "image/tiff"
  else if String.eqb e "tiff" then "image/tiff"
  else "".

Definition isVideoLink {H : Helpers} (vdoFile : value) : bool :=
  urlRegex_test (to_string vdoFile).

Fixpoint pad2 (fuel : nat) (hex : string) : string :=
  match fuel with
  | O => hex
  | S fuel' => if (String.length hex <? 2)%nat then pad2 fuel' ("0" ++ hex) else hex
  end.

(** [let hex = n.toString(16); while (hex.length < 2) hex = '0' + hex].
    [toString] with a radix is the number's; on a string or an array it is
    their own [toString], which ignores the argument. *)
Definition toHex (n : value) : result string :=
  match n with
  | Undefined | Null =>
      Throw (TypeError ("Cannot read properties of " ++ to_string n
                          ++ " (reading 'toString')"))
  | Num x => Ok (pad2 2 (toString16 x))
  | _ => Ok (pad2 2 (to_string n))
  end.


(** ** fill.js *)

Section Fill.

Context {H : Helpers}.

Definition getFillType (node : value) : result string :=
  noFill <- get node "a:noFill" ;;
  solidFill <- get node "a:solidFill" ;;
  gradFill <- get node "a:gradFill" ;;
  pattFill <- get node "a:pattFill" ;;
  blipFill <- get node "a:blipFill" ;;
  grpFill <- get node "a:grpFill" ;;
  let fillType := "" in
  let fillType := if truthy noFill then "NO_FILL" else fillType in
  let fillType := if truthy solidFill then "SOLID_FILL" else fillType in
  let fillType := if truthy gradFill then "GRADIENT_FILL" else fillType in
  let fillType := if truthy pattFill then "PATTERN_FILL" else fillType in
  let fillType := if truthy blipFill then "PIC_FILL" else fillType in
  let fillType := if truthy grpFill then "GROUP_FILL" else fillType in
  Ok fillType.

Definition getPicFill (type : value) (node : value) (w : warpObj) : result value :=
  blip <- get node "a:blip" ;;
  attrs <- get blip "attrs" ;;
  rId <- get attrs "r:embed" ;;
  let res (map : string) :=
    getTextByPathList (warp_value w) [map; to_string rId; "target"] in
  let imgPath :=
    if is_str type "slideBg" || is_str type "slide" then res "slideResObj"
    else if is_str type "slideLayoutBg" then res "layoutResObj"
    else if is_str type "slideMasterBg" then res "masterResObj"
    else if is_str type "themeBg" then res "themeResObj"
    else if is_str type "diagramBg" then res "diagramResObj"
    else Undefined in
  if negb (truthy imgPath) then Ok imgPath
  else
    let img := getTextByPathList (warp_value w) ["loaded-images"; to_string imgPath] in
    if negb (truthy img) then
      imgPath <- escapeHtml imgPath ;;
      let imgExt := after_last "." imgPath in
      if String.eqb imgExt "xml" then Ok Undefined
      else
        imgArrayBuffer <- zip_read w (Str imgPath) ;;
        let imgMimeType := getMimeType imgExt in
        Ok (Str ("data:" ++ imgMimeType ++ ";base64,"
                   ++ Base64.base64ArrayBuffer imgArrayBuffer))
    else Ok img.

Definition getBgPicFill (bgPr : value) (sorce : value) (w : warpObj) : result value :=
  blipFill <- get bgPr "a:blipFill" ;;
  picBase64 <- getPicFill sorce blipFill w ;;
  aBlipNode <- get blipFill "a:blip" ;;
  let aphaModFixNode := getTextByPathList aBlipNode ["a:alphaModFix"; "attrs"] in
  let opacity :=
    if truthy aphaModFixNode && truthy (prop aphaModFixNode "amt")
    then (parseInt (prop aphaModFixNode "amt") / 100000)%float
    else one in
  Ok (Obj [("picBase64", picBase64); ("opacity", Num opacity)]).

(** [s.indexOf('%') !== -1 ? s.split('%').shift() : s] *)
Definition percent_part (v : value) : result string :=
  s <- as_string "indexOf" v ;;
  Ok (if contains "%" s then before_first "%" s else s).

(** [parseInt(getTextByPathList(clrNode, ['a:<name>', 'attrs', 'val'])) / 100000] *)
Definition modifier (clrNode : value) (name : string) : float :=
  (parseInt (getTextByPathList clrNode [name; "attrs"; "val"]) / 100000)%float.

Definition getSolidFill (solidFill clrMap phClr : value) (w : warpObj) : result value :=
  if negb (truthy solidFill) then Ok (Str "")
  else
    cc <-
      (if truthy (prop solidFill "a:srgbClr") then
         let clrNode := prop solidFill "a:srgbClr" in
         Ok (clrNode, getTextByPathList clrNode ["attrs"; "val"])
       else if truthy (prop solidFill "a:schemeClr") then
         let clrNode := prop solidFill "a:schemeClr" in
         let schemeClr := add (Str "a:") (getTextByPathList clrNode ["attrs"; "val"]) in
         c <- getSchemeColorFromTheme schemeClr w clrMap phClr ;;
         Ok (clrNode, if truthy c then c else Str "")
       else if truthy (prop solidFill "a:scrgbClr") then
         let clrNode := prop solidFill "a:scrgbClr" in
         let defBultColorVals := prop clrNode "attrs" in
         r <- get defBultColorVals "r" ;;
         red <- percent_part r ;;
         g <- get defBultColorVals "g" ;;
         green <- percent_part g ;;
         b <- get defBultColorVals "b" ;;
         blue <- percent_part b ;;
         hr <- toHex (Num (255 * (string_to_number red / 100))%float) ;;
         hg <- toHex (Num (255 * (string_to_number green / 100))%float) ;;
         hb <- toHex (Num (255 * (string_to_number blue / 100))%float) ;;
         Ok (clrNode, Str (hr ++ hg ++ hb))
       else if truthy (prop solidFill "a:prstClr") then
         let clrNode := prop solidFill "a:prstClr" in
         let prstClr := getTextByPathList clrNode ["attrs"; "val"] in
         c <- getColorName2Hex prstClr ;;
         Ok (clrNode, c)
       else if truthy (prop solidFill "a:hslClr") then
         let clrNode := prop solidFill "a:hslClr" in
         let defBultColorVals := prop clrNode "attrs" in
         hueAttr <- get defBultColorVals "hue" ;;
         let hue := (to_number hueAttr / 100000)%float in
         satAttr <- get defBultColorVals "sat" ;;
         satPart <- percent_part satAttr ;;
         let sat := (string_to_number satPart / 100)%float in
         lumAttr <- get defBultColorVals "lum" ;;
         lumPart <- percent_part lumAttr ;;
         let lum := (string_to_number lumPart / 100)%float in
         hsl2rgb <- hslToRgb hue sat lum ;;
         r <- get hsl2rgb "r" ;;
         hr <- toHex r ;;
         g <- get hsl2rgb "g" ;;
         hg <- toHex g ;;
         b <- get hsl2rgb "b" ;;
         hb <- toHex b ;;
         Ok (clrNode, Str (hr ++ hg ++ hb))
       else if truthy (prop solidFill "a:sysClr") then
         let clrNode := prop solidFill "a:sysClr" in
         let sysClr := getTextByPathList clrNode ["attrs"; "lastClr"] in
         Ok (clrNode, if truthy sysClr then sysClr else Str "")
       else Ok (Undefined, Str "")) ;;
    let '(clrNode, color) := cc in
    let alpha := modifier clrNode "a:alpha" in
    let isAlpha := negb (isNaN alpha) in
    let color := if isAlpha then tinycolor_alpha_toHex8 color alpha else color in
    let step (op : value -> float -> bool -> result value) (name : string)
             (color : value) : result value :=
      let m := modifier clrNode name in
      if negb (isNaN m) then op color m isAlpha else Ok color in
    color <- step applyHueMod "a:hueMod" color ;;
    color <- step applyLumMod "a:lumMod" color ;;
    color <- step applyLumOff "a:lumOff" color ;;
    color <- step applySatMod "a:satMod" color ;;
    color <- step applyShade "a:shade" color ;;
    color <- step applyTint "a:tint" color ;;
    if truthy color then
      s <- as_string "indexOf" color ;;
      Ok (if contains "#" s then color else Str ("#" ++ s))
    else Ok color.

(** ** [Array.prototype.sort] with a comparison function

    The sort is stable, and for a comparison that is a consistent ordering
    of the elements its result is determined.  It is modelled by insertion
    from the left, each element moving towards the front past the elements
    the comparison places after it; a comparison result of NaN counts as
    0, as the language prescribes. *)
Fixpoint insert_sorted (gt : value -> value -> bool) (x : value)
         (rev_prefix : list value) : list value :=
  match rev_prefix with
  | [] => [x]
  | y :: r => if gt y x then y :: insert_sorted gt x r else x :: rev_prefix
  end.

Definition sort (gt : value -> value -> bool) (l : list value) : list value :=
  rev (fold_left (fun acc x => insert_sorted gt x acc) l []).

(** [(a, b) => parseInt(a.pos) - parseInt(b.pos)], positive *)
Definition pos_after (a b : value) : bool :=
  (0 <? parseInt (prop a "pos") - parseInt (prop b "pos"))%float.

Fixpoint map_result {A B : Type} (f : A -> result B) (l : list A) : result (list B) :=
  match l with
  | [] => Ok []
  | x :: r => y <- f x ;; ys <- map_result f r ;; Ok (y :: ys)
  end.

(** The elements visited by [for (let i = 0; i < gsLst.length; i++)]: those
    of an array (or the characters of a string); [undefined] has no
    [length], and an object (a single [a:gs] is not wrapped in an array) has
    an undefined one, so that the body never runs. *)
Definition indexed_elements (v : value) : result (list value) :=
  match v with
  | Undefined | Null =>
      Throw (TypeError ("Cannot read properties of " ++ to_string v
                          ++ " (reading 'length')"))
  | Arr items => Ok items
  | Str s => Ok (chars s)
  | _ => Ok []
  end.

Definition getBgGradientFill (bgPr phClr slideMasterContent : value) (w : warpObj)
  : result value :=
  if truthy bgPr then
    let grdFill := prop bgPr "a:gradFill" in
    gsLstNode <- get grdFill "a:gsLst" ;;
    gsLst <- get gsLstNode "a:gs" ;;
    stops <- indexed_elements gsLst ;;
    color_ary <-
      map_result
        (fun gs =>
           sldMaster <- get slideMasterContent "p:sldMaster" ;;
           clrMap <- get sldMaster "p:clrMap" ;;
           clrMapAttrs <- get clrMap "attrs" ;;
           lo_color <- getSolidFill gs clrMapAttrs phClr w ;;
           let pos := getTextByPathList gs ["attrs"; "pos"] in
           Ok (Obj [ ("pos", if truthy pos
                             then add (Num (to_number pos / 1000)%float) (Str "%")
                             else Str "");
                     ("color", lo_color) ]))
        stops ;;
    let lin := prop grdFill "a:lin" in
    rot <-
      (if truthy lin then
         ang <- get (prop lin "attrs") "ang" ;;
         Ok (angleToDegrees ang + 90)%float
       else Ok 90%float) ;;
    Ok (Obj [("rot", Num rot); ("colors", Arr (sort pos_after color_ary))])
  else if truthy phClr then
    s <- as_string "indexOf" phClr ;;
    Ok (if contains "#" s then phClr else Str ("#" ++ s))
  else Ok Null.

Definition getSlideBackgroundFill (w : warpObj) : result value :=
  let slideContent := slideContent w in
  let slideLayoutContent := slideLayoutContent w in
  let slideMasterContent := slideMasterContent w in
  let bgPr := getTextByPathList slideContent ["p:sld"; "p:cSld"; "p:bg"; "p:bgPr"] in
  let bgRef := getTextByPathList slideContent ["p:sld"; "p:cSld"; "p:bg"; "p:bgRef"] in
  let background := Str "#fff" in
  let backgroundType := "color" in
  bt <-
    (if truthy bgPr then
       bgFillTyp <- getFillType bgPr ;;
       if String.eqb bgFillTyp "SOLID_FILL" then
         let sldFill := prop bgPr "a:solidFill" in
         let sldClrMapOvr :=
           getTextByPathList slideContent
             ["p:sld"; "p:clrMapOvr"; "a:overrideClrMapping"; "attrs"] in
         let clrMapOvr :=
           if truthy sldClrMapOvr then sldClrMapOvr
           else
             let sldClrMapOvr :=
               getTextByPathList slideLayoutContent
                 ["p:sldLayout"; "p:clrMapOvr"; "a:overrideClrMapping"; "attrs"] in
             if truthy sldClrMapOvr then sldClrMapOvr
             else getTextByPathList slideMasterContent
                    ["p:sldMaster"; "p:clrMap"; "attrs"] in
         sldBgClr <- getSolidFill sldFill clrMapOvr Undefined w ;;
         Ok (sldBgClr, backgroundType)
       else if String.eqb bgFillTyp "GRADIENT_FILL" then
         gradientFill <- getBgGradientFill bgPr Undefined slideMasterContent w ;;
         match gradientFill with
         | Str _ => Ok (gradientFill, backgroundType)
         | _ => if truthy gradientFill then Ok (gradientFill, "gradient")
                else Ok (background, backgroundType)
         end
       else if String.eqb bgFillTyp "PIC_FILL" then
         pic <- getBgPicFill bgPr (Str "slideBg") w ;;
         Ok (pic, "image")
       else Ok (background, backgroundType)
     else if truthy bgRef then
       (* the handling of a background reference is elided in the source *)
       Ok (background, backgroundType)
     else
       let bgPr := getTextByPathList slideLayoutContent
                     ["p:sldLayout"; "p:cSld"; "p:bg"; "p:bgPr"] in
       let bgRef := getTextByPathList slideLayoutContent
                      ["p:sldLayout"; "p:cSld"; "p:bg"; "p:bgRef"] in
       (* elided in the source *)
       if negb (truthy bgPr) && negb (truthy bgRef) then
         let bgPr := getTextByPathList slideMasterContent
                       ["p:sldMaster"; "p:cSld"; "p:bg"; "p:bgPr"] in
         let bgRef := getTextByPathList slideMasterContent
                        ["p:sldMaster"; "p:cSld"; "p:bg"; "p:bgRef"] in
         (* elided in the source: [bgPr] and [bgRef] are read and not used *)
         Ok (background, backgroundType)
       else Ok (background, backgroundType)) ;;
  let '(background, backgroundType) := bt in
  Ok (Obj [("type", Str backgroundType); ("value", background)]).

Definition getShapeFill (node isSvgMode : value) (w : warpObj) : result value :=
  if truthy (getTextByPathList node ["p:spPr"; "a:noFill"]) then
    Ok (if truthy isSvgMode then Str "none" else Str "")
  else
    let fillColor :=
      getTextByPathList node ["p:spPr"; "a:solidFill"; "a:srgbClr"; "attrs"; "val"] in
    fillColor <-
      (if negb (truthy fillColor) then
         let schemeClr :=
           add (Str "a:")
               (getTextByPathList node
                  ["p:spPr"; "a:solidFill"; "a:schemeClr"; "attrs"; "val"]) in
         getSchemeColorFromTheme schemeClr w Undefined Undefined
       else Ok fillColor) ;;
    fillColor <-
      (if negb (truthy fillColor) then
         let schemeClr :=
           add (Str "a:")
               (getTextByPathList node
                  ["p:style"; "a:fillRef"; "a:schemeClr"; "attrs"; "val"]) in
         getSchemeColorFromTheme schemeClr w Undefined Undefined
       else Ok fillColor) ;;
    if truthy fillColor then
      let fillColor := Str ("#" ++ to_string fillColor) in
      let lumMod :=
        (parseInt (getTextByPathList node
                     ["p:spPr"; "a:solidFill"; "a:schemeClr"; "a:lumMod"; "attrs"; "val"])
         / 100000)%float in
      let lumOff :=
        (parseInt (getTextByPathList node
                     ["p:spPr"; "a:solidFill"; "a:schemeClr"; "a:lumOff"; "attrs"; "val"])
         / 100000)%float in
      let lumMod := if isNaN lumMod then one else lumMod in
      let lumOff := if isNaN lumOff then zero else lumOff in
      let color := tinycolor_toHsl fillColor in
      color_l <- get color "l" ;;
      let lum := (to_number color_l * lumMod + lumOff)%float in
      Ok (tinycolor_toHexString
            (Obj [ ("h", prop color "h"); ("s", prop color "s");
                   ("l", Num lum); ("a", prop color "a") ]))
    else if truthy isSvgMode then Ok (Str "none")
    else Ok fillColor.

End Fill.


(** ** constants.js and position.js (not part of the sources at hand) *)

(** Modelled from the spec: the constant [RATIO_EMUs_Points] of
    [constants.js], missing from the sources.  "A single constant
    [EMU_TO_POINT = 1/12700] (or equivalent) converts every coordinate and
    dimension produced by the core to points." *)
Definition RATIO_EMUs_Points : float := (1 / 12700)%float.

(** The first node of the chain that provides the child [key]: its
    attributes. *)
Fixpoint first_providing (key : string) (chain : list value) : value :=
  match chain with
  | [] => Undefined
  | node :: chain' =>
      let attrs := getTextByPathList node [key; "attrs"] in
      if truthy attrs then attrs else first_providing key chain'
  end.

(** Modelled from the spec: [getPosition] of [position.js], missing from the
    sources.  "[position(slideXfrm, layoutXfrm?, masterXfrm?)] returns
    [{left, top}] in points; for each axis, the first node in the chain that
    provides [a:off] wins; missing -> 0." *)
Definition getPosition (slideXfrmNode slideLayoutXfrmNode slideMasterXfrmNode : value)
  : value :=
  let off := first_providing "a:off"
               [slideXfrmNode; slideLayoutXfrmNode; slideMasterXfrmNode] in
  if truthy off then
    Obj [ ("top", Num (parseInt (prop off "y") * RATIO_EMUs_Points)%float);
          ("left", Num (parseInt (prop off "x") * RATIO_EMUs_Points)%float) ]
  else Obj [("top", Num zero); ("left", Num zero)].

(** Modelled from the spec: [getSize] of [position.js], missing from the
    sources.  "[size(...)] is analogous using [a:ext] with attributes [cx],
    [cy]." *)
Definition getSize (slideXfrmNode slideLayoutXfrmNode slideMasterXfrmNode : value)
  : value :=
  let ext := first_providing "a:ext"
               [slideXfrmNode; slideLayoutXfrmNode; slideMasterXfrmNode] in
  if truthy ext then
    Obj [ ("width", Num (parseInt (prop ext "cx") * RATIO_EMUs_Points)%float);
          ("height", Num (parseInt (prop ext "cy") * RATIO_EMUs_Points)%float) ]
  else Obj [("width", Num zero); ("height", Num zero)].

(** ** pptxtojson.js *)

(** *** [indexNodes]

    The three tables are objects written with [table[key] = node] and read
    by key only ([typeTable[type]], [idxTable[idx]]): they are kept as the
    list of their properties, a later write to a key replacing the earlier
    one. *)
Record tables : Type := {
  idTable : list (string * value);
  idxTable : list (string * value);
  typeTable : list (string * value)
}.

Fixpoint fold_result {A B : Type} (f : A -> B -> result A) (a : A) (l : list B)
  : result A :=
  match l with
  | [] => Ok a
  | x :: l' => a' <- f a x ;; fold_result f a' l'
  end.





(** *** [getContentTypes], from the point where [[Content_Types].xml] has
    been read *)

(** The values that [for (const item of v)] visits; a value that is not
    iterable (an object, as a single [Override] is parsed; [undefined]) makes
    the loop throw. *)
Definition iterate (v : value) : result (list value) :=
  match v with
  | Arr items => Ok items
  | Str s => Ok (chars s)
  | _ => Throw (TypeError (to_string v ++ " is not iterable"))
  end.

Fixpoint starts_with (prefix s : string) : bool :=
  match prefix, s with
  | EmptyString, _ => true
  | String a prefix', String b s' => Ascii.eqb a b && starts_with prefix' s'
  | String _ _, EmptyString => false
  end.

(** [/(\d+)\.xml/.exec(p)]: the capture of the leftmost match, the first run
    of digits that [.xml] follows; [None] for [null]. *)
Fixpoint digits_before_xml (p : string) : option string :=
  match p with
  | EmptyString => None
  | String _ p' =>
      let '(_, len, rest) := take_digits 10 p 0 0 in
      if (0 <? len)%nat && starts_with ".xml" rest then Some (take len p)
      else digits_before_xml p'
  end.

(** [+/(\d+)\.xml/.exec(p)[1]] *)
Definition part_number (p : value) : float :=
  match digits_before_xml (to_string p) with
  | Some digits => string_to_number digits
  | None => nan
  end.

(** [sortSlideXml], positive *)
Definition sortSlideXml_after (p1 p2 : value) : bool :=
  (0 <? part_number p1 - part_number p2)%float.

(** [array.sort(sortSlideXml)]: the comparison reads [exec(p)[1]] and throws
    on a name without match; a sort of two or more elements compares each of
    them at least once, and a sort of fewer compares nothing. *)
Definition sort_parts (parts : list string) : result (list value) :=
  if (2 <=? List.length parts)%nat
     && existsb (fun p => match digits_before_xml p with
                          | Some _ => false
                          | None => true
                          end) parts
  then Throw (TypeError "Cannot read properties of null (reading '1')")
  else Ok (sort sortSlideXml_after (map Str parts)).

Definition slide_content_type : string :=
  "application/vnd.openxmlformats-officedocument.presentationml.slide+xml".

Definition slideLayout_content_type : string :=
  "application/vnd.openxmlformats-officedocument.presentationml.slideLayout+xml".

(** The loop over the [Override] elements: the part names pushed to
    [slidesLocArray] and to [slideLayoutsLocArray]. *)
Fixpoint collect_parts (items : list value) (slides layouts : list string)
  : result (list string * list string) :=
  match items with
  | [] => Ok (slides, layouts)
  | item :: items' =>
      attrs <- get item "attrs" ;;
      contentType <- get attrs "ContentType" ;;
      if is_str contentType slide_content_type then
        partName <- get attrs "PartName" ;;
        name <- as_string "substr" partName ;;
        collect_parts items' (slides ++ [drop 1 name]) layouts
      else if is_str contentType slideLayout_content_type then
        partName <- get attrs "PartName" ;;
        name <- as_string "substr" partName ;;
        collect_parts items' slides (layouts ++ [drop 1 name])
      else collect_parts items' slides layouts
  end.

Definition getContentTypes (ContentTypesJson : value) : result value :=
  types <- get ContentTypesJson "Types" ;;
  subObj <- get types "Override" ;;
  items <- iterate subObj ;;
  parts <- collect_parts items [] [] ;;
  let '(slidesLocArray, slideLayoutsLocArray) := parts in
  slides <- sort_parts slidesLocArray ;;
  slideLayouts <- sort_parts slideLayoutsLocArray ;;
  Ok (Obj [("slides", Arr slides); ("slideLayouts", Arr slideLayouts)]).

(** *** The relationships of a slide, from the point where the [.rels] part
    has been read (the first loop of [processSingleSlide]) *)

(** [s.replace(pattern, replacement)] for a string pattern and a replacement
    without [$]: the first occurrence is replaced. *)
Fixpoint replace_first (pattern replacement s : string) : string :=
  match s with
  | EmptyString => if starts_with pattern s then replacement else EmptyString
  | String c s' =>
      if starts_with pattern s
      then replacement ++ drop (String.length pattern) s
      else String c (replace_first pattern replacement s')
  end.

Definition relationships_uri : string :=
  "http://schemas.openxmlformats.org/officeDocument/2006/relationships/".

Definition slideLayout_uri : string :=
  "http://schemas.openxmlformats.org/officeDocument/2006/relationships/slideLayout".

Definition diagramDrawing_uri : string :=
  "http://schemas.microsoft.com/office/2007/relationships/diagramDrawing".

(** [attrs['Target'].replace('../', 'ppt/')] *)
Definition target_path (attrs : value) : result string :=
  target <- get attrs "Target" ;;
  t <- as_string "replace" target ;;
  Ok (replace_first "../" "ppt/" t).

(** [{ type: attrs['Type'].replace(<relationships uri>, ''),
       target: attrs['Target'].replace('../', 'ppt/') }] *)
Definition resource (attrs : value) : result value :=
  type <- get attrs "Type" ;;
  t <- as_string "replace" type ;;
  target <- target_path attrs ;;
  Ok (Obj [ ("type", Str (replace_first relationships_uri "" t));
            ("target", Str target) ]).

(** [layoutFilename], [diagramFilename] and [slideResObj] *)
Record slide_rels : Type := {
  layoutFilename : string;
  diagramFilename : string;
  resObj : list (string * value)
}.

(** The body of the loop: one [Relationship]. *)
Definition slide_relationship (r : slide_rels) (item : value) : result slide_rels :=
  attrs <- get item "attrs" ;;
  type <- get attrs "Type" ;;
  if is_str type slideLayout_uri then
    target <- target_path attrs ;;
    Ok {| layoutFilename := target; diagramFilename := diagramFilename r;
          resObj := resObj r |}
  else if is_str type diagramDrawing_uri then
    target <- target_path attrs ;;
    id <- get attrs "Id" ;;
    res <- resource attrs ;;
    Ok {| layoutFilename := layoutFilename r; diagramFilename := target;
          resObj := set_field (resObj r) (to_string id) res |}
  else
    id <- get attrs "Id" ;;
    res <- resource attrs ;;
    Ok {| layoutFilename := layoutFilename r; diagramFilename := diagramFilename r;
          resObj := set_field (resObj r) (to_string id) res |}.

Definition slide_relationships (resContent : value) : result slide_rels :=
  rels <- get resContent "Relationships" ;;
  relationshipArray <- get rels "Relationship" ;;
  isArray <- constructor_is_Array relationshipArray ;;
  let none := {| layoutFilename := ""; diagramFilename := ""; resObj := [] |} in
  if isArray then
    match relationshipArray with
    | Arr items => fold_result slide_relationship none items
    | _ => Ok none
    end
  else
    attrs <- get relationshipArray "attrs" ;;
    target <- target_path attrs ;;
    Ok {| layoutFilename := target; diagramFilename := ""; resObj := [] |}.

Section Slide.

Context {H : Helpers}.

(** [{ ...element, k1: v1, ... }] *)
Definition spread (element : value) (updates : list (string * value)) : value :=
  Obj (fold_left (fun fields kv => set_field fields (fst kv) (snd kv))
                 updates (entries element)).

Definition genShape (node slideLayoutSpNode slideMasterSpNode name type : value)
           (w : warpObj) : result value :=
  let xfrmList := ["p:spPr"; "a:xfrm"] in
  let slideXfrmNode := getTextByPathList node xfrmList in
  let slideLayoutXfrmNode := getTextByPathList slideLayoutSpNode xfrmList in
  let slideMasterXfrmNode := getTextByPathList slideMasterSpNode xfrmList in
  let shapType := getTextByPathList node ["p:spPr"; "a:prstGeom"; "attrs"; "prst"] in
  let custShapType := getTextByPathList node ["p:spPr"; "a:custGeom"] in
  let position := getPosition slideXfrmNode slideLayoutXfrmNode slideMasterXfrmNode in
  let size := getSize slideXfrmNode slideLayoutXfrmNode slideMasterXfrmNode in
  let top := prop position "top" in
  let left := prop position "left" in
  let width := prop size "width" in
  let height := prop size "height" in
  let isFlipV := is_str (getTextByPathList slideXfrmNode ["attrs"; "flipV"]) "1" in
  let isFlipH := is_str (getTextByPathList slideXfrmNode ["attrs"; "flipH"]) "1" in
  let rotate := angleToDegrees (getTextByPathList slideXfrmNode ["attrs"; "rot"]) in
  let txtXframeNode := getTextByPathList node ["p:txXfrm"] in
  let txtRotate :=
    if truthy txtXframeNode then
      let txtXframeRot := getTextByPathList txtXframeNode ["attrs"; "rot"] in
      if truthy txtXframeRot then Num (angleToDegrees txtXframeRot + 90)%float
      else Undefined
    else Num rotate in
  txBody <- get node "p:txBody" ;;
  content <-
    (if truthy txBody then genTextBody txBody node slideLayoutSpNode type w
     else Ok (Str "")) ;;
  border <- getBorder node type w ;;
  borderColor <- get border "borderColor" ;;
  let borderWidth := prop border "borderWidth" in
  let borderType := prop border "borderType" in
  let strokeDasharray := prop border "strokeDasharray" in
  fill <- getShapeFill node Undefined w ;;
  let fillColor := if truthy fill then fill else Str "" in
  gradientFill <- getSlideBackgroundFill w ;;
  let outerShdwNode := getTextByPathList node ["p:spPr"; "a:effectLst"; "a:outerShdw"] in
  shadow <- (if truthy outerShdwNode then getShadow outerShdwNode w else Ok Undefined) ;;
  vAlign <- getVerticalAlign node slideLayoutSpNode slideMasterSpNode type ;;
  let isVertical :=
    is_str (getTextByPathList node ["p:txBody"; "a:bodyPr"; "attrs"; "vert"]) "eaVert" in
  let data :=
    Obj ([ ("left", left); ("top", top); ("width", width); ("height", height);
           ("borderColor", borderColor); ("borderWidth", borderWidth);
           ("borderType", borderType); ("borderStrokeDasharray", strokeDasharray);
           ("fillColor", fillColor); ("content", content);
           ("isFlipV", Bool isFlipV); ("isFlipH", Bool isFlipH);
           ("rotate", Num rotate); ("vAlign", vAlign); ("name", name) ]
         ++ (if truthy shadow then [("shadow", shadow)] else [])) in
  if truthy custShapType && negb (is_str type "diagram") then
    let ext := getTextByPathList slideXfrmNode ["a:ext"; "attrs"] in
    cx <- get ext "cx" ;;
    let w_ := (parseInt cx * RATIO_EMUs_Points)%float in
    let h_ := (parseInt (prop ext "cy") * RATIO_EMUs_Points)%float in
    d <- getCustomShapePath custShapType w_ h_ ;;
    Ok (spread data [("type", Str "shape"); ("shapType", Str "custom"); ("path", d)])
  else if truthy shapType && (is_str type "obj" || negb (truthy type)) then
    Ok (spread data [("type", Str "shape"); ("shapType", shapType)])
  else
    Ok (spread data [("type", Str "text"); ("isVertical", Bool isVertical);
                     ("rotate", txtRotate)]).

Definition processSpNode (node : value) (w : warpObj) (source : value) : result value :=
  let name := getTextByPathList node ["p:nvSpPr"; "p:cNvPr"; "attrs"; "name"] in
  let idx := getTextByPathList node ["p:nvSpPr"; "p:nvPr"; "p:ph"; "attrs"; "idx"] in
  let type := getTextByPathList node ["p:nvSpPr"; "p:nvPr"; "p:ph"; "attrs"; "type"] in
  let table (tables : value) (name : string) (key : value) : result value :=
    t <- get tables name ;; get t (to_string key) in
  nodes <-
    (if truthy type then
       l <- table (slideLayoutTables w) "typeTable" type ;;
       m <- table (slideMasterTables w) "typeTable" type ;;
       Ok (l, m)
     else if truthy idx then
       l <- table (slideLayoutTables w) "idxTable" idx ;;
       m <- table (slideMasterTables w) "idxTable" idx ;;
       Ok (l, m)
     else Ok (Undefined, Undefined)) ;;
  let '(slideLayoutSpNode, slideMasterSpNode) := nodes in
  let type :=
    if negb (truthy type) then
      let txBoxVal := getTextByPathList node ["p:nvSpPr"; "p:cNvSpPr"; "attrs"; "txBox"] in
      if is_str txBoxVal "1" then Str "text" else type
    else type in
  let type :=
    if negb (truthy type)
    then getTextByPathList slideLayoutSpNode ["p:nvSpPr"; "p:nvPr"; "p:ph"; "attrs"; "type"]
    else type in
  let type :=
    if negb (truthy type)
    then getTextByPathList slideMasterSpNode ["p:nvSpPr"; "p:nvPr"; "p:ph"; "attrs"; "type"]
    else type in
  let type :=
    if negb (truthy type)
    then (if is_str source "diagramBg" then Str "diagram" else Str "obj")
    else type in
  genShape node slideLayoutSpNode slideMasterSpNode name type w.

Definition processCxnSpNode (node : value) (w : warpObj) : result value :=
  nvCxnSpPr <- get node "p:nvCxnSpPr" ;;
  cNvPr <- get nvCxnSpPr "p:cNvPr" ;;
  attrs <- get cNvPr "attrs" ;;
  name <- get attrs "name" ;;
  nvPr <- get nvCxnSpPr "p:nvPr" ;;
  ph <- get nvPr "p:ph" ;;
  type <-
    (match ph with
     | Undefined => Ok Undefined
     | _ =>
         nvSpPr <- get node "p:nvSpPr" ;;
         nvPr' <- get nvSpPr "p:nvPr" ;;
         ph' <- get nvPr' "p:ph" ;;
         attrs' <- get ph' "attrs" ;;
         get attrs' "type"
     end) ;;
  genShape node Undefined Undefined name type w.

Definition processPicNode (node : value) (w : warpObj) (source : value) : result value :=
  let resObj :=
    if is_str source "slideMasterBg" then masterResObj w
    else if is_str source "slideLayoutBg" then layoutResObj w
    else slideResObj w in
  blipFill <- get node "p:blipFill" ;;
  blip <- get blipFill "a:blip" ;;
  blipAttrs <- get blip "attrs" ;;
  rid <- get blipAttrs "r:embed" ;;
  res <- get resObj (to_string rid) ;;
  imgName <- get res "target" ;;
  ext <- extractFileExtension imgName ;;
  let imgFileExt := toLowerCase ext in
  imgArrayBuffer <- zip_read w imgName ;;
  spPr <- get node "p:spPr" ;;
  xfrmNode <- get spPr "a:xfrm" ;;
  let mimeType := getMimeType imgFileExt in
  let position := getPosition xfrmNode Undefined Undefined in
  let size := getSize xfrmNode Undefined Undefined in
  let top := prop position "top" in
  let left := prop position "left" in
  let width := prop size "width" in
  let height := prop size "height" in
  let src := Str ("data:" ++ mimeType ++ ";base64,"
                    ++ Base64.base64ArrayBuffer imgArrayBuffer) in
  let isFlipV := is_str (getTextByPathList xfrmNode ["attrs"; "flipV"]) "1" in
  let isFlipH := is_str (getTextByPathList xfrmNode ["attrs"; "flipH"]) "1" in
  let rotateNode := getTextByPathList node ["p:spPr"; "a:xfrm"; "attrs"; "rot"] in
  let rotate := if truthy rotateNode then angleToDegrees rotateNode else zero in
  let videoNode := getTextByPathList node ["p:nvPicPr"; "p:nvPr"; "a:videoFile"] in
  video <-
    (if truthy videoNode then
       videoRid <- get (prop videoNode "attrs") "r:link" ;;
       vres <- get resObj (to_string videoRid) ;;
       videoFile <- get vres "target" ;;
       if isVideoLink videoFile then
         escaped <- escapeHtml videoFile ;;
         Ok (Str escaped, true, Undefined)
       else
         vext <- extractFileExtension videoFile ;;
         let videoFileExt := toLowerCase vext in
         if String.eqb videoFileExt "mp4" || String.eqb videoFileExt "webm"
            || String.eqb videoFileExt "ogg" then
           uInt8ArrayVideo <- zip_read w videoFile ;;
           let videoMimeType := getMimeType videoFileExt in
           Ok (videoFile, false,
               Str (createObjectURL uInt8ArrayVideo (Str videoMimeType)))
         else Ok (videoFile, false, Undefined)
     else Ok (Undefined, false, Undefined)) ;;
  let '(videoFile, isVdeoLink, videoBlob) := video in
  let audioNode := getTextByPathList node ["p:nvPicPr"; "p:nvPr"; "a:audioFile"] in
  audioBlob <-
    (if truthy audioNode then
       audioRid <- get (prop audioNode "attrs") "r:link" ;;
       ares <- get resObj (to_string audioRid) ;;
       audioFile <- get ares "target" ;;
       aext <- extractFileExtension audioFile ;;
       let audioFileExt := toLowerCase aext in
       if String.eqb audioFileExt "mp3" || String.eqb audioFileExt "wav"
          || String.eqb audioFileExt "ogg" then
         uInt8ArrayAudio <- zip_read w audioFile ;;
         Ok (Str (createObjectURL uInt8ArrayAudio Undefined))
       else Ok Undefined
     else Ok Undefined) ;;
  let box := [ ("top", top); ("left", left); ("width", width); ("height", height);
               ("rotate", Num rotate) ] in
  if truthy videoNode && negb isVdeoLink then
    Ok (Obj (("type", Str "video") :: box ++ [("blob", videoBlob)]))
  else if truthy videoNode && isVdeoLink then
    Ok (Obj (("type", Str "video") :: box ++ [("src", videoFile)]))
  else if truthy audioNode then
    Ok (Obj (("type", Str "audio") :: box ++ [("blob", audioBlob)]))
  else
    Ok (Obj (("type", Str "image") :: box
               ++ [("src", src); ("isFlipV", Bool isFlipV); ("isFlipH", Bool isFlipH)])).

(** The [ole] case starts the group handler on the fallback object without
    awaiting it and keeps nothing of it: the result is [undefined]. *)
Definition processGraphicFrameNode (node : value) (w : warpObj) (source : value)
  : result value :=
  let graphicTypeUri :=
    getTextByPathList node ["a:graphic"; "a:graphicData"; "attrs"; "uri"] in
  if is_str graphicTypeUri "http://schemas.openxmlformats.org/drawingml/2006/table"
  then genTable node w
  else if is_str graphicTypeUri "http://schemas.openxmlformats.org/drawingml/2006/chart"
  then genChart node w
  else if is_str graphicTypeUri "http://schemas.openxmlformats.org/drawingml/2006/diagram"
  then genDiagram node w
  else Ok Undefined.

(** The [switch] of [processNodesInSlide], the group handler being given. *)
Definition dispatch (group : value -> warpObj -> value -> result value)
           (nodeKey : string) (nodeValue : value) (w : warpObj) (source : value)
  : result value :=
  if String.eqb nodeKey "p:sp" then processSpNode nodeValue w source
  else if String.eqb nodeKey "p:cxnSp" then processCxnSpNode nodeValue w
  else if String.eqb nodeKey "p:pic" then processPicNode nodeValue w source
  else if String.eqb nodeKey "p:graphicFrame" then processGraphicFrameNode nodeValue w source
  else if String.eqb nodeKey "p:grpSp" then group nodeValue w source
  else if String.eqb nodeKey "mc:AlternateContent"
  then group (getTextByPathList nodeValue ["mc:Fallback"]) w source
  else Ok Undefined.

(** One turn of [for (const nodeKey in nodes)]: the elements pushed for the
    key. *)
Definition visit (process : string -> value -> result value)
           (entry : string * value) : result (list value) :=
  let '(nodeKey, v) := entry in
  isArray <- constructor_is_Array v ;;
  if isArray then
    match v with
    | Arr items =>
        rets <- map_result (process nodeKey) items ;;
        Ok (filter truthy rets)
    | _ => Ok []
    end
  else
    ret <- process nodeKey v ;;
    Ok (if truthy ret then [ret] else []).

Fixpoint collect (process : string -> value -> result value)
         (nodes : list (string * value)) : result (list value) :=
  match nodes with
  | [] => Ok []
  | entry :: nodes' =>
      here <- visit process entry ;;
      rest <- collect process nodes' ;;
      Ok (here ++ rest)%list
  end.

(** The child of a group, re-expressed in the group's frame. *)
Definition remap (chx chy ws hs : float) (element : value) : value :=
  spread element
    [ ("left", Num ((to_number (prop element "left") - chx) * ws)%float);
      ("top", Num ((to_number (prop element "top") - chy) * hs)%float);
      ("width", Num (to_number (prop element "width") * ws)%float);
      ("height", Num (to_number (prop element "height") * hs)%float) ].

(** [parseInt(xfrmNode[child]['attrs'][attr]) * RATIO_EMUs_Points] *)
Definition emu_attr (xfrmNode : value) (child attr : string) : result float :=
  attrs <- get (prop xfrmNode child) "attrs" ;;
  a <- get attrs attr ;;
  Ok (parseInt a * RATIO_EMUs_Points)%float.

(** The recursion through nested groups is bounded by [fuel], which a group
    with children consumes. *)
Fixpoint processGroupSpNode (fuel : nat) (node : value) (w : warpObj) (source : value)
  : result value :=
  let xfrmNode := getTextByPathList node ["p:grpSpPr"; "a:xfrm"] in
  if negb (truthy xfrmNode) then Ok Null
  else
    match fuel with
    | O => Throw OutOfFuel
    | S fuel' =>
        x <- emu_attr xfrmNode "a:off" "x" ;;
        y <- emu_attr xfrmNode "a:off" "y" ;;
        chx <- emu_attr xfrmNode "a:chOff" "x" ;;
        chy <- emu_attr xfrmNode "a:chOff" "y" ;;
        cx <- emu_attr xfrmNode "a:ext" "cx" ;;
        cy <- emu_attr xfrmNode "a:ext" "cy" ;;
        chcx <- emu_attr xfrmNode "a:chExt" "cx" ;;
        chcy <- emu_attr xfrmNode "a:chExt" "cy" ;;
        let rot := getTextByPathList xfrmNode ["attrs"; "rot"] in
        let rotate := if truthy rot then angleToDegrees rot else zero in
        let ws := (cx / chcx)%float in
        let hs := (cy / chcy)%float in
        elements <-
          collect (fun nodeKey item =>
                     dispatch (processGroupSpNode fuel') nodeKey item w source)
                  (entries node) ;;
        Ok (Obj [ ("type", Str "group"); ("top", Num y); ("left", Num x);
                  ("width", Num cx); ("height", Num cy); ("rotate", Num rotate);
                  ("elements", Arr (map (remap chx chy ws hs) elements)) ])
    end.

Definition processNodesInSlide (fuel : nat) (nodeKey : string) (nodeValue : value)
           (w : warpObj) (source : value) : result value :=
  dispatch (processGroupSpNode fuel) nodeKey nodeValue w source.

(** The elements of a slide: the loop over [nodes] at the end of
    [processSingleSlide]. *)
Definition slide_elements (fuel : nat) (nodes : value) (w : warpObj)
  : result (list value) :=
  collect (fun nodeKey item => processNodesInSlide fuel nodeKey item w (Str "slide"))
          (entries nodes).

(** [processSingleSlide], from the point where the parts of the slide have
    been read into [warpObj]. *)
Definition processSingleSlide (fuel : nat) (w : warpObj) : result value :=
  sld <- get (slideContent w) "p:sld" ;;
  cSld <- get sld "p:cSld" ;;
  nodes <- get cSld "p:spTree" ;;
  bgColor <- getSlideBackgroundFill w ;;
  elements <- slide_elements fuel nodes w ;;
  Ok (Obj [("fill", bgColor); ("elements", Arr elements)]).

End Slide.

End Pptx.

(* ================================================================= *)
(** * Part 4. The library tinycolor2, as far as the pipeline uses it *)
(* ================================================================= *)

(** The functions below follow the source of tinycolor2 (1.6): the input
    forms read are the hexadecimal ones ([#rgb], [#rgba], [#rrggbb],
    [#rrggbbaa], the [#] optional) and the objects [{h, s, l, a}]; colour
    names and the functional notations ([rgb(...)], [hsl(...)], ...) are not
    modelled and are read as unrecognised input. *)
Module Tinycolor2.

Import JS.

Local Open Scope string_scope.
Local Open Scope float_scope.
#[local] Set Warnings "-inexact-float".

(** [Math.max] and [Math.min] of two numbers *)
Definition Math_max (a b : float) : float :=
  if PrimFloat.is_nan a || PrimFloat.is_nan b then nan
  else if a <? b then b
  else if b <? a then a
  else if PrimFloat.is_zero a && PrimFloat.get_sign a then b else a.

Definition Math_min (a b : float) : float :=
  if PrimFloat.is_nan a || PrimFloat.is_nan b then nan
  else if a <? b then a
  else if b <? a then b
  else if PrimFloat.is_zero a && PrimFloat.get_sign a then a else b.

(** [parseFloat(v)] *)
Definition parseFloat (v : value) : float := parseFloat_string (to_string v).

(** [n % max] for [0 <= n <= max] *)
Definition fmod_within (n max : float) : float :=
  if n =? max then 0 else n.

(** [bound01(n, max)] *)
Definition bound01 (n : value) (max : float) : float :=
  let n := match n with
           | Str s => if contains "." s && (parseFloat_string s =? 1)
                      then Str "100%" else n
           | _ => n
           end in
  let processPercent := match n with
                        | Str s => contains "%" s
                        | _ => false
                        end in
  let x := Math_min max (Math_max 0 (parseFloat n)) in
  let x := if processPercent
           then parseInt (Num (x * max)) / 100
           else x in
  if PrimFloat.abs (x - max) <? 0.000001 then 1
  else fmod_within x max / max.

(** [isValidCSSUnit(v)]: the text of [v] holds a digit *)
Fixpoint has_digit (s : string) : bool :=
  match s with
  | EmptyString => false
  | String c r =>
      match digit_of 10 c with
      | Some _ => true
      | None => has_digit r
      end
  end.

Definition isValidCSSUnit (v : value) : bool := has_digit (to_string v).

(** [convertToPercentage(n)] *)
Definition convertToPercentage (n : value) : value :=
  if to_number n <=? 1 then add (Num (to_number n * 100)) (Str "%") else n.

Definition hue2rgb (p q t : float) : float :=
  let t := if t <? 0 then t + 1 else t in
  let t := if 1 <? t then t - 1 else t in
  if t <? 1 / 6 then p + (q - p) * 6 * t
  else if t <? 1 / 2 then q
  else if t <? 2 / 3 then p + (q - p) * (2 / 3 - t) * 6
  else p.

Definition hslToRgb (h s l : value) : float * float * float :=
  let h := bound01 h 360 in
  let s := bound01 s 100 in
  let l := bound01 l 100 in
  if s =? 0 then (l * 255, l * 255, l * 255)
  else
    let q := if l <? 0.5 then l * (1 + s) else l + s - l * s in
    let p := 2 * l - q in
    (hue2rgb p q (h + 1 / 3) * 255, hue2rgb p q h * 255,
     hue2rgb p q (h - 1 / 3) * 255).

Definition rgbToHsl (r g b : float) : float * float * float :=
  let r := bound01 (Num r) 255 in
  let g := bound01 (Num g) 255 in
  let b := bound01 (Num b) 255 in
  let max := Math_max (Math_max r g) b in
  let min := Math_min (Math_min r g) b in
  let l := (max + min) / 2 in
  if max =? min then (0, 0, l)
  else
    let d := max - min in
    let s := if 0.5 <? l then d / (2 - max - min) else d / (max + min) in
    let h := if max =? r then (g - b) / d + (if g <? b then 6 else 0)
             else if max =? g then (b - r) / d + 2
             else (r - g) / d + 4 in
    (h / 6, s, l).

(** [boundAlpha(a)] *)
Definition boundAlpha (a : value) : float :=
  let a := parseFloat a in
  if PrimFloat.is_nan a || (a <? 0) || (1 <? a) then 1 else a.

(** The channels of a hexadecimal colour text, or nothing. *)
Definition hex_pair (a b : ascii) : option float :=
  match digit_of 16 a, digit_of 16 b with
  | Some x, Some y => Some (Z2float (16 * x + y))
  | _, _ => None
  end.

Definition stringInputToObject (color : string)
  : option (float * float * float * option float) :=
  let color := toLowerCase (trim color) in
  let digits := match color with
                | String "#" r => r
                | _ => color
                end in
  match list_ascii_of_string digits with
  | [r1; r2; g1; g2; b1; b2; a1; a2] =>
      match hex_pair r1 r2, hex_pair g1 g2, hex_pair b1 b2, hex_pair a1 a2 with
      | Some r, Some g, Some b, Some a => Some (r, g, b, Some (a / 255))
      | _, _, _, _ => None
      end
  | [r1; r2; g1; g2; b1; b2] =>
      match hex_pair r1 r2, hex_pair g1 g2, hex_pair b1 b2 with
      | Some r, Some g, Some b => Some (r, g, b, None)
      | _, _, _ => None
      end
  | [r1; g1; b1; a1] =>
      match hex_pair r1 r1, hex_pair g1 g1, hex_pair b1 b1, hex_pair a1 a1 with
      | Some r, Some g, Some b, Some a => Some (r, g, b, Some (a / 255))
      | _, _, _, _ => None
      end
  | [r1; g1; b1] =>
      match hex_pair r1 r1, hex_pair g1 g1, hex_pair b1 b1 with
      | Some r, Some g, Some b => Some (r, g, b, None)
      | _, _, _ => None
      end
  | _ => None
  end.

Definition clamp255 (x : float) : float := Math_min 255 (Math_max x 0).

Definition rgbToRgb (r g b : float) : float * float * float :=
  (bound01 (Num r) 255 * 255, bound01 (Num g) 255 * 255, bound01 (Num b) 255 * 255).

(** [inputToRGB(color)]: the channels [_r], [_g], [_b] and the alpha [_a] *)
Definition inputToRGB (color : value) : float * float * float * float :=
  let '(rgb, a) :=
    match color with
    | Str s =>
        match stringInputToObject s with
        | Some (r, g, b, a) =>
            (rgbToRgb r g b, match a with Some a => Num a | None => Num 1 end)
        | None => ((0, 0, 0), Num 1)
        end
    | Obj fields =>
        let rgb :=
          if isValidCSSUnit (prop color "r") && isValidCSSUnit (prop color "g")
             && isValidCSSUnit (prop color "b")
          then rgbToRgb (to_number (prop color "r")) (to_number (prop color "g"))
                        (to_number (prop color "b"))
          else if isValidCSSUnit (prop color "h") && isValidCSSUnit (prop color "s")
                  && isValidCSSUnit (prop color "l")
          then hslToRgb (prop color "h") (convertToPercentage (prop color "s"))
                        (convertToPercentage (prop color "l"))
          else (0, 0, 0) in
        (rgb, match lookup fields "a" with
              | Undefined => if existsb (fun kv => String.eqb (fst kv) "a") fields
                             then Undefined else Num 1
              | a => a
              end)
    | _ => ((0, 0, 0), Num 1)
    end in
  let '(r, g, b) := rgb in
  (clamp255 r, clamp255 g, clamp255 b, boundAlpha a).

(** [tinycolor(color)]: channels below 1 are rounded. *)
Definition tinycolor (color : value) : float * float * float * float :=
  let '(r, g, b, a) := inputToRGB (if truthy color then color else Str "") in
  let fix1 (x : float) := if x <? 1 then Math_round x else x in
  (fix1 r, fix1 g, fix1 b, a).

Definition hex2 (x : float) : string := Pptx.pad2 2 (toString16 (Math_round x)).

Definition toHsl (color : value) : value :=
  let '(r, g, b, a) := tinycolor color in
  let '(h, s, l) := rgbToHsl r g b in
  Obj [("h", Num (h * 360)); ("s", Num s); ("l", Num l); ("a", Num a)].

Definition toHexString (color : value) : value :=
  let '(r, g, b, _) := tinycolor color in
  Str ("#" ++ hex2 r ++ hex2 g ++ hex2 b).

(** [c = tinycolor(color); c.setAlpha(alpha); c.toHex8()] *)
Definition alpha_toHex8 (color : value) (alpha : float) : value :=
  let '(r, g, b, _) := tinycolor color in
  let a := boundAlpha (Num alpha) in
  Str (hex2 r ++ hex2 g ++ hex2 b ++ Pptx.pad2 2 (toString16 (Math_round (a * 255)))).

End Tinycolor2.

(* ================================================================= *)
(** * Part 5. The parsed XML tree *)
(* ================================================================= *)

Module ReadXml.

Import JS.

Local Open Scope string_scope.

(** An XML element: its name, its attributes, and its child elements in
    document order. *)
#[local] Unset Elimination Schemes.
Inductive xml : Type :=
| Element (name : string) (attrs : list (string * string)) (children : list xml).
#[local] Set Elimination Schemes.

Definition name_of (e : xml) : string :=
  match e with Element name _ _ => name end.

(** The distinct names of a list, in the order of their first occurrence. *)
Fixpoint distinct (l : list string) : list string :=
  match l with
  | [] => []
  | x :: r => x :: filter (fun y => negb (String.eqb y x)) (distinct r)
  end.

Definition scalar_or_array (vs : list value) : value :=
  match vs with
  | [v] => v
  | _ => Arr vs
  end.

(** The children of an element as properties: one property per name, in the
    order of first occurrence, holding the child itself when the name occurs
    once and the array of the children of that name otherwise. *)
Definition collapse (kids : list (string * value)) : list (string * value) :=
  map (fun t => (t, scalar_or_array
                      (map snd (filter (fun kv => String.eqb (fst kv) t) kids))))
      (distinct (map fst kids)).

(** Modelled from the spec: [readXmlFile] of [readXmlFile.js], missing from
    the sources.  "[readXml(zip, path) -> tree]: parses XML, producing a tree
    where elements become [{attrs, child1, child2, ...}]; repeated children
    collapse to arrays, single instances remain scalar." *)
Fixpoint readXml (e : xml) : value :=
  match e with
  | Element _ attrs children =>
      Obj (("attrs", Obj (map (fun kv => (fst kv, Str (snd kv))) attrs))
             :: collapse (map (fun c => (name_of c, readXml c)) children))
  end.

(** The children regrouped by name: names in the order of their first
    occurrence, the children of one name in document order. *)
Definition group_by_tag (children : list xml) : list xml :=
  flat_map (fun t => filter (fun c => String.eqb (name_of c) t) children)
           (distinct (map name_of children)).

End ReadXml.

(* ================================================================= *)
(** * Part 6. Properties of [base64ArrayBuffer] *)
(* ================================================================= *)

Module Base64Facts.

Import Base64.

Local Open Scope string_scope.
Local Open Scope Z_scope.

(** ** Facts about strings and the alphabet *)

Lemma sapp_nil_r (s : string) : s ++ "" = s.
Proof. induction s as [|c s IH]; simpl; [reflexivity | now rewrite IH]. Qed.

Lemma sapp_assoc (s1 s2 s3 : string) : (s1 ++ s2) ++ s3 = s1 ++ (s2 ++ s3).
Proof. induction s1 as [|c s1 IH]; simpl; [reflexivity | now rewrite IH]. Qed.

Lemma slength_app (s1 s2 : string) :
  String.length (s1 ++ s2) = (String.length s1 + String.length s2)%nat.
Proof. induction s1 as [|c s1 IH]; simpl; [reflexivity | now rewrite IH]. Qed.

Lemma no_pad_app (s1 s2 : string) :
  no_pad (s1 ++ s2) = no_pad s1 && no_pad s2.
Proof.
  induction s1 as [|c s1 IH]; simpl; [reflexivity |].
  now rewrite IH, andb_assoc.
Qed.

Lemma val_range (b : Byte.byte) : 0 <= val b < 256.
Proof. unfold val. pose proof (Byte.to_N_bounded b). lia. Qed.

Lemma byte_of_val (b : Byte.byte) : byte_of (val b) = b.
Proof. unfold byte_of, val. now rewrite N2Z.id, Byte.of_to_N. Qed.

(** A property checked on the 64 sextets holds of every sextet. *)
Lemma sextet_cases (P : Z -> bool) :
  forallb (fun n => P (Z.of_nat n)) (seq 0 64) = true ->
  forall v, 0 <= v < 64 -> P v = true.
Proof.
  intros H v Hv. rewrite forallb_forall in H.
  specialize (H (Z.to_nat v)). rewrite Z2Nat.id in H by lia.
  apply H, in_seq. lia.
Qed.

Lemma char_at_rfc (v : Z) : 0 <= v < 64 -> char_at v = str1 (rfc_char v).
Proof.
  intros Hv. apply String.eqb_eq.
  apply (sextet_cases (fun v => String.eqb (char_at v) (str1 (rfc_char v)))); auto.
Qed.

Lemma rfc_value_char (v : Z) : 0 <= v < 64 -> rfc_value (rfc_char v) = Some v.
Proof.
  intros Hv.
  assert (H : (match rfc_value (rfc_char v) with
               | Some w => w =? v | None => false end) = true).
  { apply (sextet_cases (fun v => match rfc_value (rfc_char v) with
                                  | Some w => w =? v | None => false end)); auto. }
  destruct (rfc_value (rfc_char v)); [|discriminate].
  apply Z.eqb_eq in H. now subst.
Qed.

Lemma rfc_char_not_pad (v : Z) : 0 <= v < 64 -> Ascii.eqb (rfc_char v) "=" = false.
Proof.
  intros Hv. apply negb_true_iff.
  apply (sextet_cases (fun v => negb (Ascii.eqb (rfc_char v) "="))); auto.
Qed.

(** ** The masks and shifts of the source, as quotients and remainders *)

Lemma land_low_shiftl (a x k : Z) :
  0 <= k -> 0 <= x < 2 ^ k -> Z.land (Z.shiftl a k) x = 0.
Proof.
  intros Hk Hx.
  rewrite <- (Z.mod_small x (2 ^ k)) by lia.
  rewrite <- Z.land_ones by lia.
  rewrite (Z.land_comm x), Z.land_assoc.
  replace (Z.land (Z.shiftl a k) (Z.ones k)) with 0; [apply Z.land_0_l |].
  rewrite Z.land_ones, Z.shiftl_mul_pow2 by lia.
  now rewrite Z.mod_mul by lia.
Qed.

Lemma lor_shiftl_add (a x k : Z) :
  0 <= k -> 0 <= x < 2 ^ k -> Z.lor (Z.shiftl a k) x = a * 2 ^ k + x.
Proof.
  intros Hk Hx.
  rewrite <- Z.lxor_lor by (apply land_low_shiftl; lia).
  rewrite <- Z.add_nocarry_lxor by (apply land_low_shiftl; lia).
  now rewrite Z.shiftl_mul_pow2 by lia.
Qed.

(** [(x & (m * 2^k)) >> k] for a mask [m = 2^w - 1]. *)
Lemma field_extract (x k w : Z) :
  0 <= k -> 0 <= w ->
  Z.shiftr (Z.land x (Z.shiftl (Z.ones w) k)) k = (x / 2 ^ k) mod 2 ^ w.
Proof.
  intros Hk Hw.
  rewrite Z.shiftr_land, Z.shiftr_shiftl_l by lia.
  rewrite Z.sub_diag, Z.shiftl_0_r, Z.land_ones by lia.
  now rewrite Z.shiftr_div_pow2 by lia.
Qed.

Lemma chunk24 (b0 b1 b2 : Z) :
  0 <= b0 < 256 -> 0 <= b1 < 256 -> 0 <= b2 < 256 ->
  Z.lor (Z.lor (Z.shiftl b0 16) (Z.shiftl b1 8)) b2 = b0 * 65536 + b1 * 256 + b2.
Proof.
  intros H0 H1 H2.
  replace (Z.shiftl b0 16) with (Z.shiftl (Z.shiftl b0 8) 8)
    by (rewrite Z.shiftl_shiftl by lia; reflexivity).
  rewrite <- Z.shiftl_lor.
  rewrite (lor_shiftl_add b0 b1 8) by (change (2 ^ 8) with 256; lia).
  rewrite lor_shiftl_add by (change (2 ^ 8) with 256; lia).
  change (2 ^ 8) with 256. lia.
Qed.

Lemma chunk16 (b0 b1 : Z) :
  0 <= b0 < 256 -> 0 <= b1 < 256 ->
  Z.lor (Z.shiftl b0 8) b1 = b0 * 256 + b1.
Proof.
  intros H0 H1. rewrite lor_shiftl_add by (change (2 ^ 8) with 256; lia).
  reflexivity.
Qed.

Lemma sextets24 (n : Z) :
  0 <= n < 16777216 ->
  Z.shiftr (Z.land n 16515072) 18 = n / 262144 /\
  Z.shiftr (Z.land n 258048) 12 = (n / 4096) mod 64 /\
  Z.shiftr (Z.land n 4032) 6 = (n / 64) mod 64 /\
  Z.land n 63 = n mod 64.
Proof.
  intros Hn. repeat split.
  - change 16515072 with (Z.shiftl (Z.ones 6) 18).
    rewrite field_extract by lia. change (2 ^ 18) with 262144.
    change (2 ^ 6) with 64. apply Z.mod_small.
    Z.div_mod_to_equations; lia.
  - change 258048 with (Z.shiftl (Z.ones 6) 12).
    now rewrite field_extract by lia.
  - change 4032 with (Z.shiftl (Z.ones 6) 6).
    now rewrite field_extract by lia.
  - change 63 with (Z.ones 6). now rewrite Z.land_ones by lia.
Qed.

Lemma sextets8 (n : Z) :
  0 <= n < 256 ->
  Z.shiftr (Z.land n 252) 2 = (n * 16) / 64 /\
  Z.shiftl (Z.land n 3) 4 = (n * 16) mod 64.
Proof.
  intros Hn. split.
  - change 252 with (Z.shiftl (Z.ones 6) 2).
    rewrite field_extract by lia. change (2 ^ 2) with 4. change (2 ^ 6) with 64.
    Z.div_mod_to_equations; lia.
  - change 3 with (Z.ones 2). rewrite Z.land_ones, Z.shiftl_mul_pow2 by lia.
    change (2 ^ 2) with 4. change (2 ^ 4) with 16.
    Z.div_mod_to_equations; lia.
Qed.

Lemma sextets16 (n : Z) :
  0 <= n < 65536 ->
  Z.shiftr (Z.land n 64512) 10 = (n * 4) / 4096 /\
  Z.shiftr (Z.land n 1008) 4 = ((n * 4) / 64) mod 64 /\
  Z.shiftl (Z.land n 15) 2 = (n * 4) mod 64.
Proof.
  intros Hn. repeat split.
  - change 64512 with (Z.shiftl (Z.ones 6) 10).
    rewrite field_extract by lia. change (2 ^ 10) with 1024.
    change (2 ^ 6) with 64. Z.div_mod_to_equations; lia.
  - change 1008 with (Z.shiftl (Z.ones 6) 4).
    rewrite field_extract by lia. change (2 ^ 4) with 16.
    change (2 ^ 6) with 64. Z.div_mod_to_equations; lia.
  - change 15 with (Z.ones 4). rewrite Z.land_ones, Z.shiftl_mul_pow2 by lia.
    change (2 ^ 2) with 4. change (2 ^ 4) with 16.
    Z.div_mod_to_equations; lia.
Qed.

(** ** The loop of the source against the RFC's recursion *)

Lemma list_ind3 {A : Type} (P : list A -> Prop) :
  P [] -> (forall a, P [a]) -> (forall a b, P [a; b]) ->
  (forall a b c l, P l -> P (a :: b :: c :: l)) ->
  forall l, P l.
Proof.
  intros H0 H1 H2 H3. fix IH 1.
  intros [|a [|b [|c l]]]; [exact H0 | apply H1 | apply H2 | apply H3, IH].
Qed.

Lemma byte_at_app (pre rest : list Byte.byte) (k : nat) :
  byte_at (pre ++ rest) (Z.of_nat (List.length pre) + Z.of_nat k) =
  match nth_error rest k with Some b => val b | None => 0 end.
Proof.
  unfold byte_at.
  replace (Z.to_nat (Z.of_nat (List.length pre) + Z.of_nat k))
    with (List.length pre + k)%nat by lia.
  rewrite nth_error_app2 by lia.
  now replace (List.length pre + k - List.length pre)%nat with k by lia.
Qed.

Lemma quad_rfc (pre rest : list Byte.byte) (b0 b1 b2 : Byte.byte) :
  quad (pre ++ b0 :: b1 :: b2 :: rest) (Z.of_nat (List.length pre)) =
  let n := val b0 * 65536 + val b1 * 256 + val b2 in
  str1 (rfc_char (n / 262144)) ++ str1 (rfc_char ((n / 4096) mod 64))
    ++ str1 (rfc_char ((n / 64) mod 64)) ++ str1 (rfc_char (n mod 64)).
Proof.
  unfold quad.
  pose proof (byte_at_app pre (b0 :: b1 :: b2 :: rest) 0) as E0.
  pose proof (byte_at_app pre (b0 :: b1 :: b2 :: rest) 1) as E1.
  pose proof (byte_at_app pre (b0 :: b1 :: b2 :: rest) 2) as E2.
  simpl nth_error in *. rewrite Z.add_0_r in E0.
  change (Z.of_nat 1) with 1 in E1. change (Z.of_nat 2) with 2 in E2.
  rewrite E0, E1, E2.
  pose proof (val_range b0). pose proof (val_range b1). pose proof (val_range b2).
  rewrite chunk24 by assumption.
  set (n := val b0 * 65536 + val b1 * 256 + val b2).
  assert (Hn : 0 <= n < 16777216) by (unfold n; lia).
  destruct (sextets24 n Hn) as (Ea & Eb & Ec & Ed).
  rewrite Ea, Eb, Ec, Ed. cbv zeta.
  rewrite !char_at_rfc by (Z.div_mod_to_equations; lia).
  reflexivity.
Qed.

(** The part of [base64ArrayBuffer] that follows the main loop. *)
Definition finish (bytes : list Byte.byte) (mainLength byteRemainder : Z)
           (base64 : string) : string :=
  if byteRemainder =? 1 then
    let chunk := byte_at bytes mainLength in
    let a := Z.shiftr (Z.land chunk 252) 2 in
    let b := Z.shiftl (Z.land chunk 3) 4 in
    base64 ++ char_at a ++ char_at b ++ "=="
  else if byteRemainder =? 2 then
    let chunk := Z.lor (Z.shiftl (byte_at bytes mainLength) 8)
                       (byte_at bytes (mainLength + 1)) in
    let a := Z.shiftr (Z.land chunk 64512) 10 in
    let b := Z.shiftr (Z.land chunk 1008) 4 in
    let c := Z.shiftl (Z.land chunk 15) 2 in
    base64 ++ char_at a ++ char_at b ++ char_at c ++ "="
  else base64.

Lemma loop_then_finish (rest : list Byte.byte) :
  forall (pre : list Byte.byte) (acc : string) (fuel : nat) (mL r : Z),
    (List.length rest <= fuel)%nat ->
    r = Z.of_nat (List.length rest) mod 3 ->
    mL = Z.of_nat (List.length pre) + Z.of_nat (List.length rest) - r ->
    finish (pre ++ rest) mL r
           (main_loop fuel (pre ++ rest) mL (Z.of_nat (List.length pre)) acc)
    = acc ++ rfc4648_encode rest.
Proof.
  induction rest as [|b0|b0 b1|b0 b1 b2 rest IH] using list_ind3;
    intros pre acc fuel mL r Hfuel Hr HmL.
  - assert (Er : r = 0) by (rewrite Hr; reflexivity). clear Hr. subst r.
    simpl List.length in HmL. unfold finish. simpl.
    rewrite sapp_nil_r.
    destruct fuel; simpl; [reflexivity |].
    now replace (Z.of_nat (List.length pre) <? mL) with false
      by (symmetry; apply Z.ltb_ge; lia).
  - assert (Er : r = 1) by (rewrite Hr; reflexivity). clear Hr. subst r.
    simpl List.length in HmL.
    assert (Eloop : main_loop fuel (pre ++ [b0]) mL (Z.of_nat (List.length pre)) acc = acc).
    { destruct fuel; simpl; [reflexivity |].
      now replace (Z.of_nat (List.length pre) <? mL) with false
        by (symmetry; apply Z.ltb_ge; lia). }
    rewrite Eloop. unfold finish. simpl (1 =? 1). cbv iota.
    replace mL with (Z.of_nat (List.length pre) + Z.of_nat 0) by lia.
    rewrite byte_at_app. simpl nth_error. cbv zeta.
    destruct (sextets8 (val b0) (val_range b0)) as (Ea & Eb).
    rewrite Ea, Eb. pose proof (val_range b0).
    rewrite !char_at_rfc by (Z.div_mod_to_equations; lia).
    reflexivity.
  - assert (Er : r = 2) by (rewrite Hr; reflexivity). clear Hr. subst r.
    simpl List.length in HmL.
    assert (Eloop : main_loop fuel (pre ++ [b0; b1]) mL (Z.of_nat (List.length pre)) acc = acc).
    { destruct fuel; simpl; [reflexivity |].
      now replace (Z.of_nat (List.length pre) <? mL) with false
        by (symmetry; apply Z.ltb_ge; lia). }
    rewrite Eloop. unfold finish. simpl (2 =? 1). simpl (2 =? 2). cbv iota.
    pose proof (byte_at_app pre [b0; b1] 0) as E0.
    pose proof (byte_at_app pre [b0; b1] 1) as E1.
    simpl nth_error in *.
    replace (Z.of_nat (List.length pre) + Z.of_nat 0) with mL in E0 by lia.
    replace (Z.of_nat (List.length pre) + Z.of_nat 1) with (mL + 1) in E1 by lia.
    rewrite E0, E1. cbv zeta.
    pose proof (val_range b0). pose proof (val_range b1).
    rewrite chunk16 by assumption.
    destruct (sextets16 (val b0 * 256 + val b1)) as (Ea & Eb & Ec); [lia |].
    rewrite Ea, Eb, Ec.
    rewrite !char_at_rfc by (Z.div_mod_to_equations; lia).
    reflexivity.
  - destruct fuel as [|fuel]; [simpl in Hfuel; lia |].
    assert (Hr' : r = Z.of_nat (List.length rest) mod 3).
    { rewrite Hr. simpl List.length.
      replace (Z.of_nat (S (S (S (List.length rest)))))
        with (Z.of_nat (List.length rest) + 1 * 3) by lia.
      apply Z.mod_add. lia. }
    simpl main_loop.
    replace (Z.of_nat (List.length pre) <? mL) with true.
    2:{ symmetry. apply Z.ltb_lt. simpl List.length in HmL.
        assert (0 <= r < 3) by (rewrite Hr; apply Z.mod_pos_bound; lia). lia. }
    rewrite quad_rfc.
    replace (pre ++ b0 :: b1 :: b2 :: rest)%list
      with ((pre ++ [b0; b1; b2]) ++ rest)%list by (now rewrite <- app_assoc).
    replace (Z.of_nat (List.length pre) + 3)
      with (Z.of_nat (List.length (pre ++ [b0; b1; b2])%list))
      by (rewrite length_app; simpl; lia).
    rewrite IH.
    + cbv zeta. simpl rfc4648_encode. cbv zeta. now rewrite !sapp_assoc.
    + simpl in Hfuel. lia.
    + exact Hr'.
    + rewrite length_app. simpl List.length in *. lia.
Qed.

Lemma encode_length (bs : list Byte.byte) :
  Z.of_nat (String.length (rfc4648_encode bs))
  = 4 * ((Z.of_nat (List.length bs) + 2) / 3).
Proof.
  induction bs as [|b0|b0 b1|b0 b1 b2 rest IH] using list_ind3;
    try reflexivity.
  simpl rfc4648_encode. cbv zeta. unfold str1. simpl String.length.
  simpl List.length.
  replace (Z.of_nat (S (S (S (List.length rest)))) + 2)
    with (Z.of_nat (List.length rest) + 2 + 1 * 3) by lia.
  rewrite Z.div_add by lia. lia.
Qed.

Lemma base64ArrayBuffer_encode (bs : list Byte.byte) :
  base64ArrayBuffer bs = rfc4648_encode bs.
Proof.
  change (base64ArrayBuffer bs)
    with (finish ([] ++ bs)
            (Z.of_nat (List.length bs) - Z.of_nat (List.length bs) mod 3)
            (Z.of_nat (List.length bs) mod 3)
            (main_loop (List.length bs) ([] ++ bs)
               (Z.of_nat (List.length bs) - Z.of_nat (List.length bs) mod 3)
               (Z.of_nat (List.length (@nil Byte.byte))) "")).
  rewrite loop_then_finish; [reflexivity | lia | reflexivity | simpl; lia].
Qed.

Definition group24 (b0 b1 b2 : Byte.byte) : string :=
  let n := val b0 * 65536 + val b1 * 256 + val b2 in
  str1 (rfc_char (n / 262144)) ++ str1 (rfc_char ((n / 4096) mod 64))
    ++ str1 (rfc_char ((n / 64) mod 64)) ++ str1 (rfc_char (n mod 64)).

Lemma encode_group24 (b0 b1 b2 : Byte.byte) (rest : list Byte.byte) :
  rfc4648_encode (b0 :: b1 :: b2 :: rest) = group24 b0 b1 b2 ++ rfc4648_encode rest.
Proof. reflexivity. Qed.

Lemma no_pad_group24 (b0 b1 b2 : Byte.byte) : no_pad (group24 b0 b1 b2) = true.
Proof.
  pose proof (val_range b0). pose proof (val_range b1). pose proof (val_range b2).
  unfold group24. simpl.
  rewrite !rfc_char_not_pad by (Z.div_mod_to_equations; lia).
  reflexivity.
Qed.

Lemma length_mod3_step {A : Type} (a b c : A) (l : list A) :
  Z.of_nat (List.length (a :: b :: c :: l)) mod 3 = Z.of_nat (List.length l) mod 3.
Proof.
  simpl List.length.
  replace (Z.of_nat (S (S (S (List.length l)))))
    with (Z.of_nat (List.length l) + 1 * 3) by lia.
  apply Z.mod_add. lia.
Qed.

Lemma encode_padding (bs : list Byte.byte) :
  (Z.of_nat (List.length bs) mod 3 = 0 -> no_pad (rfc4648_encode bs) = true) /\
  (Z.of_nat (List.length bs) mod 3 = 1 ->
   exists body, rfc4648_encode bs = body ++ "==" /\ no_pad body = true) /\
  (Z.of_nat (List.length bs) mod 3 = 2 ->
   exists body, rfc4648_encode bs = body ++ "=" /\ no_pad body = true).
Proof.
  induction bs as [|b0|b0 b1|b0 b1 b2 rest IH] using list_ind3.
  - repeat split; intros Hm; try (vm_compute in Hm; discriminate).
  - pose proof (val_range b0).
    repeat split; intros Hm; try (vm_compute in Hm; discriminate).
    exists (str1 (rfc_char (val b0 * 16 / 64)) ++ str1 (rfc_char ((val b0 * 16) mod 64))).
    split; [simpl; reflexivity |].
    simpl. rewrite !rfc_char_not_pad by (Z.div_mod_to_equations; lia).
    reflexivity.
  - pose proof (val_range b0). pose proof (val_range b1).
    repeat split; intros Hm; try (vm_compute in Hm; discriminate).
    set (n := (val b0 * 256 + val b1) * 4).
    exists (str1 (rfc_char (n / 4096)) ++ str1 (rfc_char ((n / 64) mod 64))
              ++ str1 (rfc_char (n mod 64))).
    split; [simpl; reflexivity |].
    simpl. rewrite !rfc_char_not_pad by (unfold n; Z.div_mod_to_equations; lia).
    reflexivity.
  - rewrite length_mod3_step, encode_group24.
    destruct IH as (IH0 & IH1 & IH2).
    pose proof (no_pad_group24 b0 b1 b2) as Hq.
    split; [|split].
    + intros Hz. now rewrite no_pad_app, Hq, IH0.
    + intros Hm. destruct (IH1 Hm) as (body & Eb & Hb).
      exists (group24 b0 b1 b2 ++ body).
      split; [now rewrite Eb, sapp_assoc |].
      now rewrite no_pad_app, Hq, Hb.
    + intros Hm. destruct (IH2 Hm) as (body & Eb & Hb).
      exists (group24 b0 b1 b2 ++ body).
      split; [now rewrite Eb, sapp_assoc |].
      now rewrite no_pad_app, Hq, Hb.
Qed.

Lemma full_group_encode (b0 b1 b2 : Byte.byte) :
  let n := val b0 * 65536 + val b1 * 256 + val b2 in
  full_group (rfc_char (n / 262144)) (rfc_char ((n / 4096) mod 64))
             (rfc_char ((n / 64) mod 64)) (rfc_char (n mod 64))
  = Some [b0; b1; b2].
Proof.
  intros n. unfold full_group.
  pose proof (val_range b0). pose proof (val_range b1). pose proof (val_range b2).
  rewrite !rfc_value_char by (unfold n; Z.div_mod_to_equations; lia).
  cbv zeta.
  replace (n / 262144 * 262144 + (n / 4096) mod 64 * 4096
           + (n / 64) mod 64 * 64 + n mod 64) with n
    by (Z.div_mod_to_equations; lia).
  replace (n / 65536) with (val b0) by (unfold n; Z.div_mod_to_equations; lia).
  replace ((n / 256) mod 256) with (val b1) by (unfold n; Z.div_mod_to_equations; lia).
  replace (n mod 256) with (val b2) by (unfold n; Z.div_mod_to_equations; lia).
  now rewrite !byte_of_val.
Qed.

Lemma decode_chars_cons4 (c0 c1 c2 c3 : ascii) (rest : list ascii) :
  rfc4648_decode_chars (c0 :: c1 :: c2 :: c3 :: rest) =
  match rest with
  | [] => final_group c0 c1 c2 c3
  | _ :: _ =>
      match full_group c0 c1 c2 c3, rfc4648_decode_chars rest with
      | Some g, Some bs => Some (g ++ bs)%list
      | _, _ => None
      end
  end.
Proof. reflexivity. Qed.

Lemma decode_encode (bs : list Byte.byte) :
  rfc4648_decode (rfc4648_encode bs) = Some bs.
Proof.
  unfold rfc4648_decode.
  induction bs as [|b0|b0 b1|b0 b1 b2 rest IH] using list_ind3.
  - reflexivity.
  - pose proof (val_range b0).
    simpl. unfold final_group. simpl.
    rewrite !rfc_value_char by (Z.div_mod_to_equations; lia).
    replace ((val b0 * 16 / 64 * 64 + (val b0 * 16) mod 64) / 16) with (val b0)
      by (Z.div_mod_to_equations; lia).
    now rewrite byte_of_val.
  - pose proof (val_range b0). pose proof (val_range b1).
    simpl. unfold final_group. simpl.
    set (n := (val b0 * 256 + val b1) * 4).
    rewrite rfc_char_not_pad by (unfold n; Z.div_mod_to_equations; lia).
    rewrite !rfc_value_char by (unfold n; Z.div_mod_to_equations; lia).
    cbv zeta.
    replace ((n / 4096 * 4096 + (n / 64) mod 64 * 64 + n mod 64) / 4)
      with (val b0 * 256 + val b1) by (unfold n; Z.div_mod_to_equations; lia).
    replace ((val b0 * 256 + val b1) / 256) with (val b0)
      by (Z.div_mod_to_equations; lia).
    replace ((val b0 * 256 + val b1) mod 256) with (val b1)
      by (Z.div_mod_to_equations; lia).
    now rewrite !byte_of_val.
  - pose proof (val_range b0). pose proof (val_range b1). pose proof (val_range b2).
    pose proof (full_group_encode b0 b1 b2) as Hg. cbv zeta in Hg.
    set (n := val b0 * 65536 + val b1 * 256 + val b2) in *.
    assert (E : list_ascii_of_string (rfc4648_encode (b0 :: b1 :: b2 :: rest))
                = rfc_char (n / 262144) :: rfc_char ((n / 4096) mod 64)
                    :: rfc_char ((n / 64) mod 64) :: rfc_char (n mod 64)
                    :: list_ascii_of_string (rfc4648_encode rest)) by reflexivity.
    rewrite E, decode_chars_cons4.
    destruct (list_ascii_of_string (rfc4648_encode rest)) as [|x L] eqn:EL.
    + assert (rest = []).
      { destruct rest as [|r0 [|r1 [|r2 rest']]]; [reflexivity | | |];
          simpl in EL; discriminate. }
      subst rest. unfold final_group.
      rewrite rfc_char_not_pad by (unfold n; Z.div_mod_to_equations; lia).
      exact Hg.
    + rewrite Hg, IH. reflexivity.
Qed.

(** C10.  For every byte array, [base64ArrayBuffer] returns its RFC 4648
    base64 encoding: the output has [4 * ceil (|b| / 3)] characters, carries
    no padding when [|b| mod 3 = 0], ends in "==" when [|b| mod 3 = 1] and in a
    single "=" when [|b| mod 3 = 2], and decodes back to the input. *)
Theorem base64ArrayBuffer_rfc4648 (b : list Byte.byte) :
  base64ArrayBuffer b = rfc4648_encode b /\
  Z.of_nat (String.length (base64ArrayBuffer b))
    = 4 * ((Z.of_nat (List.length b) + 2) / 3) /\
  (Z.of_nat (List.length b) mod 3 = 0 -> no_pad (base64ArrayBuffer b) = true) /\
  (Z.of_nat (List.length b) mod 3 = 1 ->
   exists body, base64ArrayBuffer b = body ++ "==" /\ no_pad body = true) /\
  (Z.of_nat (List.length b) mod 3 = 2 ->
   exists body, base64ArrayBuffer b = body ++ "=" /\ no_pad body = true) /\
  rfc4648_decode (base64ArrayBuffer b) = Some b.
Proof.
  rewrite base64ArrayBuffer_encode.
  split; [reflexivity |].
  split; [apply encode_length |].
  destruct (encode_padding b) as (P0 & P1 & P2).
  repeat split; auto using decode_encode.
Qed.

Example base64_Man : base64ArrayBuffer [Byte.x4d; Byte.x61; Byte.x6e] = "TWFu".
Proof. reflexivity. Qed.

Example base64_Ma : base64ArrayBuffer [Byte.x4d; Byte.x61] = "TWE=".
Proof. reflexivity. Qed.

Example base64_M : base64ArrayBuffer [Byte.x4d] = "TQ==".
Proof. reflexivity. Qed.

End Base64Facts.

(* ================================================================= *)
(** * Part 7. Properties of the pipeline *)
(* ================================================================= *)

Module Facts.

Import JS Pptx ReadXml.

Local Open Scope string_scope.

(** A concrete choice of the collaborators, for evaluating the embedding on
    examples: tinycolor2 as in Part 4, and helpers that give neutral
    answers. *)
Definition sample_helpers : Helpers := {|
  getSchemeColorFromTheme := fun _ _ _ _ => Ok Undefined;
  applyShade := fun c _ _ => Ok c;
  applyTint := fun c _ _ => Ok c;
  applyLumOff := fun c _ _ => Ok c;
  applyLumMod := fun c _ _ => Ok c;
  applyHueMod := fun c _ _ => Ok c;
  applySatMod := fun c _ _ => Ok c;
  hslToRgb := fun _ _ _ => Ok (Obj [("r", Num 0); ("g", Num 0); ("b", Num 0)]);
  getColorName2Hex := fun _ => Ok Undefined;
  getBorder := fun _ _ _ =>
    Ok (Obj [("borderColor", Str "#000000"); ("borderWidth", Num 0);
             ("borderType", Str "solid"); ("strokeDasharray", Str "0")]);
  genTextBody := fun _ _ _ _ _ => Ok (Str "");
  getShadow := fun _ _ => Ok Undefined;
  getVerticalAlign := fun _ _ _ _ => Ok (Str "mid");
  getCustomShapePath := fun _ _ _ => Ok (Str "");
  genTable := fun _ _ => Ok Undefined;
  genChart := fun _ _ => Ok Undefined;
  genDiagram := fun _ _ => Ok Undefined;
  tinycolor_toHsl := Tinycolor2.toHsl;
  tinycolor_toHexString := Tinycolor2.toHexString;
  tinycolor_alpha_toHex8 := Tinycolor2.alpha_toHex8;
  urlRegex_test := fun _ => false;
  createObjectURL := fun _ _ => "blob:"
|}.

(** A context whose parts are all empty objects and whose archive is empty. *)
Definition empty_warp : warpObj := {|
  zip := fun _ => None;
  slideLayoutContent := Obj [];
  slideLayoutTables := Obj [("idTable", Obj []); ("idxTable", Obj []); ("typeTable", Obj [])];
  slideMasterContent := Obj [];
  slideMasterTables := Obj [("idTable", Obj []); ("idxTable", Obj []); ("typeTable", Obj [])];
  slideContent := Obj [];
  tableStyles := Obj [];
  slideResObj := Obj [];
  slideMasterTextStyles := Undefined;
  layoutResObj := Obj [];
  masterResObj := Obj [];
  themeContent := Obj [];
  themeResObj := Obj [];
  digramFileContent := Obj [];
  diagramResObj := Obj [];
  defaultTextStyle := Undefined
|}.

(** ** The error monad *)

Lemma bind_Ok {A B : Type} (a : A) (k : A -> result B) : bind (Ok a) k = k a.
Proof. reflexivity. Qed.

Lemma bind_assoc {A B C : Type} (c : result A) (k : A -> result B) (k' : B -> result C) :
  bind (bind c k) k' = bind c (fun a => bind (k a) k').
Proof. destruct c; reflexivity. Qed.

Lemma bind_ret {A : Type} (c : result A) : bind c Ok = c.
Proof. destruct c; reflexivity. Qed.


(** ** Building parsed trees *)

Definition attrs (l : list (string * string)) : string * value :=
  ("attrs", Obj (map (fun kv => (fst kv, Str (snd kv))) l)).

Definition with_slide (slide layout master : value) (res : value) : warpObj := {|
  zip := zip empty_warp;
  slideLayoutContent := layout;
  slideLayoutTables := slideLayoutTables empty_warp;
  slideMasterContent := master;
  slideMasterTables := slideMasterTables empty_warp;
  slideContent := slide;
  tableStyles := Obj [];
  slideResObj := res;
  slideMasterTextStyles := Undefined;
  layoutResObj := Obj [];
  masterResObj := Obj [];
  themeContent := Obj [];
  themeResObj := Obj [];
  digramFileContent := Obj [];
  diagramResObj := Obj [];
  defaultTextStyle := Undefined
|}.

(** ** C9: a group without [p:grpSpPr/a:xfrm] *)

Section Traversal.

Context {H : Helpers}.

Lemma collect_app (P : string -> value -> result value) (a b : list (string * value)) :
  collect P (a ++ b) =
  (x <- collect P a ;; y <- collect P b ;; Ok (x ++ y)%list).
Proof.
  induction a as [|e a IH]; simpl.
  - destruct (collect P b); reflexivity.
  - destruct (visit P e) as [here|err]; simpl; [|reflexivity].
    rewrite IH. destruct (collect P a) as [x|err]; simpl; [|reflexivity].
    destruct (collect P b) as [y|err]; simpl; [|reflexivity].
    now rewrite app_assoc.
Qed.

Lemma collect_cons (P : string -> value -> result value) (e : string * value)
      (l : list (string * value)) :
  collect P (e :: l) =
  (here <- visit P e ;; rest <- collect P l ;; Ok (here ++ rest)%list).
Proof. reflexivity. Qed.

Lemma collect_skip (P : string -> value -> result value)
      (pre post : list (string * value)) (e : string * value) :
  visit P e = Ok [] ->
  collect P (pre ++ e :: post) = collect P (pre ++ post).
Proof.
  intros He. rewrite !collect_app. simpl. rewrite He. simpl.
  destruct (collect P pre) as [x|err]; simpl; [|reflexivity].
  destruct (collect P post) as [y|err]; reflexivity.
Qed.

Lemma map_result_app {A B : Type} (f : A -> result B) (a b : list A) :
  map_result f (a ++ b) =
  (x <- map_result f a ;; y <- map_result f b ;; Ok (x ++ y)%list).
Proof.
  induction a as [|e a IH]; simpl.
  - destruct (map_result f b); reflexivity.
  - destruct (f e) as [v|err]; simpl; [|reflexivity].
    rewrite IH. destruct (map_result f a) as [x|err]; simpl; [|reflexivity].
    destruct (map_result f b) as [y|err]; reflexivity.
Qed.

Lemma visit_array_skip (P : string -> value -> result value) (k : string)
      (a b : list value) (node : value) :
  P k node = Ok Null ->
  visit P (k, Arr (a ++ node :: b)) = visit P (k, Arr (a ++ b)).
Proof.
  intros Hn. unfold visit. simpl.
  rewrite !map_result_app. simpl. rewrite Hn. simpl.
  destruct (map_result (P k) a) as [x|err]; simpl; [|reflexivity].
  destruct (map_result (P k) b) as [y|err]; simpl; [|reflexivity].
  now rewrite !filter_app.
Qed.

Lemma group_without_xfrm (fuel : nat) (node : value) (w : warpObj) (source : value) :
  truthy (getTextByPathList node ["p:grpSpPr"; "a:xfrm"]) = false ->
  processGroupSpNode fuel node w source = Ok Null.
Proof.
  intros Hx. destruct fuel; simpl; rewrite Hx; reflexivity.
Qed.

(** C9.  A [p:grpSp] node, or the [mc:Fallback] of an alternate content,
    that lacks [p:grpSpPr/a:xfrm] makes [processGroupSpNode] return [null],
    whatever the recursion budget; the node dispatcher passes the [null] on,
    and the loop of the slide pushes nothing for it, neither when the node
    is the only [p:grpSp] child nor when it is one of several: the slide's
    elements are those of the slide without the node. *)
Theorem group_without_xfrm_is_omitted (fuel : nat) (node : value) (w : warpObj)
        (source : value) :
  truthy (getTextByPathList node ["p:grpSpPr"; "a:xfrm"]) = false ->
  processGroupSpNode fuel node w source = Ok Null /\
  processNodesInSlide fuel "p:grpSp" node w source = Ok Null /\
  (forall outer, getTextByPathList outer ["mc:Fallback"] = node ->
     processNodesInSlide fuel "mc:AlternateContent" outer w source = Ok Null) /\
  (forall pre post, constructor_is_Array node = Ok false ->
     slide_elements fuel (Obj (pre ++ ("p:grpSp", node) :: post)) w
     = slide_elements fuel (Obj (pre ++ post)) w) /\
  (forall pre post a b,
     slide_elements fuel (Obj (pre ++ ("p:grpSp", Arr (a ++ node :: b)) :: post)) w
     = slide_elements fuel (Obj (pre ++ ("p:grpSp", Arr (a ++ b)) :: post)) w).
Proof.
  intros Hx.
  assert (Hg : forall src, processGroupSpNode fuel node w src = Ok Null)
    by (intros src; now apply group_without_xfrm).
  repeat split.
  - apply Hg.
  - apply Hg.
  - intros outer <-. unfold processNodesInSlide, dispatch. simpl. apply Hg.
  - intros pre post Harr. unfold slide_elements. simpl entries.
    apply collect_skip. unfold visit. rewrite Harr. simpl.
    unfold processNodesInSlide, dispatch. simpl. now rewrite Hg.
  - intros pre post a b. unfold slide_elements. simpl entries.
    rewrite !collect_app, !collect_cons.
    rewrite (visit_array_skip _ "p:grpSp" a b node); [reflexivity |].
    unfold processNodesInSlide, dispatch. simpl. apply Hg.
Qed.

End Traversal.

Definition group_without_xfrm_node : value :=
  Obj [("p:nvGrpSpPr", Obj []); ("p:grpSpPr", Obj []);
       ("p:grpSp", Obj [("p:grpSpPr", Obj [("a:xfrm", Obj [])])])].

Lemma group_without_xfrm_is_omitted_witness :
  truthy (getTextByPathList group_without_xfrm_node ["p:grpSpPr"; "a:xfrm"]) = false /\
  processGroupSpNode (H := sample_helpers) 3 group_without_xfrm_node empty_warp (Str "slide")
  = Ok Null.
Proof.
  split; [reflexivity |].
  apply (group_without_xfrm_is_omitted (H := sample_helpers) 3 group_without_xfrm_node
           empty_warp (Str "slide")).
  reflexivity.
Defined.


(** ** C8: a relationship id that resolves nowhere *)

Definition xfrm_of (x y cx cy : string) : value :=
  Obj [ ("a:off", Obj [attrs [("x", x); ("y", y)]]);
        ("a:ext", Obj [attrs [("cx", cx); ("cy", cy)]]) ].

(** A picture whose [r:embed] is [rId9]. *)
Definition dangling_pic : value :=
  Obj [ ("p:nvPicPr", Obj [("p:nvPr", Obj [])]);
        ("p:blipFill", Obj [("a:blip", Obj [attrs [("r:embed", "rId9")]])]);
        ("p:spPr", Obj [("a:xfrm", xfrm_of "0" "0" "914400" "914400")]) ].

Definition slide_of (spTree : value) : value :=
  Obj [("p:sld", Obj [("p:cSld", Obj [("p:spTree", spTree)])])].

(** A slide holding that picture, whose relationships do not define [rId9]. *)
Definition dangling_slide : warpObj :=
  with_slide (slide_of (Obj [("p:pic", dangling_pic)])) (Obj []) (Obj []) (Obj []).

(** A video picture: [r:embed] resolves to an image of the archive, and the
    [r:link] of [a:videoFile] is [rId8], which resolves nowhere. *)
Definition dangling_video : value :=
  Obj [ ("p:nvPicPr",
         Obj [("p:nvPr", Obj [("a:videoFile", Obj [attrs [("r:link", "rId8")]])])]);
        ("p:blipFill", Obj [("a:blip", Obj [attrs [("r:embed", "rId1")]])]);
        ("p:spPr", Obj [("a:xfrm", xfrm_of "0" "0" "914400" "914400")]) ].

Definition video_slide : warpObj := {|
  zip := fun path => if String.eqb path "ppt/media/image1.png"
                     then Some [Byte.x89; Byte.x50; Byte.x4e] else None;
  slideLayoutContent := Obj [];
  slideLayoutTables := slideLayoutTables empty_warp;
  slideMasterContent := Obj [];
  slideMasterTables := slideMasterTables empty_warp;
  slideContent := slide_of (Obj [("p:pic", dangling_video)]);
  tableStyles := Obj [];
  slideResObj :=
    Obj [("rId1", Obj [("type", Str "image"); ("target", Str "ppt/media/image1.png")])];
  slideMasterTextStyles := Undefined;
  layoutResObj := Obj [];
  masterResObj := Obj [];
  themeContent := Obj [];
  themeResObj := Obj [];
  digramFileContent := Obj [];
  diagramResObj := Obj [];
  defaultTextStyle := Undefined
|}.

Definition reading_target_of_undefined : error :=
  TypeError "Cannot read properties of undefined (reading 'target')".

(** C8 (the code departs from the claim).  With an [r:embed] that the
    relationships of the slide do not define, [processPicNode] throws a
    [TypeError] ([resObj[rid]] is [undefined] and its [target] is read), and
    the error leaves [processSingleSlide]: no placeholder is produced.  The
    same holds of a dangling [r:link].  [getPicFill], on the same dangling
    id, reads the relationship through [getTextByPathList] and returns
    [undefined] without throwing. *)
Theorem processPicNode_dangling_rid_throws (H : Helpers) :
  processPicNode dangling_pic dangling_slide (Str "slide")
    = Throw reading_target_of_undefined /\
  processSingleSlide 1 dangling_slide = Throw reading_target_of_undefined /\
  processPicNode dangling_video video_slide (Str "slide")
    = Throw reading_target_of_undefined /\
  processSingleSlide 1 video_slide = Throw reading_target_of_undefined /\
  getPicFill (Str "slide") (prop dangling_pic "p:blipFill") dangling_slide
    = Ok Undefined.
Proof. repeat split; reflexivity. Qed.

(** The picture of [video_slide] without its video file is converted. *)
Example processPicNode_resolved (H : Helpers) :
  processPicNode
    (Obj [ ("p:nvPicPr", Obj [("p:nvPr", Obj [])]);
           ("p:blipFill", Obj [("a:blip", Obj [attrs [("r:embed", "rId1")]])]);
           ("p:spPr", Obj [("a:xfrm", xfrm_of "0" "0" "914400" "914400")]) ])
    video_slide (Str "slide")
  = Ok (Obj [ ("type", Str "image"); ("top", Num 0); ("left", Num 0);
              ("width", Num 72); ("height", Num 72); ("rotate", Num 0);
              ("src", Str "data:image/png;base64,iVBO");
              ("isFlipV", Bool false); ("isFlipH", Bool false) ]).
Proof. reflexivity. Qed.

(** ** C2: the background of the master *)

Definition bg_solid (hex : string) : string * value :=
  ("p:bg",
   Obj [("p:bgPr",
         Obj [("a:solidFill", Obj [("a:srgbClr", Obj [attrs [("val", hex)]])])])]).

Definition master_with_black_bg : value :=
  Obj [("p:sldMaster",
        Obj [ ("p:cSld", Obj [bg_solid "000000"]);
              ("p:clrMap", Obj [attrs [("bg1", "lt1"); ("tx1", "dk1")]]) ])].

Definition master_without_bg : value :=
  Obj [("p:sldMaster",
        Obj [ ("p:cSld", Obj []);
              ("p:clrMap", Obj [attrs [("bg1", "lt1"); ("tx1", "dk1")]]) ])].

Definition layout_without_bg : value :=
  Obj [("p:sldLayout", Obj [("p:cSld", Obj [])])].

(** The slide and the layout carry no [p:bg]; the master carries a solid
    black background. *)
Definition slide_over_black_master : warpObj :=
  with_slide (slide_of (Obj [])) layout_without_bg master_with_black_bg (Obj []).

(** The same background on the slide itself. *)
Definition slide_with_black_bg : warpObj :=
  with_slide
    (Obj [("p:sld", Obj [("p:cSld", Obj [bg_solid "000000"; ("p:spTree", Obj [])])])])
    layout_without_bg master_without_bg (Obj []).

Definition white : value := Obj [("type", Str "color"); ("value", Str "#fff")].

Section Background.

Context {H : Helpers}.

(** Without [p:bgPr] on the slide, the result is the default, whatever the
    layout and the master hold. *)
Lemma background_without_slide_bgPr (w : warpObj) :
  truthy (getTextByPathList (slideContent w) ["p:sld"; "p:cSld"; "p:bg"; "p:bgPr"])
    = false ->
  getSlideBackgroundFill w = Ok white.
Proof.
  intros Hb. unfold getSlideBackgroundFill. rewrite Hb.
  destruct (truthy (getTextByPathList (slideContent w)
                      ["p:sld"; "p:cSld"; "p:bg"; "p:bgRef"])); [reflexivity |].
  destruct (negb _ && negb _); reflexivity.
Qed.

(** C2 (the code departs from the claim).  For a slide and a layout without
    [p:bg] and a master with a solid black background,
    [getSlideBackgroundFill] returns the default [{type: 'color', value:
    '#fff'}]: the master's [p:bgPr] is read and not used.  The same
    background placed on the slide resolves to ['#000000'], and a master
    without background gives ['#fff']. *)
Theorem background_of_master_is_not_resolved :
  getSlideBackgroundFill slide_over_black_master = Ok white /\
  getSlideBackgroundFill slide_with_black_bg
    = Ok (Obj [("type", Str "color"); ("value", Str "#000000")]) /\
  getSlideBackgroundFill
    (with_slide (slide_of (Obj [])) layout_without_bg master_without_bg (Obj []))
    = Ok white.
Proof. repeat split; reflexivity. Qed.

End Background.

(** ** C3: the colour strings of [getSolidFill] *)

Definition is_hex_digit (c : ascii) : bool :=
  match digit_of 16 c with Some _ => true | None => false end.

(** [/^#[0-9A-Fa-f]{6}([0-9A-Fa-f]{2})?$/], or one of the sentinels [''] and
    ['none'] *)
Definition color_string_ok (s : string) : bool :=
  String.eqb s "" || String.eqb s "none" ||
  match s with
  | String "#" r =>
      let l := list_ascii_of_string r in
      (Nat.eqb (List.length l) 6 || Nat.eqb (List.length l) 8) && forallb is_hex_digit l
  | _ => false
  end.

(** [a:scrgbClr] with [r="50%"], [g="0%"], [b="0%"] *)
Definition half_red : value :=
  Obj [("a:scrgbClr", Obj [attrs [("r", "50%"); ("g", "0%"); ("b", "0%")]])].

(** C3 (the code departs from the claim).  [toHex] documents a two-digit
    hexadecimal string, and gives the fraction digits of a number that is not
    an integer: for [a:scrgbClr] with [r="50%"] the red channel is
    [255 * 0.5 = 127.5], printed ["7f.8"], and [getSolidFill] returns
    ["#7f.80000"], which is neither of the form [#RRGGBB] or [#RRGGBBAA] nor a
    sentinel.  With whole channels ([r="100%"], [b="20%"]) the string is
    well formed. *)
Theorem getSolidFill_scrgbClr_fraction (H : Helpers) (clrMap phClr : value) (w : warpObj) :
  toHex (Num 127.5%float) = Ok "7f.8" /\
  getSolidFill half_red clrMap phClr w = Ok (Str "#7f.80000") /\
  color_string_ok "#7f.80000" = false /\
  getSolidFill
    (Obj [("a:scrgbClr", Obj [attrs [("r", "100%"); ("g", "0%"); ("b", "20%")]])])
    clrMap phClr w = Ok (Str "#ff0033") /\
  color_string_ok "#ff0033" = true.
Proof. repeat split; reflexivity. Qed.

(** ** C4: the order of gradient stops *)

Definition gs (pos : option string) (hex : string) : value :=
  Obj [ attrs (match pos with Some p => [("pos", p)] | None => [] end);
        ("a:srgbClr", Obj [attrs [("val", hex)]]) ].

Definition gradient (stops : list value) (lin : list (string * value)) : value :=
  Obj [("a:gradFill", Obj (("a:gsLst", Obj [("a:gs", Arr stops)]) :: lin))].

Definition stop (pos hex : string) : value :=
  Obj [("pos", Str pos); ("color", Str hex)].

(** C4 (the code departs from the claim).  The comparison
    [parseInt(a.pos) - parseInt(b.pos)] is NaN as soon as one position is the
    empty string, which the sort takes as "equal": with the stops at
    [100000], at no position, and at [0], the colours are emitted in document
    order, the stop at 100% before the stop at 0%.  Positions are compared by
    their whole percents only: [50900] and [50500] stay in document order,
    50.9% before 50.5%.  Two stops with whole-percent positions are sorted. *)
Theorem getBgGradientFill_unsorted (H : Helpers) (w : warpObj) :
  getBgGradientFill
    (gradient [gs (Some "100000") "000000"; gs None "888888"; gs (Some "0") "FFFFFF"] [])
    Undefined master_without_bg w
  = Ok (Obj [ ("rot", Num 90);
              ("colors", Arr [ stop "100%" "#000000"; stop "" "#888888";
                               stop "0%" "#FFFFFF" ]) ]) /\
  getBgGradientFill
    (gradient [gs (Some "50900") "000000"; gs (Some "50500") "FFFFFF"] [])
    Undefined master_without_bg w
  = Ok (Obj [ ("rot", Num 90);
              ("colors", Arr [stop "50.9%" "#000000"; stop "50.5%" "#FFFFFF"]) ]) /\
  getBgGradientFill
    (gradient [gs (Some "100000") "000000"; gs (Some "0") "FFFFFF"]
              [("a:lin", Obj [attrs [("ang", "5400000")]])])
    Undefined master_without_bg w
  = Ok (Obj [ ("rot", Num 180);
              ("colors", Arr [stop "0%" "#FFFFFF"; stop "100%" "#000000"]) ]).
Proof. repeat split; reflexivity. Qed.


(** ** Three facts of binary64 arithmetic *)

Local Open Scope float_scope.

Definition finite_nonzero (x : float) : bool :=
  match Prim2SF x with
  | S754_finite _ _ _ => true
  | _ => false
  end.

Lemma float_sub_zero (y : float) : y - 0 = y.
Proof.
  apply Prim2SF_inj. rewrite sub_spec.
  change (Prim2SF 0) with (S754_zero false).
  unfold SF64sub, SFsub.
  destruct (Prim2SF y) as [s | s | | s m e]; try destruct s; reflexivity.
Qed.

Lemma div_eucl_exact (a b : Z) : (b <> 0)%Z -> Z.div_eucl (a * b) b = (a, 0%Z).
Proof.
  intros Hb.
  pose proof (Z.div_mul a b Hb) as Hq. pose proof (Z.mod_mul a b Hb) as Hr.
  unfold Z.div, Z.modulo in Hq, Hr.
  destruct (Z.div_eucl (a * b) b) as [q r]. simpl in Hq, Hr. now subst.
Qed.

Lemma float_div_same (x : float) : finite_nonzero x = true -> x / x = 1.
Proof.
  unfold finite_nonzero. intros Hx.
  apply Prim2SF_inj. rewrite div_spec.
  destruct (Prim2SF x) as [s | s | | s m e]; try discriminate.
  unfold SF64div, SFdiv, SFdiv_core_binary.
  rewrite !Z.sub_diag.
  change (fexp prec emax 0) with (-53)%Z.
  change (Z.min (-53) 0) with (-53)%Z.
  change (0 - -53)%Z with 53%Z.
  cbv zeta. cbv iota.
  change (IntDef.Z.shiftl (Z.pos m) 53) with (Z.shiftl (Z.pos m) 53).
  rewrite Z.shiftl_mul_pow2 by discriminate.
  rewrite (Z.mul_comm (Z.pos m)).
  change (IntDef.Z.div_eucl) with Z.div_eucl.
  rewrite div_eucl_exact by discriminate.
  rewrite xorb_nilpotent.
  assert (Hl : new_location (Z.pos m) 0 = loc_Exact).
  { unfold new_location. destruct (Z.even (Z.pos m)); reflexivity. }
  rewrite Hl. reflexivity.
Qed.

Lemma digits2_pos_shift52 (m : positive) :
  Z.pos (digits2_pos (4503599627370496 * m)) = (Z.pos (digits2_pos m) + 52)%Z.
Proof.
  cbn [Pos.mul]. cbn [digits2_pos]. rewrite !Pos2Z.inj_succ. lia.
Qed.

Lemma float_mul_one (y : float) : y * 1 = y.
Proof.
  apply Prim2SF_inj. rewrite mul_spec.
  pose proof (Prim2SF_valid y) as Hv.
  change (Prim2SF 1) with (S754_finite false 4503599627370496 (-52)).
  unfold SF64mul, SFmul.
  destruct (Prim2SF y) as [s | s | | s m e];
    try (now rewrite xorb_false_r); try reflexivity.
  rewrite xorb_false_r.
  unfold valid_binary, bounded, canonical_mantissa in Hv.
  apply andb_prop in Hv. destruct Hv as [Hc He].
  apply Z.eqb_eq in Hc.
  unfold binary_round_aux, shr_fexp.
  rewrite Pos.mul_comm.
  change (Zdigits2 (Z.pos (4503599627370496 * m)))
    with (Z.pos (digits2_pos (4503599627370496 * m))).
  rewrite digits2_pos_shift52.
  replace (Z.pos (digits2_pos m) + 52 + (e + -52))%Z
    with (Z.pos (digits2_pos m) + e)%Z by lia.
  rewrite Hc.
  replace (e - (e + -52))%Z with 52%Z by lia.
  assert (Hs : shr (shr_record_of_loc (Z.pos (4503599627370496 * m)) loc_Exact)
                   (e + -52) 52
               = ({| shr_m := Z.pos m; shr_r := false; shr_s := false |},
                  (e + -52 + 52)%Z)).
  { cbn [Pos.mul]. reflexivity. }
  rewrite Hs. cbv iota beta.
  cbn [shr_m loc_of_shr_record round_nearest_even].
  replace (e + -52 + 52)%Z with e by lia.
  change (Zdigits2 (Z.pos m)) with (Z.pos (digits2_pos m)).
  rewrite Hc, Z.sub_diag. cbn [shr shr_record_of_loc shr_m].
  now rewrite He.
Qed.

Local Close Scope float_scope.

(** ** Object update *)

Lemma lookup_set_field_same (fields : list (string * value)) (k : string) (v : value) :
  lookup (set_field fields k v) k = v.
Proof.
  induction fields as [|[k' v'] r IH]; simpl.
  - now rewrite String.eqb_refl.
  - destruct (String.eqb k' k) eqn:E; simpl.
    + now rewrite String.eqb_refl.
    + now rewrite E.
Qed.

Lemma lookup_set_field_other (fields : list (string * value)) (k k' : string) (v : value) :
  k' <> k -> lookup (set_field fields k v) k' = lookup fields k'.
Proof.
  intros Hk. induction fields as [|[k0 v0] r IH]; simpl.
  - destruct (String.eqb k k') eqn:E; [apply String.eqb_eq in E; congruence | reflexivity].
  - destruct (String.eqb k0 k) eqn:E; simpl.
    + apply String.eqb_eq in E. subst k0.
      destruct (String.eqb k k') eqn:E'; [apply String.eqb_eq in E'; congruence | reflexivity].
    + destruct (String.eqb k0 k'); [reflexivity | exact IH].
Qed.

Lemma set_field_present (fields : list (string * value)) (k : string) (n : float) :
  lookup fields k = Num n -> set_field fields k (Num n) = fields.
Proof.
  induction fields as [|[k' v'] r IH]; simpl; [discriminate |].
  destruct (String.eqb k' k) eqn:E.
  - apply String.eqb_eq in E. now intros ->; subst.
  - intros Hl. now rewrite IH.
Qed.


(** ** C5 and C7: the coordinates of the children of a group *)

(** The eight numbers read from [a:xfrm], in the order of the source. *)
Record frame : Type := {
  off_x : float; off_y : float;
  chOff_x : float; chOff_y : float;
  ext_cx : float; ext_cy : float;
  chExt_cx : float; chExt_cy : float
}.

Definition frame_of (xfrmNode : value) : result frame :=
  x <- emu_attr xfrmNode "a:off" "x" ;;
  y <- emu_attr xfrmNode "a:off" "y" ;;
  chx <- emu_attr xfrmNode "a:chOff" "x" ;;
  chy <- emu_attr xfrmNode "a:chOff" "y" ;;
  cx <- emu_attr xfrmNode "a:ext" "cx" ;;
  cy <- emu_attr xfrmNode "a:ext" "cy" ;;
  chcx <- emu_attr xfrmNode "a:chExt" "cx" ;;
  chcy <- emu_attr xfrmNode "a:chExt" "cy" ;;
  Ok {| off_x := x; off_y := y; chOff_x := chx; chOff_y := chy;
        ext_cx := cx; ext_cy := cy; chExt_cx := chcx; chExt_cy := chcy |}.

(** The record of a group, given its frame and its emitted children. *)
Definition group_record (fr : frame) (xfrmNode : value) (children : list value) : value :=
  let rot := getTextByPathList xfrmNode ["attrs"; "rot"] in
  Obj [ ("type", Str "group"); ("top", Num (off_y fr)); ("left", Num (off_x fr));
        ("width", Num (ext_cx fr)); ("height", Num (ext_cy fr));
        ("rotate", Num (if truthy rot then angleToDegrees rot else zero));
        ("elements", Arr children) ].

(** A group element built from its coordinates in EMU. *)
Definition group_xml (x y cx cy chx chy chcx chcy : string) (children : list (string * value))
  : value :=
  Obj (("p:nvGrpSpPr", Obj [])
         :: ("p:grpSpPr",
             Obj [("a:xfrm",
                   Obj [ ("a:off", Obj [attrs [("x", x); ("y", y)]]);
                         ("a:ext", Obj [attrs [("cx", cx); ("cy", cy)]]);
                         ("a:chOff", Obj [attrs [("x", chx); ("y", chy)]]);
                         ("a:chExt", Obj [attrs [("cx", chcx); ("cy", chcy)]]) ])])
         :: children).

(** A childless group at [(x, y)] of size [(cx, cy)]. *)
Definition leaf_group (x y cx cy : string) : value :=
  group_xml x y cx cy "0" "0" cx cy [].

(** The group of the scenario: [off = (0,0)], [ext = (2000,1000)],
    [chOff = (0,0)], [chExt = (1000,500)], and one child which resolves to
    the position (500, 250) and the size (100, 100) in points. *)
Definition scaled_group : value :=
  group_xml "0" "0" "2000" "1000" "0" "0" "1000" "500"
            [("p:grpSp", leaf_group "6350000" "3175000" "1270000" "1270000")].

Definition group_element (left top width height : float) (children : list value) : value :=
  Obj [ ("type", Str "group"); ("top", Num top); ("left", Num left);
        ("width", Num width); ("height", Num height); ("rotate", Num 0);
        ("elements", Arr children) ].

Section Groups.

Context {H : Helpers}.

Local Open Scope float_scope.

Lemma processGroupSpNode_step (fuel : nat) (node : value) (w : warpObj) (source : value) :
  let xfrmNode := getTextByPathList node ["p:grpSpPr"; "a:xfrm"] in
  truthy xfrmNode = true ->
  processGroupSpNode (S fuel) node w source =
  (fr <- frame_of xfrmNode ;;
   elements <- collect (fun nodeKey item => processNodesInSlide fuel nodeKey item w source)
                       (entries node) ;;
   Ok (group_record fr xfrmNode
         (map (remap (chOff_x fr) (chOff_y fr)
                     (ext_cx fr / chExt_cx fr) (ext_cy fr / chExt_cy fr))
              elements))).
Proof.
  intros xfrmNode Hx. cbn [processGroupSpNode]. fold xfrmNode. rewrite Hx.
  cbn [negb]. unfold frame_of.
  repeat match goal with
         | |- context [emu_attr ?a ?b ?c] =>
             destruct (emu_attr a b c); [cbn [bind] | reflexivity]
         end.
  reflexivity.
Qed.

Lemma remap_fields (chx chy ws hs : float) (fields : list (string * value)) :
  let element := Obj fields in
  let emitted := remap chx chy ws hs element in
  prop emitted "left" = Num ((to_number (prop element "left") - chx) * ws) /\
  prop emitted "top" = Num ((to_number (prop element "top") - chy) * hs) /\
  prop emitted "width" = Num (to_number (prop element "width") * ws) /\
  prop emitted "height" = Num (to_number (prop element "height") * hs) /\
  (forall k, k <> "left"%string -> k <> "top"%string -> k <> "width"%string ->
             k <> "height"%string -> prop emitted k = prop element k).
Proof.
  cbv zeta. unfold remap, spread. cbn [entries fold_left fst snd prop].
  repeat split.
  - rewrite !lookup_set_field_other by discriminate. apply lookup_set_field_same.
  - rewrite !lookup_set_field_other by discriminate. apply lookup_set_field_same.
  - rewrite !lookup_set_field_other by discriminate. apply lookup_set_field_same.
  - apply lookup_set_field_same.
  - intros k H1 H2 H3 H4. now rewrite !lookup_set_field_other by assumption.
Qed.

(** C5.  For a group with [a:xfrm], [processGroupSpNode] emits each child
    element with [left], [top], [width] and [height] replaced by
    [(left - chx) * sx], [(top - chy) * sy], [width * sx], [height * sy], where
    [sx = cx / chcx] and [sy = cy / chcy], and with every other property of
    the child ([rotate], [fillColor], colours, ...) as it was.  For
    [off = (0,0)], [ext = (2000,1000)], [chOff = (0,0)], [chExt = (1000,500)]
    and a child resolved at (500, 250) with size (100, 100), the emitted
    child has left 1000, top 500, width 200 and height 200. *)
Theorem group_children_are_remapped (fuel : nat) (node : value) (w : warpObj)
        (source : value) (fr : frame) :
  let xfrmNode := getTextByPathList node ["p:grpSpPr"; "a:xfrm"] in
  truthy xfrmNode = true ->
  frame_of xfrmNode = Ok fr ->
  let chx := chOff_x fr in
  let chy := chOff_y fr in
  let sx := ext_cx fr / chExt_cx fr in
  let sy := ext_cy fr / chExt_cy fr in
  processGroupSpNode (S fuel) node w source =
    (elements <- collect (fun nodeKey item => processNodesInSlide fuel nodeKey item w source)
                         (entries node) ;;
     Ok (group_record fr xfrmNode (map (remap chx chy sx sy) elements))) /\
  (forall fields,
     let element := Obj fields in
     let emitted := remap chx chy sx sy element in
     prop emitted "left" = Num ((to_number (prop element "left") - chx) * sx) /\
     prop emitted "top" = Num ((to_number (prop element "top") - chy) * sy) /\
     prop emitted "width" = Num (to_number (prop element "width") * sx) /\
     prop emitted "height" = Num (to_number (prop element "height") * sy) /\
     (forall k, k <> "left"%string -> k <> "top"%string -> k <> "width"%string ->
                k <> "height"%string -> prop emitted k = prop element k)) /\
  processNodesInSlide 1 "p:grpSp"
    (leaf_group "6350000" "3175000" "1270000" "1270000") w source
    = Ok (group_element 500 250 100 100 []) /\
  processGroupSpNode 2 scaled_group w source
    = Ok (group_element 0 0 (2000 * RATIO_EMUs_Points) (1000 * RATIO_EMUs_Points)
            [group_element 1000 500 200 200 []]).
Proof.
  intros xfrmNode Hx Hfr chx chy sx sy. repeat split.
  - rewrite processGroupSpNode_step by exact Hx. fold xfrmNode. now rewrite Hfr.
  - apply remap_fields.
  - apply remap_fields.
  - apply remap_fields.
  - apply remap_fields.
  - apply remap_fields.
Qed.

(** ** C7 *)

(** The child of a group whose child extent is its own extent. *)
Definition shift (chx chy : float) (element : value) : value :=
  spread element
    [ ("left", Num (to_number (prop element "left") - chx));
      ("top", Num (to_number (prop element "top") - chy));
      ("width", Num (to_number (prop element "width")));
      ("height", Num (to_number (prop element "height"))) ].

(** An element whose four coordinates are numbers. *)
Definition numeric_box (element : value) : Prop :=
  exists fields l t w h,
    element = Obj fields /\
    lookup fields "left" = Num l /\ lookup fields "top" = Num t /\
    lookup fields "width" = Num w /\ lookup fields "height" = Num h.

Lemma remap_unit_scale (chx chy : float) (element : value) :
  remap chx chy 1 1 element = shift chx chy element.
Proof. unfold remap, shift. now rewrite !float_mul_one. Qed.

Lemma shift_zero (element : value) :
  numeric_box element -> shift 0 0 element = element.
Proof.
  intros (fields & l & t & w & h & -> & Hl & Ht & Hw & Hh).
  unfold shift, spread. cbn [entries prop fold_left fst snd].
  rewrite Hl, Ht, Hw, Hh. cbn [to_number]. rewrite !float_sub_zero.
  rewrite (set_field_present fields "left" l Hl).
  rewrite (set_field_present fields "top" t Ht).
  rewrite (set_field_present fields "width" w Hw).
  now rewrite (set_field_present fields "height" h Hh).
Qed.

Lemma shift_fields (chx chy : float) (fields : list (string * value)) :
  let element := Obj fields in
  let emitted := shift chx chy element in
  prop emitted "left" = Num (to_number (prop element "left") - chx) /\
  prop emitted "top" = Num (to_number (prop element "top") - chy) /\
  prop emitted "width" = Num (to_number (prop element "width")) /\
  prop emitted "height" = Num (to_number (prop element "height")) /\
  (forall k, k <> "left"%string -> k <> "top"%string -> k <> "width"%string ->
             k <> "height"%string -> prop emitted k = prop element k).
Proof.
  cbv zeta. unfold shift, spread. cbn [entries fold_left fst snd prop].
  repeat split.
  - rewrite !lookup_set_field_other by discriminate. apply lookup_set_field_same.
  - rewrite !lookup_set_field_other by discriminate. apply lookup_set_field_same.
  - rewrite !lookup_set_field_other by discriminate. apply lookup_set_field_same.
  - apply lookup_set_field_same.
  - intros k H1 H2 H3 H4. now rewrite !lookup_set_field_other by assumption.
Qed.

(** C7, amended.  For a group whose child extent equals its extent (both
    finite and not zero), the scales are 1: each child is emitted with its
    [width] and [height] as they are and with [left - chx] and [top - chy]
    for [left] and [top], every other property unchanged.  The children are
    emitted unchanged when moreover [chOff = (0,0)] (and their coordinates
    are numbers); [chOff = off] alone does not make the transform the
    identity. *)
Theorem group_with_own_extent_shifts_children (fuel : nat) (node : value) (w : warpObj)
        (source : value) (fr : frame) :
  let xfrmNode := getTextByPathList node ["p:grpSpPr"; "a:xfrm"] in
  truthy xfrmNode = true ->
  frame_of xfrmNode = Ok fr ->
  chExt_cx fr = ext_cx fr ->
  chExt_cy fr = ext_cy fr ->
  finite_nonzero (ext_cx fr) = true ->
  finite_nonzero (ext_cy fr) = true ->
  let chx := chOff_x fr in
  let chy := chOff_y fr in
  processGroupSpNode (S fuel) node w source =
    (elements <- collect (fun nodeKey item => processNodesInSlide fuel nodeKey item w source)
                         (entries node) ;;
     Ok (group_record fr xfrmNode (map (shift chx chy) elements))) /\
  (forall fields,
     let element := Obj fields in
     let emitted := shift chx chy element in
     prop emitted "left" = Num (to_number (prop element "left") - chx) /\
     prop emitted "top" = Num (to_number (prop element "top") - chy) /\
     prop emitted "width" = Num (to_number (prop element "width")) /\
     prop emitted "height" = Num (to_number (prop element "height")) /\
     (forall k, k <> "left"%string -> k <> "top"%string -> k <> "width"%string ->
                k <> "height"%string -> prop emitted k = prop element k)) /\
  (chx = 0 -> chy = 0 ->
   forall elements, Forall numeric_box elements ->
                    map (shift chx chy) elements = elements).
Proof.
  intros xfrmNode Hx Hfr Hcx Hcy Hfx Hfy chx chy. split; [|split].
  - rewrite processGroupSpNode_step by exact Hx. fold xfrmNode. rewrite Hfr.
    cbn [bind]. rewrite Hcx, Hcy, !float_div_same by assumption.
    destruct (collect _ _) as [elements|err]; [|reflexivity].
    cbn [bind]. do 2 f_equal. apply map_ext. intros el. apply remap_unit_scale.
  - intros fields. apply shift_fields.
  - intros -> -> elements Hn.
    induction Hn as [|el els Hel _ IH]; [reflexivity |].
    cbn [map]. now rewrite IH, shift_zero.
Qed.

End Groups.

Definition scaled_frame : frame :=
  {| off_x := 0; off_y := 0; chOff_x := 0; chOff_y := 0;
     ext_cx := 2000 * RATIO_EMUs_Points; ext_cy := 1000 * RATIO_EMUs_Points;
     chExt_cx := 1000 * RATIO_EMUs_Points; chExt_cy := 500 * RATIO_EMUs_Points |}.

Lemma group_children_are_remapped_witness :
  processGroupSpNode (H := sample_helpers) 2 scaled_group empty_warp (Str "slide")
  = Ok (group_element 0 0 (2000 * RATIO_EMUs_Points) (1000 * RATIO_EMUs_Points)
          [group_element 1000 500 200 200 []]).
Proof.
  apply (group_children_are_remapped (H := sample_helpers) 1 scaled_group empty_warp
           (Str "slide") scaled_frame); reflexivity.
Defined.

(** A group whose child frame is its own frame, [chOff = off = (100, 100)]
    and [chExt = ext = (200, 200)] in points, and its child, which resolves
    to the position (150, 150) and the size (50, 50). *)
Definition inner_child : value := leaf_group "1905000" "1905000" "635000" "635000".

Definition same_frame_group : value :=
  group_xml "1270000" "1270000" "2540000" "2540000"
            "1270000" "1270000" "2540000" "2540000"
            [("p:grpSp", inner_child)].

(** C7, as stated, fails: with [chOff = off] and [chExt = ext] the child
    resolved at left 150, top 150 is emitted at left 50, top 50. *)
Lemma same_frame_group_moves_child :
  processNodesInSlide (H := sample_helpers) 1 "p:grpSp" inner_child empty_warp (Str "slide")
    = Ok (group_element 150 150 50 50 []) /\
  processGroupSpNode (H := sample_helpers) 2 same_frame_group empty_warp (Str "slide")
    = Ok (group_element 100 100 200 200 [group_element 50 50 50 50 []]) /\
  group_element 50 50 50 50 [] <> group_element 150 150 50 50 [].
Proof.
  repeat split; try reflexivity.
  intros E.
  assert (E' : (to_number (prop (group_element 50 50 50 50 []) "left") =? 150)%float
               = (to_number (prop (group_element 150 150 50 50 []) "left") =? 150)%float)
    by (now rewrite E).
  discriminate E'.
Qed.

(** The same group with [chOff = (0,0)]. *)
Definition own_extent_group : value :=
  group_xml "1270000" "1270000" "2540000" "2540000" "0" "0" "2540000" "2540000"
            [("p:grpSp", inner_child)].

Definition own_extent_frame : frame :=
  {| off_x := 100; off_y := 100; chOff_x := 0; chOff_y := 0;
     ext_cx := 200; ext_cy := 200; chExt_cx := 200; chExt_cy := 200 |}.

Lemma group_with_own_extent_shifts_children_witness :
  processGroupSpNode (H := sample_helpers) 2 own_extent_group empty_warp (Str "slide") =
    (elements <- collect (fun nodeKey item =>
                            processNodesInSlide (H := sample_helpers) 1 nodeKey item
                                                empty_warp (Str "slide"))
                         (entries own_extent_group) ;;
     Ok (group_record own_extent_frame
           (getTextByPathList own_extent_group ["p:grpSpPr"; "a:xfrm"])
           (map (shift 0 0) elements))).
Proof.
  apply (group_with_own_extent_shifts_children (H := sample_helpers) 1 own_extent_group
           empty_warp (Str "slide") own_extent_frame); reflexivity.
Defined.


(** ** C1: the order of the elements of a slide *)

Section Order.

Context {H : Helpers}.

(** The children converted one after the other, in the order of the list:
    the results that are not falsy. *)
Definition in_order (fuel : nat) (children : list xml) (w : warpObj) : result (list value) :=
  rets <- map_result (fun c => processNodesInSlide fuel (name_of c) (readXml c) w (Str "slide"))
                     children ;;
  Ok (filter truthy rets).

Lemma in_order_app (fuel : nat) (a b : list xml) (w : warpObj) :
  in_order fuel (a ++ b) w =
  (x <- in_order fuel a w ;; y <- in_order fuel b w ;; Ok (x ++ y)%list).
Proof.
  unfold in_order. rewrite map_result_app.
  destruct (map_result _ a) as [x|err]; cbn [bind]; [|reflexivity].
  destruct (map_result _ b) as [y|err]; cbn [bind]; [|reflexivity].
  now rewrite filter_app.
Qed.

Lemma readXml_is_object (c : xml) : constructor_is_Array (readXml c) = Ok false.
Proof. destruct c. reflexivity. Qed.

Lemma filter_children (t : string) (children : list xml) :
  map snd (filter (fun kv => String.eqb (fst kv) t)
                  (map (fun c => (name_of c, readXml c)) children))
  = map readXml (filter (fun c => String.eqb (name_of c) t) children).
Proof.
  induction children as [|c r IH]; cbn [map filter fst]; [reflexivity |].
  destruct (String.eqb (name_of c) t); cbn [map snd]; now rewrite IH.
Qed.

Lemma map_result_same_name (P : string -> value -> result value) (t : string)
      (cs : list xml) :
  Forall (fun c => name_of c = t) cs ->
  map_result (P t) (map readXml cs)
  = map_result (fun c => P (name_of c) (readXml c)) cs.
Proof.
  induction 1 as [|c r Hc _ IH]; cbn [map map_result]; [reflexivity |].
  now rewrite Hc, IH.
Qed.

Lemma visit_same_name (fuel : nat) (w : warpObj) (t : string) (cs : list xml) :
  Forall (fun c => name_of c = t) cs ->
  visit (fun nodeKey item => processNodesInSlide fuel nodeKey item w (Str "slide"))
        (t, scalar_or_array (map readXml cs))
  = in_order fuel cs w.
Proof.
  intros Hcs. unfold in_order.
  rewrite <- (map_result_same_name
                (fun nodeKey item => processNodesInSlide fuel nodeKey item w (Str "slide"))
                t cs Hcs).
  destruct cs as [|c [|c' r]]; try reflexivity.
  cbn [map scalar_or_array visit]. rewrite readXml_is_object. cbn [bind map_result].
  destruct (processNodesInSlide fuel t (readXml c) w (Str "slide")) as [ret|err];
    reflexivity.
Qed.

Lemma filter_same_name (t : string) (children : list xml) :
  Forall (fun c => name_of c = t)
         (filter (fun c => String.eqb (name_of c) t) children).
Proof.
  apply Forall_forall. intros c Hc. apply filter_In in Hc.
  now apply String.eqb_eq.
Qed.

Lemma collect_groups (fuel : nat) (w : warpObj) (children : list xml) (ts : list string) :
  collect (fun nodeKey item => processNodesInSlide fuel nodeKey item w (Str "slide"))
          (map (fun t =>
                  (t, scalar_or_array
                        (map snd (filter (fun kv => String.eqb (fst kv) t)
                                         (map (fun c => (name_of c, readXml c)) children)))))
               ts)
  = in_order fuel
      (flat_map (fun t => filter (fun c => String.eqb (name_of c) t) children) ts) w.
Proof.
  induction ts as [|t ts IH].
  - reflexivity.
  - cbn [map flat_map]. rewrite collect_cons, in_order_app, IH, filter_children.
    now rewrite visit_same_name by apply filter_same_name.
Qed.

(** C1, amended.  The elements of a slide follow the shape tree as parsed:
    the children regrouped by tag name, the names in the order of their
    first occurrence, and the children of one name in document order.  The
    elements are in document order when the regrouping leaves the children
    in place, that is, when no two children of one name are separated by a
    child of another name. *)
Theorem slide_elements_follow_tag_groups (fuel : nat) (name : string)
        (attrs : list (string * string)) (children : list xml) (w : warpObj) :
  slide_elements fuel (readXml (Element name attrs children)) w
    = in_order fuel (group_by_tag children) w /\
  (group_by_tag children = children ->
   slide_elements fuel (readXml (Element name attrs children)) w
     = in_order fuel children w).
Proof.
  assert (E : slide_elements fuel (readXml (Element name attrs children)) w
              = in_order fuel (group_by_tag children) w).
  { unfold slide_elements, group_by_tag. cbn [readXml entries].
    rewrite collect_cons. unfold collapse.
    rewrite collect_groups.
    replace (map fst (map (fun c => (name_of c, readXml c)) children))
      with (map name_of children) by (now rewrite map_map).
    cbn [visit constructor_is_Array bind].
    unfold processNodesInSlide at 1. cbn.
    destruct (in_order fuel _ w); reflexivity. }
  split; [exact E |].
  intros Hg. now rewrite E, Hg.
Qed.

End Order.

(** A slide whose shape tree holds, in this order, a group at the left
    edge, a picture, and a group 100 points to the right. *)
Definition xfrm_xml (x y cx cy : string) (more : list xml) : xml :=
  Element "a:xfrm" []
    (Element "a:off" [("x", x); ("y", y)] []
       :: Element "a:ext" [("cx", cx); ("cy", cy)] [] :: more).

Definition group_at (x : string) : xml :=
  Element "p:grpSp" []
    [Element "p:grpSpPr" []
       [xfrm_xml x "0" "1270000" "1270000"
          [ Element "a:chOff" [("x", "0"); ("y", "0")] [];
            Element "a:chExt" [("cx", "1270000"); ("cy", "1270000")] [] ]]].

Definition picture_xml : xml :=
  Element "p:pic" []
    [ Element "p:blipFill" [] [Element "a:blip" [("r:embed", "rId1")] []];
      Element "p:spPr" [] [xfrm_xml "0" "0" "914400" "914400" []] ].

Definition picture_element : value :=
  Obj [ ("type", Str "image"); ("top", Num 0); ("left", Num 0);
        ("width", Num 72); ("height", Num 72); ("rotate", Num 0);
        ("src", Str "data:image/png;base64,iVBO");
        ("isFlipV", Bool false); ("isFlipH", Bool false) ].

(** C1, as stated, fails: for the children group, picture, group the slide
    emits the two groups first and the picture last, while the second
    convertible child of the shape tree is the picture. *)
Lemma interleaved_children_are_regrouped :
  slide_elements (H := sample_helpers) 1
    (readXml (Element "p:spTree" [] [group_at "0"; picture_xml; group_at "1270000"]))
    video_slide
  = Ok [ group_element 0 0 100 100 []; group_element 100 0 100 100 [];
         picture_element ] /\
  in_order (H := sample_helpers) 1 [group_at "0"; picture_xml; group_at "1270000"]
           video_slide
  = Ok [ group_element 0 0 100 100 []; picture_element;
         group_element 100 0 100 100 [] ] /\
  slide_elements (H := sample_helpers) 1
    (readXml (Element "p:spTree" [] [group_at "0"; picture_xml; group_at "1270000"]))
    video_slide
  <> in_order (H := sample_helpers) 1 [group_at "0"; picture_xml; group_at "1270000"]
              video_slide.
Proof.
  assert (E1 : slide_elements (H := sample_helpers) 1
                 (readXml (Element "p:spTree" []
                             [group_at "0"; picture_xml; group_at "1270000"]))
                 video_slide
               = Ok [ group_element 0 0 100 100 []; group_element 100 0 100 100 [];
                      picture_element ]) by reflexivity.
  assert (E2 : in_order (H := sample_helpers) 1
                 [group_at "0"; picture_xml; group_at "1270000"] video_slide
               = Ok [ group_element 0 0 100 100 []; picture_element;
                      group_element 100 0 100 100 [] ]) by reflexivity.
  split; [exact E1 | split; [exact E2 |]].
  rewrite E1, E2. intros E. discriminate E.
Qed.

(** ** C6: a rectangle with a solid red fill *)

(** [p:sp] with [a:prstGeom prst="rect"], [a:solidFill/a:srgbClr
    val="FF0000"], and [a:xfrm] with [off = (914400, 914400)] and
    [ext = (914400, 457200)]. *)
Definition rect_node : value :=
  Obj [ ("p:nvSpPr",
         Obj [ ("p:cNvPr", Obj [attrs [("id", "2"); ("name", "Rectangle 1")]]);
               ("p:cNvSpPr", Obj []); ("p:nvPr", Obj []) ]);
        ("p:spPr",
         Obj [ ("a:xfrm", xfrm_of "914400" "914400" "914400" "457200");
               ("a:prstGeom", Obj [attrs [("prst", "rect")]]);
               ("a:solidFill", Obj [("a:srgbClr", Obj [attrs [("val", "FF0000")]])]) ]) ].

(** A slide with that shape only, on a layout and a master without
    background. *)
Definition rect_slide : warpObj :=
  with_slide (slide_of (Obj [("p:sp", rect_node)])) layout_without_bg master_without_bg
             (Obj []).

Definition red_hsl : value :=
  Obj [("h", Num 0); ("s", Num 1); ("l", Num 0.5); ("a", Num 1)].

(** The record emitted for the rectangle, given what the border and
    alignment helpers return. *)
Definition rect_record (border : list (string * value)) (vAlign : value) : value :=
  Obj [ ("left", Num 72); ("top", Num 72); ("width", Num 72); ("height", Num 36);
        ("borderColor", lookup border "borderColor");
        ("borderWidth", lookup border "borderWidth");
        ("borderType", lookup border "borderType");
        ("borderStrokeDasharray", lookup border "strokeDasharray");
        ("fillColor", Str "#ff0000"); ("content", Str "");
        ("isFlipV", Bool false); ("isFlipH", Bool false);
        ("rotate", Num 0); ("vAlign", vAlign); ("name", Str "Rectangle 1");
        ("type", Str "shape"); ("shapType", Str "rect") ].


(** What [processSingleSlide] returns for a slide holding one element. *)
Definition slide_record (bg element : value) : value :=
  Obj [("fill", bg); ("elements", Arr [element])].

Section Rectangle.

Context {H : Helpers}.

Lemma getShapeFill_red (w : warpObj) :
  tinycolor_toHsl (Str "#FF0000") = red_hsl ->
  tinycolor_toHexString red_hsl = Str "#ff0000" ->
  getShapeFill rect_node Undefined w = Ok (Str "#ff0000").
Proof.
  intros Hhsl Hhex. unfold getShapeFill. cbv zeta.
  change (truthy (getTextByPathList rect_node ["p:spPr"; "a:noFill"])) with false.
  cbv iota.
  change (getTextByPathList rect_node ["p:spPr"; "a:solidFill"; "a:srgbClr"; "attrs"; "val"])
    with (Str "FF0000").
  change (negb (truthy (Str "FF0000"))) with false. cbv iota. cbn [bind].
  change (negb (truthy (Str "FF0000"))) with false. cbv iota. cbn [bind].
  change (truthy (Str "FF0000")) with true. cbv iota.
  change (Str ("#" ++ to_string (Str "FF0000"))) with (Str "#FF0000").
  rewrite Hhsl.
  change (get red_hsl "l") with (Ok (Num 0.5)). cbn [bind].
  match goal with
  | |- Ok (tinycolor_toHexString ?v) = _ =>
      replace v with red_hsl by (vm_compute; reflexivity)
  end.
  rewrite Hhex. reflexivity.
Qed.

Lemma rect_element (fuel : nat) (w : warpObj)
      (border : list (string * value)) (vAlign bg : value) :
  tinycolor_toHsl (Str "#FF0000") = red_hsl ->
  tinycolor_toHexString red_hsl = Str "#ff0000" ->
  getBorder rect_node (Str "obj") w = Ok (Obj border) ->
  getVerticalAlign rect_node Undefined Undefined (Str "obj") = Ok vAlign ->
  getSlideBackgroundFill w = Ok bg ->
  processNodesInSlide fuel "p:sp" rect_node w (Str "slide")
    = Ok (rect_record border vAlign).
Proof.
  intros Hhsl Hhex Hborder Hvalign Hbg.
  assert (Hsp : processNodesInSlide fuel "p:sp" rect_node w (Str "slide")
               = genShape rect_node Undefined Undefined (Str "Rectangle 1") (Str "obj") w)
    by reflexivity.
  rewrite Hsp. unfold genShape. cbv zeta.
  change (get rect_node "p:txBody") with (Ok Undefined). cbn [bind truthy].
  rewrite Hborder. cbn [bind get prop].
  rewrite (getShapeFill_red w Hhsl Hhex). cbn [bind].
  rewrite Hbg. cbn [bind].
  change (truthy (getTextByPathList rect_node ["p:spPr"; "a:effectLst"; "a:outerShdw"]))
    with false. cbv iota. cbn [bind].
  rewrite Hvalign. cbn [bind].
  reflexivity.
Qed.

(** C6, amended.  For a slide whose shape tree holds the one [p:sp] above:
    whenever tinycolor reads ['#FF0000'] as hue 0, saturation 1, lightness
    0.5, alpha 1 and prints that colour as ['#ff0000'], and the border and
    alignment helpers and the background resolution return,
    [processSingleSlide] returns one element, a record with [type: 'shape'],
    [shapType: 'rect'], [left: 72], [top: 72], [width: 72], [height: 36] and
    [fillColor: '#ff0000'] (the fill colour is re-encoded by tinycolor, in
    lower case), next to the border, text, flip, rotation, alignment and
    name properties that every shape record carries. *)
Theorem solid_fill_rectangle (fuel : nat) (w : warpObj)
        (border : list (string * value)) (vAlign bg : value) :
  slideContent w = slide_of (Obj [("p:sp", rect_node)]) ->
  tinycolor_toHsl (Str "#FF0000") = red_hsl ->
  tinycolor_toHexString red_hsl = Str "#ff0000" ->
  getBorder rect_node (Str "obj") w = Ok (Obj border) ->
  getVerticalAlign rect_node Undefined Undefined (Str "obj") = Ok vAlign ->
  getSlideBackgroundFill w = Ok bg ->
  processSingleSlide fuel w = Ok (slide_record bg (rect_record border vAlign)) /\
  prop (rect_record border vAlign) "type" = Str "shape" /\
  prop (rect_record border vAlign) "shapType" = Str "rect" /\
  prop (rect_record border vAlign) "left" = Num 72 /\
  prop (rect_record border vAlign) "top" = Num 72 /\
  prop (rect_record border vAlign) "width" = Num 72 /\
  prop (rect_record border vAlign) "height" = Num 36 /\
  prop (rect_record border vAlign) "fillColor" = Str "#ff0000".
Proof.
  intros Hslide Hhsl Hhex Hborder Hvalign Hbg.
  split; [| repeat split].
  unfold processSingleSlide. rewrite Hslide.
  change (get (slide_of (Obj [("p:sp", rect_node)])) "p:sld")
    with (Ok (Obj [("p:cSld", Obj [("p:spTree", Obj [("p:sp", rect_node)])])])).
  cbn [bind].
  change (get (Obj [("p:cSld", Obj [("p:spTree", Obj [("p:sp", rect_node)])])]) "p:cSld")
    with (Ok (Obj [("p:spTree", Obj [("p:sp", rect_node)])])).
  cbn [bind].
  change (get (Obj [("p:spTree", Obj [("p:sp", rect_node)])]) "p:spTree")
    with (Ok (Obj [("p:sp", rect_node)])).
  cbn [bind].
  rewrite Hbg. cbn [bind].
  unfold slide_elements.
  change (entries (Obj [("p:sp", rect_node)])) with [("p:sp", rect_node)].
  rewrite collect_cons. unfold visit.
  change (constructor_is_Array rect_node) with (Ok false). cbn [bind].
  rewrite (rect_element fuel w border vAlign bg Hhsl Hhex Hborder Hvalign Hbg).
  reflexivity.
Qed.

End Rectangle.

(** What the sample border helper returns. *)
Definition sample_border : list (string * value) :=
  [ ("borderColor", Str "#000000"); ("borderWidth", Num 0);
    ("borderType", Str "solid"); ("strokeDasharray", Str "0") ].

Lemma solid_fill_rectangle_witness :
  processSingleSlide (H := sample_helpers) 0 rect_slide
    = Ok (slide_record white (rect_record sample_border (Str "mid"))).
Proof.
  apply (solid_fill_rectangle (H := sample_helpers) 0 rect_slide sample_border
           (Str "mid") white); vm_compute; reflexivity.
Defined.

(** C6, as stated, fails: the slide with that one shape gives one element,
    whose fill colour is ['#ff0000'] and not ['#FF0000']. *)
Lemma rectangle_fill_is_lower_case :
  processSingleSlide (H := sample_helpers) 0 rect_slide
    = Ok (slide_record white (rect_record sample_border (Str "mid"))) /\
  prop (rect_record sample_border (Str "mid")) "fillColor" = Str "#ff0000" /\
  prop (rect_record sample_border (Str "mid")) "fillColor" <> Str "#FF0000".
Proof.
  split; [vm_compute; reflexivity | split; [reflexivity |]].
  intros E. vm_compute in E. discriminate E.
Qed.

End Facts.

(* ================================================================= *)
(** * Part 8. Further properties of the sources *)
(* ================================================================= *)

Module Further.

Import JS Pptx.

Local Open Scope string_scope.

(** ** [getTextByPathList] *)

Lemma getTextByPathList_falsy (node : value) (path : list string) :
  truthy node = false -> getTextByPathList node path = node.
Proof. intros E. unfold getTextByPathList. now rewrite E. Qed.

Lemma path_loop_app (node : value) (p q : list string) :
  truthy node = true ->
  path_loop node (p ++ q) = getTextByPathList (path_loop node p) q.
Proof.
  revert node. induction p as [|k p IH]; intros node E.
  - cbn [app path_loop]. unfold getTextByPathList. now rewrite E.
  - cbn [app path_loop]. destruct (truthy (prop node k)) eqn:Ek.
    + now apply IH.
    + now rewrite getTextByPathList_falsy.
Qed.

(** X1.  Reading a path in two steps is reading it in one:
    [getTextByPathList(getTextByPathList(node, p), q)] is
    [getTextByPathList(node, p.concat(q))], also when the first step stops at
    a missing key or at a falsy value. *)
Theorem getTextByPathList_concat (node : value) (p q : list string) :
  getTextByPathList node (p ++ q) = getTextByPathList (getTextByPathList node p) q.
Proof.
  destruct (truthy node) eqn:E.
  - unfold getTextByPathList at 1 3. rewrite E. now apply path_loop_app.
  - rewrite (getTextByPathList_falsy node (p ++ q) E).
    rewrite (getTextByPathList_falsy node p E).
    now rewrite (getTextByPathList_falsy node q E).
Qed.

(** The plain member chain [node[k1][k2]...[kn]], which throws as soon as it
    reads a property of [undefined] or [null]. *)
Definition member_chain (node : value) (path : list string) : result value :=
  fold_left (fun acc key => n <- acc ;; get n key) path (Ok node).

Lemma member_chain_throw (e : error) (path : list string) :
  fold_left (fun acc key => n <- acc ;; get n key) path (Throw e) = Throw e.
Proof. induction path as [|k path IH]; [reflexivity | exact IH]. Qed.

Lemma get_of_truthy (node : value) (key : string) :
  truthy node = true -> get node key = Ok (prop node key).
Proof. destruct node; intros E; try discriminate; reflexivity. Qed.

Lemma prop_of_falsy (node : value) (key : string) :
  truthy node = false -> prop node key = Undefined.
Proof. destruct node; intros E; try discriminate; reflexivity. Qed.





(** ** [escapeHtml] *)

Lemma contains_app (c : ascii) (a b : string) :
  contains c (a ++ b) = contains c a || contains c b.
Proof.
  induction a as [|x a IH]; [reflexivity |].
  cbn [append contains]. now rewrite IH, orb_assoc.
Qed.

(** The inverse reading: the five entities back to their characters. *)
Fixpoint unescapeHtml_string (s : string) : string :=
  match s with
  | EmptyString => EmptyString
  | String c r =>
      if Ascii.eqb c "&" then
        match r with
        | String "a" (String "m" (String "p" (String ";" r'))) =>
            String "&" (unescapeHtml_string r')
        | String "l" (String "t" (String ";" r')) =>
            String "<" (unescapeHtml_string r')
        | String "g" (String "t" (String ";" r')) =>
            String ">" (unescapeHtml_string r')
        | String "q" (String "u" (String "o" (String "t" (String ";" r')))) =>
            String quote (unescapeHtml_string r')
        | String "#" (String "0" (String "3" (String "9" (String ";" r')))) =>
            String "'" (unescapeHtml_string r')
        | _ => String c (unescapeHtml_string r)
        end
      else String c (unescapeHtml_string r)
  end.

(** The characters that [escapeHtml] replaces. *)
Definition is_special (c : ascii) : bool :=
  Ascii.eqb c "&" || Ascii.eqb c "<" || Ascii.eqb c ">" || Ascii.eqb c quote
  || Ascii.eqb c "'".

Fixpoint has_special (s : string) : bool :=
  match s with
  | EmptyString => false
  | String c r => is_special c || has_special r
  end.

Lemma escapeHtml_string_cons (c : ascii) (r : string) :
  escapeHtml_string (String c r) =
  (if Ascii.eqb c "&" then "&amp;"
   else if Ascii.eqb c "<" then "&lt;"
   else if Ascii.eqb c ">" then "&gt;"
   else if Ascii.eqb c quote then "&quot;"
   else if Ascii.eqb c "'" then "&#039;"
   else String c EmptyString) ++ escapeHtml_string r.
Proof. reflexivity. Qed.

Lemma escaped_has_no (c : ascii) (s : string) :
  is_special c = true -> Ascii.eqb c "&" = false ->
  contains c (escapeHtml_string s) = false.
Proof.
  intros Hc Hamp. induction s as [|x s IH]; [reflexivity |].
  rewrite escapeHtml_string_cons, contains_app, IH, orb_false_r.
  destruct (Ascii.eqb x "&") eqn:E1;
    [| destruct (Ascii.eqb x "<") eqn:E2;
       [| destruct (Ascii.eqb x ">") eqn:E3;
          [| destruct (Ascii.eqb x quote) eqn:E4;
             [| destruct (Ascii.eqb x "'") eqn:E5]]]].
  1-5: unfold is_special in Hc; rewrite Hamp in Hc; cbn [orb] in Hc;
       destruct (Ascii.eqb c "<") eqn:C2;
         [apply Ascii.eqb_eq in C2; subst c; reflexivity |];
       destruct (Ascii.eqb c ">") eqn:C3;
         [apply Ascii.eqb_eq in C3; subst c; reflexivity |];
       destruct (Ascii.eqb c quote) eqn:C4;
         [apply Ascii.eqb_eq in C4; subst c; reflexivity |];
       destruct (Ascii.eqb c "'") eqn:C5;
         [apply Ascii.eqb_eq in C5; subst c; reflexivity | discriminate Hc].
  cbn [contains]. rewrite orb_false_r.
  destruct (Ascii.eqb x c) eqn:Exc; [| reflexivity].
  apply Ascii.eqb_eq in Exc. subst x.
  unfold is_special in Hc. now rewrite E1, E2, E3, E4, E5 in Hc.
Qed.

Lemma unescape_escape (s : string) :
  unescapeHtml_string (escapeHtml_string s) = s.
Proof.
  induction s as [|x s IH]; [reflexivity |].
  rewrite escapeHtml_string_cons.
  destruct (Ascii.eqb x "&") eqn:E1;
    [apply Ascii.eqb_eq in E1; subst x; cbn; now rewrite IH |].
  destruct (Ascii.eqb x "<") eqn:E2;
    [apply Ascii.eqb_eq in E2; subst x; cbn; now rewrite IH |].
  destruct (Ascii.eqb x ">") eqn:E3;
    [apply Ascii.eqb_eq in E3; subst x; cbn; now rewrite IH |].
  destruct (Ascii.eqb x quote) eqn:E4;
    [apply Ascii.eqb_eq in E4; subst x; cbn; now rewrite IH |].
  destruct (Ascii.eqb x "'") eqn:E5;
    [apply Ascii.eqb_eq in E5; subst x; cbn; now rewrite IH |].
  cbn [append unescapeHtml_string]. now rewrite E1, IH.
Qed.

Lemma escape_plain (s : string) :
  has_special s = false -> escapeHtml_string s = s.
Proof.
  induction s as [|x s IH]; [reflexivity |].
  cbn [has_special]. intros Hs. apply orb_false_iff in Hs as [Hx Hs].
  rewrite escapeHtml_string_cons, (IH Hs).
  unfold is_special in Hx.
  repeat (apply orb_false_iff in Hx as [Hx ?]).
  now rewrite Hx, H, H0, H1, H2.
Qed.

Lemma escapeHtml_string_app (a b : string) :
  escapeHtml_string (a ++ b) = escapeHtml_string a ++ escapeHtml_string b.
Proof.
  induction a as [|x a IH]; [reflexivity |].
  change (String x a ++ b) with (String x (a ++ b)).
  rewrite !escapeHtml_string_cons, IH.
  now rewrite Base64Facts.sapp_assoc.
Qed.

(** X3.  The text returned by [escapeHtml] holds none of the characters
    [<], [>], the double quote and the apostrophe, and every [&] in it
    starts one of the five
    entities, so that reading the entities back gives the text that was
    escaped; a text without the five characters is returned as it is, and
    escaping distributes over concatenation. *)
Theorem escapeHtml_is_reversible (s : string) :
  escapeHtml (Str s) = Ok (escapeHtml_string s) /\
  contains "<" (escapeHtml_string s) = false /\
  contains ">" (escapeHtml_string s) = false /\
  contains quote (escapeHtml_string s) = false /\
  contains "'" (escapeHtml_string s) = false /\
  unescapeHtml_string (escapeHtml_string s) = s /\
  (has_special s = false -> escapeHtml (Str s) = Ok s) /\
  (forall t, escapeHtml_string (s ++ t) = escapeHtml_string s ++ escapeHtml_string t).
Proof.
  split; [reflexivity |].
  repeat split; try (apply escaped_has_no; reflexivity).
  - apply unescape_escape.
  - intros Hs. unfold escapeHtml. cbn [as_string bind]. now rewrite escape_plain.
  - intros t. apply escapeHtml_string_app.
Qed.

(** ** [extractFileExtension] *)

Lemma last_index_of_absent (c : ascii) (s : string) (i found : Z) :
  contains c s = false -> last_index_of c s i found = found.
Proof.
  revert i found. induction s as [|x s IH]; intros i found Hs; [reflexivity |].
  cbn [contains] in Hs. apply orb_false_iff in Hs as [Hx Hs].
  cbn [last_index_of]. rewrite Hx. now apply IH.
Qed.

Lemma last_index_of_app (c : ascii) (a b : string) (i found : Z) :
  last_index_of c (a ++ String c b) i found
  = last_index_of c b (i + Z.of_nat (String.length a) + 1)
                  (i + Z.of_nat (String.length a)).
Proof.
  revert i found. induction a as [|x a IH]; intros i found.
  - cbn [append last_index_of String.length]. rewrite Ascii.eqb_refl.
    f_equal; lia.
  - cbn [append last_index_of String.length]. rewrite IH. f_equal; lia.
Qed.

Lemma drop_app (a b : string) : drop (String.length a) (a ++ b) = b.
Proof. induction a as [|x a IH]; [now destruct b | exact IH]. Qed.

Lemma length_app (a b : string) :
  String.length (a ++ b) = (String.length a + String.length b)%nat.
Proof. induction a as [|x a IH]; [reflexivity | cbn; now rewrite IH]. Qed.

(** X4.  For a file name shorter than 2^32 characters,
    [extractFileExtension] returns what follows the last dot when something
    stands before that dot, and the empty string when the name has no dot or
    its only dot is the first character. *)
Theorem extractFileExtension_last_dot (base ext : string) :
  (Z.of_nat (String.length (base ++ "." ++ ext)) < 4294967296)%Z ->
  contains "." ext = false ->
  extractFileExtension (Str (base ++ "." ++ ext))
    = Ok (if String.eqb base "" then "" else ext) /\
  extractFileExtension (Str ext) = Ok "".
Proof.
  intros Hlen Hext. split.
  - unfold extractFileExtension. cbn [as_string bind].
    change (base ++ "." ++ ext) with (base ++ String "." ext) in *.
    rewrite last_index_of_app, (last_index_of_absent _ _ _ _ Hext).
    rewrite length_app in *. cbn [String.length] in *.
    destruct base as [|x base].
    + cbn [String.length String.eqb]. change (0 + Z.of_nat 0 - 1)%Z with (-1)%Z.
      change ((-1) mod 4294967296 + 2)%Z with 4294967297%Z.
      destruct (4294967297 <? _)%Z eqn:E; [apply Z.ltb_lt in E; cbn in Hlen; lia |].
      reflexivity.
    + cbn [String.eqb]. set (n := String.length (String x base)) in *.
      assert (Hn : (1 <= Z.of_nat n)%Z) by (subst n; cbn [String.length]; lia).
      replace ((0 + Z.of_nat n - 1) mod 4294967296 + 2)%Z with (Z.of_nat n + 1)%Z
        by (rewrite Z.mod_small; lia).
      replace (Z.to_nat (Z.of_nat n + 1)) with (S n) by lia.
      destruct ext as [|y ext].
      * destruct (_ <? _)%Z eqn:E; [apply Z.ltb_lt in E; cbn [String.length] in E; lia |].
        reflexivity.
      * destruct (_ <? _)%Z eqn:E;
          [| apply Z.ltb_ge in E; cbn [String.length] in E; lia].
        f_equal.
        change (String x base ++ String "." (String y ext))
          with (String x (base ++ String "." (String y ext))).
        cbn [drop]. subst n. cbn [String.length].
        replace (base ++ String "." (String y ext))
          with ((base ++ ".") ++ String y ext)
          by (now rewrite Base64Facts.sapp_assoc).
        replace (S (String.length base)) with (String.length (base ++ "."))
          by (rewrite length_app; cbn [String.length]; lia).
        apply drop_app.
  - unfold extractFileExtension. cbn [as_string bind].
    rewrite (last_index_of_absent _ _ _ _ Hext).
    change ((-1 - 1) mod 4294967296 + 2)%Z with 4294967296%Z.
    rewrite !length_app in Hlen.
    destruct (_ <? _)%Z eqn:E; [apply Z.ltb_lt in E; lia | reflexivity].
Qed.

Lemma extractFileExtension_last_dot_witness :
  extractFileExtension (Str ("ppt/media/image1" ++ "." ++ "png")) = Ok "png".
Proof.
  apply (extractFileExtension_last_dot "ppt/media/image1" "png");
    [vm_compute | ]; reflexivity.
Defined.

(** ** Checking a property on a range of integers *)

(** The integers [from], [from + 1], ..., [from + n - 1]. *)
Definition interval (from : Z) (n : nat) : list Z :=
  map (fun i => (from + Z.of_nat i)%Z) (seq 0 n).

Lemma interval_In (from z : Z) (n : nat) :
  (from <= z < from + Z.of_nat n)%Z -> In z (interval from n).
Proof.
  intros Hz. unfold interval. apply in_map_iff.
  exists (Z.to_nat (z - from)). split; [lia |].
  apply in_seq. lia.
Qed.

Lemma checked_on_interval (f : Z -> bool) (from : Z) (n : nat) :
  forallb f (interval from n) = true ->
  forall z, (from <= z < from + Z.of_nat n)%Z -> f z = true.
Proof.
  intros Hall z Hz. rewrite forallb_forall in Hall.
  apply Hall, interval_In, Hz.
Qed.

(** The decimal numeral of an integer, as an attribute value writes it. *)
Definition decimal (z : Z) : string :=
  if (z <? 0)%Z then "-" ++ Z_to_string 10 (- z) else Z_to_string 10 z.

(** ** [angleToDegrees] *)

Definition whole_degrees_ok (d : Z) : bool :=
  PrimFloat.Leibniz.eqb (angleToDegrees (Str (decimal (60000 * d)))) (Z2float d).

Definition half_degrees_ok (d : Z) : bool :=
  PrimFloat.Leibniz.eqb (angleToDegrees (Str (decimal (60000 * d + 30000))))
                        (Z2float (d + 1))
  && PrimFloat.Leibniz.eqb (angleToDegrees (Str (decimal (60000 * d + 29999))))
                           (Z2float d).

Lemma whole_degrees_checked : forallb whole_degrees_ok (interval (-360) 721) = true.
Proof. vm_compute. reflexivity. Qed.

Lemma half_degrees_checked : forallb half_degrees_ok (interval 0 360) = true.
Proof. vm_compute. reflexivity. Qed.

(** X5.  An angle attribute that is a whole number [d] of degrees, written
    in 60000ths of a degree, converts to [d] exactly, for [d] from -360 to
    360; between two whole degrees the result changes at the half, which
    goes up.  A missing or empty attribute converts to 0. *)
Theorem angleToDegrees_whole_and_half (d : Z) :
  (-360 <= d <= 360)%Z ->
  angleToDegrees (Str (decimal (60000 * d))) = Z2float d /\
  ((0 <= d < 360)%Z ->
   angleToDegrees (Str (decimal (60000 * d + 29999))) = Z2float d /\
   angleToDegrees (Str (decimal (60000 * d + 30000))) = Z2float (d + 1)) /\
  angleToDegrees Undefined = zero /\
  angleToDegrees (Str "") = zero.
Proof.
  intros Hd. split; [| split; [| split; reflexivity]].
  - apply FloatAxioms.Leibniz.eqb_spec.
    apply (checked_on_interval whole_degrees_ok (-360) 721 whole_degrees_checked).
    lia.
  - intros Hd'.
    assert (Hh : half_degrees_ok d = true)
      by (apply (checked_on_interval half_degrees_ok 0 360 half_degrees_checked); lia).
    apply andb_true_iff in Hh as [Hup Hdown].
    split; now apply FloatAxioms.Leibniz.eqb_spec.
Qed.

Lemma angleToDegrees_whole_and_half_witness :
  angleToDegrees (Str (decimal (60000 * 90))) = Z2float 90.
Proof.
  destruct (angleToDegrees_whole_and_half 90) as [Hwhole _]; [lia | exact Hwhole].
Defined.

(** ** [toHex] *)

(** The two hexadecimal digits of a byte, in lower case. *)
Definition byte_digits (n : Z) : string :=
  String (digit_char (n / 16)) (String (digit_char (n mod 16)) EmptyString).

Definition toHex_byte_ok (n : Z) : bool :=
  match toHex (Num (Z2float n)) with
  | Ok hex =>
      String.eqb hex (byte_digits n)
      && PrimFloat.Leibniz.eqb (parseInt (Str ("0x" ++ hex))) (Z2float n)
  | Throw _ => false
  end.

Lemma toHex_bytes_checked : forallb toHex_byte_ok (interval 0 256) = true.
Proof. vm_compute. reflexivity. Qed.

(** X6.  For a whole number from 0 to 255, [toHex] returns exactly its two
    hexadecimal digits, with a leading zero below 16, and reading them back
    as a hexadecimal numeral gives the number. *)
Theorem toHex_of_byte (n : Z) :
  (0 <= n <= 255)%Z ->
  toHex (Num (Z2float n)) = Ok (byte_digits n) /\
  String.length (byte_digits n) = 2%nat /\
  parseInt (Str ("0x" ++ byte_digits n)) = Z2float n.
Proof.
  intros Hn.
  assert (Hok : toHex_byte_ok n = true)
    by (apply (checked_on_interval toHex_byte_ok 0 256 toHex_bytes_checked); lia).
  unfold toHex_byte_ok in Hok.
  destruct (toHex (Num (Z2float n))) as [hex|e]; [| discriminate Hok].
  apply andb_true_iff in Hok as [Hhex Hback].
  apply String.eqb_eq in Hhex. subst hex.
  repeat split. now apply FloatAxioms.Leibniz.eqb_spec.
Qed.

Lemma toHex_of_byte_witness :
  toHex (Num (Z2float 10)) = Ok "0a".
Proof.
  destruct (toHex_of_byte 10) as [Hhex _]; [lia | exact Hhex].
Defined.

(** ** [eachElement] *)

Lemma each_loop_acc (func : value -> Z -> result value) (items : list value)
      (i : Z) (acc : string) :
  each_loop func items i acc
  = (s <- each_loop func items i "" ;; Ok (acc ++ s)).
Proof.
  revert i acc. induction items as [|x items IH]; intros i acc.
  - cbn. now rewrite Base64Facts.sapp_nil_r.
  - cbn [each_loop]. destruct (func x i) as [ret|e]; cbn [bind]; [| reflexivity].
    rewrite (IH (i + 1)%Z (acc ++ to_string ret)).
    rewrite (IH (i + 1)%Z ("" ++ to_string ret)).
    destruct (each_loop func items (i + 1) "") as [s|e]; cbn [bind]; [| reflexivity].
    cbn [append]. now rewrite Base64Facts.sapp_assoc.
Qed.

Lemma each_loop_app (func : value -> Z -> result value) (a b : list value)
      (i : Z) :
  each_loop func (a ++ b) i ""
  = (sa <- each_loop func a i "" ;;
     sb <- each_loop func b (i + Z.of_nat (List.length a)) "" ;;
     Ok (sa ++ sb)).
Proof.
  revert i. induction a as [|x a IH]; intros i.
  - cbn [app each_loop bind List.length]. replace (i + Z.of_nat 0)%Z with i by lia.
    destruct (each_loop func b i "") as [s|e]; reflexivity.
  - cbn [app each_loop List.length]. destruct (func x i) as [ret|e]; cbn [bind];
      [| reflexivity].
    rewrite (each_loop_acc func (a ++ b) (i + 1) ("" ++ to_string ret)), IH.
    rewrite (each_loop_acc func a (i + 1) ("" ++ to_string ret)).
    replace (i + 1 + Z.of_nat (List.length a))%Z
      with (i + Z.of_nat (S (List.length a)))%Z by lia.
    destruct (each_loop func a (i + 1) "") as [sa|e]; cbn [bind]; [| reflexivity].
    destruct (each_loop func b _ "") as [sb|e]; cbn [bind]; [| reflexivity].
    f_equal. symmetry. apply Base64Facts.sapp_assoc.
Qed.

Lemma each_loop_shift (func : value -> Z -> result value) (k : Z)
      (items : list value) (i : Z) (acc : string) :
  each_loop (fun x j => func x (j + k)%Z) items i acc
  = each_loop func items (i + k) acc.
Proof.
  revert i acc. induction items as [|x items IH]; intros i acc; [reflexivity |].
  cbn [each_loop]. destruct (func x (i + k)%Z) as [ret|e]; cbn [bind];
    [| reflexivity].
  replace (i + k + 1)%Z with (i + 1 + k)%Z by lia. apply IH.
Qed.

(** X7.  [eachElement] treats a single node as the array holding it, joins
    what the callback returns for the elements of an array in their order
    (the result for [a.concat(b)] is the result for [a] followed by that for
    [b], the callback seeing the indices continue), gives the empty string
    for the empty array, and returns a falsy node as it is without calling
    the callback. *)
Theorem eachElement_joins (func : value -> Z -> result value) :
  (forall node, truthy node = false -> eachElement node func = Ok node) /\
  eachElement (Arr []) func = Ok (Str "") /\
  (forall node, truthy node = true -> (forall items, node <> Arr items) ->
                eachElement node func = eachElement (Arr [node]) func) /\
  (forall a b,
     eachElement (Arr (a ++ b)) func
     = (ra <- eachElement (Arr a) func ;;
        rb <- eachElement (Arr b)
                (fun x i => func x (i + Z.of_nat (List.length a))%Z) ;;
        Ok (add ra rb))).
Proof.
  repeat split.
  - intros node E. unfold eachElement. now rewrite E.
  - intros node E Hnot. unfold eachElement. rewrite E. cbn [negb truthy each_loop].
    destruct node; try reflexivity;
      try (destruct (func _ 0%Z) as [ret|e]; reflexivity).
    now contradiction (Hnot items).
  - intros a b. unfold eachElement. cbn [truthy negb].
    rewrite each_loop_app.
    destruct (each_loop func a 0%Z "") as [sa|e]; cbn [bind]; [| reflexivity].
    replace (each_loop (fun x i => func x (i + Z.of_nat (List.length a))%Z) b 0%Z "")
      with (each_loop func b (0 + Z.of_nat (List.length a)) "").
    + destruct (each_loop func b _ "") as [sb|e]; reflexivity.
    + symmetry. apply each_loop_shift.
Qed.


(** ** [getPicFill] *)
Lemma slideResObj_read (w : warpObj) (rest : list string) :
  getTextByPathList (warp_value w) ("slideResObj" :: rest)
  = getTextByPathList (slideResObj w) rest.
Proof. reflexivity. Qed.

Lemma loaded_images_read (w : warpObj) (key : string) :
  getTextByPathList (warp_value w) ["loaded-images"; key] = Undefined.
Proof. reflexivity. Qed.

Lemma member_chain3 (node v : value) (k1 k2 k3 : string) :
  member_chain node [k1; k2; k3] = Ok v ->
  exists a b, get node k1 = Ok a /\ get a k2 = Ok b /\ get b k3 = Ok v.
Proof.
  unfold member_chain. cbn [fold_left bind].
  destruct (get node k1) as [a|e]; cbn [bind]; [| discriminate].
  destruct (get a k2) as [b|e] eqn:Ea; cbn [bind]; [| discriminate].
  intros Hv. exists a, b. repeat split; assumption.
Qed.

(** X8.  For a fill of a slide whose [a:blip] names the relationship [rid]:
    when [slideResObj] has no target for [rid], [getPicFill] returns the
    falsy value found (undefined for a missing entry) and does not throw;
    a target with the extension [xml] gives [undefined]; otherwise the target
    is escaped and read from the archive, and the result is a data URL with
    the MIME type of the extension whose payload is the base64 encoding of
    the file, which decodes to the bytes of the file; a target that is not
    in the archive makes the call throw. *)
Theorem getPicFill_of_slide (node : value) (rid : string) (w : warpObj) :
  member_chain node ["a:blip"; "attrs"; "r:embed"] = Ok (Str rid) ->
  let target := getTextByPathList (slideResObj w) [rid; "target"] in
  (truthy target = false -> getPicFill (Str "slide") node w = Ok target) /\
  (forall path,
     target = Str path -> path <> "" ->
     let file := escapeHtml_string path in
     let ext := after_last "." file in
     (ext = "xml" -> getPicFill (Str "slide") node w = Ok Undefined) /\
     (ext <> "xml" -> zip w file = None ->
      exists e, getPicFill (Str "slide") node w = Throw e) /\
     (forall bytes,
        ext <> "xml" -> zip w file = Some bytes ->
        getPicFill (Str "slide") node w
          = Ok (Str ("data:" ++ getMimeType ext ++ ";base64,"
                       ++ Base64.rfc4648_encode bytes)) /\
        Base64.rfc4648_decode (Base64.rfc4648_encode bytes) = Some bytes)).
Proof.
  intros Hnode target.
  apply member_chain3 in Hnode as (blip & attrs & Hb & Ha & Hr).
  assert (Hfill : getPicFill (Str "slide") node w =
                  if negb (truthy target) then Ok target
                  else
                    imgPath <- escapeHtml target ;;
                    let imgExt := after_last "." imgPath in
                    if String.eqb imgExt "xml" then Ok Undefined
                    else
                      imgArrayBuffer <- zip_read w (Str imgPath) ;;
                      Ok (Str ("data:" ++ getMimeType imgExt ++ ";base64,"
                                 ++ Base64.base64ArrayBuffer imgArrayBuffer))).
  { unfold getPicFill. rewrite Hb. cbn [bind]. rewrite Ha. cbn [bind].
    rewrite Hr. cbn [bind to_string is_str String.eqb Ascii.eqb Bool.eqb orb].
    rewrite slideResObj_read. fold target.
    destruct (truthy target); cbn [negb]; [| reflexivity].
    now rewrite loaded_images_read. }
  split.
  - intros Ht. rewrite Hfill, Ht. reflexivity.
  - intros path Hp Hne file ext.
    assert (Hrun : getPicFill (Str "slide") node w =
                   if String.eqb ext "xml" then Ok Undefined
                   else
                     imgArrayBuffer <- zip_read w (Str file) ;;
                     Ok (Str ("data:" ++ getMimeType ext ++ ";base64,"
                                ++ Base64.base64ArrayBuffer imgArrayBuffer))).
    { rewrite Hfill, Hp. cbn [truthy].
      destruct (String.eqb path "") eqn:E; [apply String.eqb_eq in E; congruence |].
      reflexivity. }
    split; [| split].
    + intros Hx. rewrite Hrun. fold ext. now rewrite Hx.
    + intros Hx Hz. rewrite Hrun.
      destruct (String.eqb ext "xml") eqn:E; [apply String.eqb_eq in E; congruence |].
      unfold zip_read. cbn [to_string]. rewrite Hz. cbn [bind]. eauto.
    + intros bytes Hx Hz. split.
      * rewrite Hrun.
        destruct (String.eqb ext "xml") eqn:E;
          [apply String.eqb_eq in E; congruence |].
        unfold zip_read. cbn [to_string]. rewrite Hz. cbn [bind].
        now rewrite Base64Facts.base64ArrayBuffer_encode.
      * apply Base64Facts.decode_encode.
Qed.

(** An archive holding one file, and a slide context with the given archive
    and relationships, all other parts empty. *)
Definition archive_with (name : string) (bytes : list Byte.byte)
  : string -> option (list Byte.byte) :=
  fun n => if String.eqb n name then Some bytes else None.

Definition slide_context (archive : string -> option (list Byte.byte))
           (res : value) : warpObj := {|
  zip := archive;
  slideLayoutContent := Obj [];
  slideLayoutTables := Obj [("idTable", Obj []); ("idxTable", Obj []); ("typeTable", Obj [])];
  slideMasterContent := Obj [];
  slideMasterTables := Obj [("idTable", Obj []); ("idxTable", Obj []); ("typeTable", Obj [])];
  slideContent := Obj [];
  tableStyles := Obj [];
  slideResObj := res;
  slideMasterTextStyles := Undefined;
  layoutResObj := Obj [];
  masterResObj := Obj [];
  themeContent := Obj [];
  themeResObj := Obj [];
  digramFileContent := Obj [];
  diagramResObj := Obj [];
  defaultTextStyle := Undefined
|}.

Definition image_context : warpObj :=
  slide_context
    (archive_with "ppt/media/image1.png" [Byte.x4d; Byte.x61; Byte.x6e])
    (Obj [("rId2", Obj [("type", Str "image");
                        ("target", Str "ppt/media/image1.png")])]).

Lemma getPicFill_of_slide_witness :
  getPicFill (Str "slide")
             (Obj [("a:blip", Obj [("attrs", Obj [("r:embed", Str "rId2")])])])
             image_context
  = Ok (Str "data:image/png;base64,TWFu").
Proof.
  destruct (getPicFill_of_slide
              (Obj [("a:blip", Obj [("attrs", Obj [("r:embed", Str "rId2")])])])
              "rId2" image_context eq_refl) as [_ Hres].
  destruct (Hres "ppt/media/image1.png" eq_refl) as (_ & _ & Hdata);
    [discriminate |].
  destruct (Hdata [Byte.x4d; Byte.x61; Byte.x6e]) as [Hurl _];
    [discriminate | reflexivity | exact Hurl].
Defined.

(** ** [getSolidFill] *)

Lemma modifier_absent (fields : list (string * value)) (name : string) :
  lookup fields name = Undefined -> modifier (Obj fields) name = nan.
Proof.
  intros Hm. unfold modifier, getTextByPathList. cbn [truthy path_loop prop].
  rewrite Hm. reflexivity.
Qed.

Definition modifiers : list string :=
  ["a:alpha"; "a:hueMod"; "a:lumMod"; "a:lumOff"; "a:satMod"; "a:shade"; "a:tint"].

Section SolidFill.

Context {H : Helpers}.

Lemma srgbClr_without_modifiers (solidFill fields attrs : list (string * value))
      (v : string) (clrMap phClr : value) (w : warpObj) :
  lookup solidFill "a:srgbClr" = Obj fields ->
  lookup fields "attrs" = Obj attrs ->
  lookup attrs "val" = Str v ->
  v <> "" ->
  Forall (fun m => lookup fields m = Undefined) modifiers ->
  getSolidFill (Obj solidFill) clrMap phClr w
    = Ok (Str (if contains "#" v then v else "#" ++ v)).
Proof.
  intros Hclr Hattrs Hval Hv Hmods.
  assert (Htruthy : truthy (Str v) = true).
  { cbn [truthy]. destruct (String.eqb v "") eqn:E; [| reflexivity].
    apply String.eqb_eq in E. congruence. }
  unfold modifiers in Hmods.
  repeat match goal with
         | Hf : Forall _ (_ :: _) |- _ => inversion Hf; subst; clear Hf
         end.
  unfold getSolidFill. cbn [truthy negb prop]. rewrite Hclr. cbn [truthy bind].
  rewrite !modifier_absent by assumption.
  change (isNaN nan) with true. cbn [negb bind].
  assert (Hread : getTextByPathList (Obj fields) ["attrs"; "val"] = Str v).
  { unfold getTextByPathList. cbn [truthy path_loop prop].
    rewrite Hattrs. cbn [truthy prop]. rewrite Hval. now rewrite Htruthy. }
  rewrite Hread, Htruthy. cbn [as_string bind].
  now destruct (contains "#" v).
Qed.

(** X9.  For an [a:srgbClr] colour without [a:alpha], [a:hueMod], [a:lumMod],
    [a:lumOff], [a:satMod], [a:shade] and [a:tint] children, [getSolidFill]
    returns the [val] attribute with [#] in front (as it is when it holds a
    [#] already), whatever the colour map, the placeholder colour and the
    other colour children are, and calls no colour helper; a missing fill
    and a fill without colour child give the empty string. *)
Theorem getSolidFill_plain_srgbClr (solidFill fields attrs : list (string * value))
        (v : string) (clrMap phClr : value) (w : warpObj) :
  lookup solidFill "a:srgbClr" = Obj fields ->
  lookup fields "attrs" = Obj attrs ->
  lookup attrs "val" = Str v ->
  v <> "" ->
  Forall (fun m => lookup fields m = Undefined) modifiers ->
  getSolidFill (Obj solidFill) clrMap phClr w
    = Ok (Str (if contains "#" v then v else "#" ++ v)) /\
  getSolidFill Undefined clrMap phClr w = Ok (Str "") /\
  getSolidFill (Obj []) clrMap phClr w = Ok (Str "").
Proof.
  intros Hclr Hattrs Hval Hv Hmods.
  split; [| split; reflexivity].
  exact (srgbClr_without_modifiers solidFill fields attrs v clrMap phClr w
           Hclr Hattrs Hval Hv Hmods).
Qed.

End SolidFill.

Definition empty_context : warpObj := slide_context (fun _ => None) (Obj []).

Lemma getSolidFill_plain_srgbClr_witness :
  getSolidFill (H := Facts.sample_helpers)
    (Obj [("a:srgbClr", Obj [("attrs", Obj [("val", Str "FF0000")])])])
    Undefined Undefined empty_context
  = Ok (Str "#FF0000").
Proof.
  destruct (getSolidFill_plain_srgbClr (H := Facts.sample_helpers)
              [("a:srgbClr", Obj [("attrs", Obj [("val", Str "FF0000")])])]
              [("attrs", Obj [("val", Str "FF0000")])]
              [("val", Str "FF0000")] "FF0000" Undefined Undefined empty_context)
    as [Hfill _];
    [reflexivity | reflexivity | reflexivity | discriminate
    | repeat constructor | exact Hfill].
Defined.

(** ** The dispatcher and the loops over children *)

(** The keys that [processNodesInSlide] handles. *)
Definition handled (nodeKey : string) : bool :=
  String.eqb nodeKey "p:sp" || String.eqb nodeKey "p:cxnSp"
  || String.eqb nodeKey "p:pic" || String.eqb nodeKey "p:graphicFrame"
  || String.eqb nodeKey "p:grpSp" || String.eqb nodeKey "mc:AlternateContent".

Definition nullish (v : value) : bool :=
  match v with
  | Undefined | Null => true
  | _ => false
  end.

Section Dispatcher.

Context {H : Helpers}.

Lemma dispatch_unhandled (group : value -> warpObj -> value -> result value)
      (nodeKey : string) (nodeValue : value) (w : warpObj) (source : value) :
  handled nodeKey = false -> dispatch group nodeKey nodeValue w source = Ok Undefined.
Proof.
  unfold handled, dispatch. intros Hk.
  repeat (apply orb_false_iff in Hk as [Hk ?]).
  now rewrite Hk, H0, H1, H2, H3, H4.
Qed.

Lemma map_result_undefined {A : Type} (items : list A) :
  map_result (fun _ => Ok Undefined) items = Ok (map (fun _ => Undefined) items).
Proof.
  induction items as [|x items IH]; [reflexivity |].
  cbn [map_result bind map]. now rewrite IH.
Qed.

Lemma filter_truthy_undefined {A : Type} (items : list A) :
  filter truthy (map (fun _ => Undefined) items) = [].
Proof. induction items as [|x items IH]; [reflexivity | exact IH]. Qed.

Lemma visit_unhandled (group : value -> warpObj -> value -> result value)
      (nodeKey : string) (v : value) (w : warpObj) (source : value) :
  handled nodeKey = false -> nullish v = false ->
  visit (fun k item => dispatch group k item w source) (nodeKey, v) = Ok [].
Proof.
  intros Hk Hv. unfold visit.
  destruct v; try discriminate Hv; cbn [constructor_is_Array bind];
    rewrite ?dispatch_unhandled by exact Hk; try reflexivity.
  replace (map_result (fun item => dispatch group nodeKey item w source) items)
    with (map_result (fun _ : value => Ok Undefined) items).
  - rewrite map_result_undefined. cbn [bind]. now rewrite filter_truthy_undefined.
  - clear Hv. induction items as [|x items IH]; [reflexivity |].
    cbn [map_result]. rewrite IH. now rewrite dispatch_unhandled.
Qed.


Lemma collect_unhandled (group : value -> warpObj -> value -> result value)
      (fields : list (string * value)) (w : warpObj) (source : value) :
  Forall (fun kv => handled (fst kv) = false -> nullish (snd kv) = false) fields ->
  collect (fun k item => dispatch group k item w source) fields
  = collect (fun k item => dispatch group k item w source)
            (filter (fun kv => handled (fst kv)) fields).
Proof.
  induction 1 as [|[k v] fields Hkv _ IH]; [reflexivity |].
  cbn [filter fst]. cbn [fst snd] in Hkv.
  destruct (handled k) eqn:Hk.
  - cbn [collect]. now rewrite IH.
  - cbn [collect]. rewrite (visit_unhandled group k v w source Hk (Hkv eq_refl)).
    cbn [bind]. rewrite IH.
    now destruct (collect _ (filter _ fields)).
Qed.

(** X10.  Children of a shape tree or of a group whose tag is not one of
    [p:sp], [p:cxnSp], [p:pic], [p:graphicFrame], [p:grpSp] and
    [mc:AlternateContent] (the attributes, [p:nvGrpSpPr], [p:grpSpPr], and
    tags unknown to the converter) give no element and no error: the
    elements of a slide, and those collected for a group, are the elements
    of the tree without these children. *)
Theorem unhandled_children_are_skipped (fuel : nat) (fields : list (string * value))
        (w : warpObj) (source : value) :
  Forall (fun kv => handled (fst kv) = false -> nullish (snd kv) = false) fields ->
  slide_elements fuel (Obj fields) w
    = slide_elements fuel (Obj (filter (fun kv => handled (fst kv)) fields)) w /\
  collect (fun k item => processNodesInSlide fuel k item w source) (entries (Obj fields))
    = collect (fun k item => processNodesInSlide fuel k item w source)
              (entries (Obj (filter (fun kv => handled (fst kv)) fields))).
Proof.
  intros Hfields. split.
  - unfold slide_elements, processNodesInSlide. cbn [entries].
    now apply collect_unhandled.
  - unfold processNodesInSlide. cbn [entries]. now apply collect_unhandled.
Qed.

(** ** Groups *)

Lemma emu_attr_missing (xfrmNode : value) (child attr : string) :
  prop xfrmNode child = Undefined ->
  emu_attr xfrmNode child attr
  = Throw (TypeError "Cannot read properties of undefined (reading 'attrs')").
Proof. intros Hc. unfold emu_attr. now rewrite Hc. Qed.

Lemma get_throws_TypeError (v : value) (key : string) (e : error) :
  get v key = Throw e -> exists msg, e = TypeError msg.
Proof. destruct v; cbn [get]; intros [= <-]; eauto. Qed.

Lemma emu_attr_throws_TypeError (xfrmNode : value) (child attr : string) (e : error) :
  emu_attr xfrmNode child attr = Throw e -> exists msg, e = TypeError msg.
Proof.
  unfold emu_attr.
  destruct (get (prop xfrmNode child) "attrs") as [attrs|e1] eqn:E1; cbn [bind].
  - destruct (get attrs attr) as [a|e2] eqn:E2; cbn [bind]; [discriminate |].
    intros [= <-]. eapply get_throws_TypeError; exact E2.
  - intros [= <-]. eapply get_throws_TypeError; exact E1.
Qed.

(** X11.  A group whose [a:xfrm] lacks one of [a:off], [a:chOff], [a:ext] and
    [a:chExt] is not converted with defaults: reading the missing child
    throws a TypeError, before any child of the group is processed. *)
Theorem group_with_incomplete_xfrm_throws (fuel : nat) (node : value) (w : warpObj)
        (source : value) (child : string) :
  let xfrmNode := getTextByPathList node ["p:grpSpPr"; "a:xfrm"] in
  truthy xfrmNode = true ->
  In child ["a:off"; "a:chOff"; "a:ext"; "a:chExt"] ->
  prop xfrmNode child = Undefined ->
  exists msg, processGroupSpNode (S fuel) node w source = Throw (TypeError msg).
Proof.
  intros xfrmNode Hx Hin Hmiss. cbn [processGroupSpNode]. fold xfrmNode.
  rewrite Hx. cbn [negb].
  assert (Hthrow : forall attr,
             emu_attr xfrmNode child attr
             = Throw (TypeError "Cannot read properties of undefined (reading 'attrs')"))
    by (intros attr; now apply emu_attr_missing).
  cbn [In] in Hin.
  repeat match goal with
         | |- context [emu_attr xfrmNode ?c ?a] =>
             let E := fresh "E" in
             destruct (emu_attr xfrmNode c a) as [?|?e] eqn:E;
             [cbn [bind]
             | cbn [bind]; apply emu_attr_throws_TypeError in E as [msg ->]; eauto]
         end.
  exfalso.
  destruct Hin as [<- | [<- | [<- | [<- | []]]]];
    match goal with
    | E : emu_attr xfrmNode ?c ?a = Ok _ |- _ =>
        rewrite (Hthrow a) in E; discriminate E
    end.
Qed.

End Dispatcher.

(** A shape tree with its attributes, its own properties and one group
    without frame. *)
Definition tree_with_unhandled : list (string * value) :=
  [ ("attrs", Obj []);
    ("p:nvGrpSpPr", Obj [("p:cNvPr", Obj [("attrs", Obj [("id", Str "1")])])]);
    ("p:grpSpPr", Obj []);
    ("p:grpSp", Obj []) ].

Lemma unhandled_children_are_skipped_witness :
  slide_elements (H := Facts.sample_helpers) 1 (Obj tree_with_unhandled) empty_context
  = slide_elements (H := Facts.sample_helpers) 1 (Obj [("p:grpSp", Obj [])])
                   empty_context.
Proof.
  destruct (unhandled_children_are_skipped (H := Facts.sample_helpers) 1
              tree_with_unhandled empty_context (Str "slide")) as [Hslide _];
    [repeat constructor | exact Hslide].
Defined.

(** A group whose frame has [a:off] and [a:ext] and lacks [a:chOff] and
    [a:chExt]. *)
Definition group_without_chOff : value :=
  Obj [ ("p:grpSpPr",
         Obj [ ("a:xfrm",
                Obj [ ("a:off", Obj [("attrs", Obj [("x", Str "0"); ("y", Str "0")])]);
                      ("a:ext", Obj [("attrs", Obj [("cx", Str "914400");
                                                    ("cy", Str "914400")])]) ]) ]) ].

Lemma group_with_incomplete_xfrm_throws_witness :
  exists msg,
    processGroupSpNode (H := Facts.sample_helpers) 1 group_without_chOff empty_context
                       (Str "slide")
    = Throw (TypeError msg).
Proof.
  apply (group_with_incomplete_xfrm_throws (H := Facts.sample_helpers) 0
           group_without_chOff empty_context (Str "slide") "a:chOff");
    [reflexivity | right; left; reflexivity | reflexivity].
Defined.

Lemma member_chain_cons (node v : value) (key : string) (path : list string) :
  member_chain node (key :: path) = Ok v ->
  exists a, get node key = Ok a /\ member_chain a path = Ok v.
Proof.
  unfold member_chain. cbn [fold_left bind].
  destruct (get node key) as [a|e]; [| rewrite member_chain_throw; discriminate].
  intros Hv. now exists a.
Qed.

Lemma member_chain_nil (node v : value) : member_chain node [] = Ok v -> node = v.
Proof. now intros [= ->]. Qed.

Section Shapes.

Context {H : Helpers}.

(** ** [processCxnSpNode] *)

(** X12.  A connector without placeholder is drawn by [genShape] with its
    name and without layout node, master node and type.  For a connector
    that is a placeholder the type is read under [p:nvSpPr], which a
    connector ([p:nvCxnSpPr]) does not have: the conversion throws. *)
Theorem processCxnSpNode_of_placeholder (node nv name ph : value) (w : warpObj) :
  get node "p:nvCxnSpPr" = Ok nv ->
  member_chain nv ["p:cNvPr"; "attrs"; "name"] = Ok name ->
  member_chain nv ["p:nvPr"; "p:ph"] = Ok ph ->
  (ph = Undefined ->
   processCxnSpNode node w = genShape node Undefined Undefined name Undefined w) /\
  (ph <> Undefined -> prop node "p:nvSpPr" = Undefined ->
   processCxnSpNode node w
   = Throw (TypeError "Cannot read properties of undefined (reading 'p:nvPr')")).
Proof.
  intros Hnv Hname Hph.
  apply member_chain_cons in Hname as (cNvPr & HcNvPr & Hname).
  apply member_chain_cons in Hname as (attrs & Hattrs & Hname).
  apply member_chain_cons in Hname as (name' & Hname' & Hname).
  apply member_chain_nil in Hname. subst name'.
  apply member_chain_cons in Hph as (nvPr & HnvPr & Hph).
  apply member_chain_cons in Hph as (ph' & Hph' & Hph).
  apply member_chain_nil in Hph. subst ph'.
  assert (Hnode : get node "p:nvSpPr" = Ok (prop node "p:nvSpPr"))
    by (destruct node; try discriminate Hnv; reflexivity).
  assert (Hrun : processCxnSpNode node w =
                 (type <- (match ph with
                           | Undefined => Ok Undefined
                           | _ =>
                               nvSpPr <- get node "p:nvSpPr" ;;
                               nvPr' <- get nvSpPr "p:nvPr" ;;
                               ph' <- get nvPr' "p:ph" ;;
                               attrs' <- get ph' "attrs" ;;
                               get attrs' "type"
                           end) ;;
                  genShape node Undefined Undefined name type w)).
  { unfold processCxnSpNode.
    rewrite Hnv. cbn [bind]. rewrite HcNvPr. cbn [bind]. rewrite Hattrs. cbn [bind].
    rewrite Hname'. cbn [bind]. rewrite HnvPr. cbn [bind]. rewrite Hph'.
    reflexivity. }
  split.
  - intros ->. exact Hrun.
  - intros Hp Hsp. rewrite Hrun, Hnode, Hsp.
    destruct ph; try reflexivity. congruence.
Qed.

(** ** [processPicNode] *)

(** X13.  A picture of a slide whose relationship resolves to a file of the
    archive, and which carries no video and no audio, is emitted as an
    element of type [image] whose [src] is a data URL: the MIME type of the
    lower-cased extension of the target, and as payload the base64 encoding
    of the file, which decodes to the bytes of the file. *)
Theorem processPicNode_image (node xfrmNode : value) (rid path : string)
        (bytes : list Byte.byte) (w : warpObj) :
  member_chain node ["p:blipFill"; "a:blip"; "attrs"; "r:embed"] = Ok (Str rid) ->
  member_chain (slideResObj w) [rid; "target"] = Ok (Str path) ->
  zip w path = Some bytes ->
  member_chain node ["p:spPr"; "a:xfrm"] = Ok xfrmNode ->
  truthy (getTextByPathList node ["p:nvPicPr"; "p:nvPr"; "a:videoFile"]) = false ->
  truthy (getTextByPathList node ["p:nvPicPr"; "p:nvPr"; "a:audioFile"]) = false ->
  exists element ext,
    processPicNode node w (Str "slide") = Ok element /\
    extractFileExtension (Str path) = Ok ext /\
    prop element "type" = Str "image" /\
    prop element "src"
      = Str ("data:" ++ getMimeType (toLowerCase ext) ++ ";base64,"
               ++ Base64.rfc4648_encode bytes) /\
    Base64.rfc4648_decode (Base64.rfc4648_encode bytes) = Some bytes.
Proof.
  intros Hrid Hres Hzip Hxfrm Hvideo Haudio.
  apply member_chain_cons in Hrid as (blipFill & HblipFill & Hrid).
  apply member_chain_cons in Hrid as (blip & Hblip & Hrid).
  apply member_chain_cons in Hrid as (attrs & Hattrs & Hrid).
  apply member_chain_cons in Hrid as (rid' & Hrid' & Hrid).
  apply member_chain_nil in Hrid. subst rid'.
  apply member_chain_cons in Hres as (res & Hres' & Hres).
  apply member_chain_cons in Hres as (target & Htarget & Hres).
  apply member_chain_nil in Hres. subst target.
  apply member_chain_cons in Hxfrm as (spPr & HspPr & Hxfrm).
  apply member_chain_cons in Hxfrm as (xfrm' & Hxfrm' & Hxfrm).
  apply member_chain_nil in Hxfrm. subst xfrm'.
  destruct (extractFileExtension (Str path)) as [ext|e] eqn:Hext;
    [| discriminate Hext].
  unfold processPicNode.
  change (is_str (Str "slide") "slideMasterBg") with false.
  change (is_str (Str "slide") "slideLayoutBg") with false. cbv iota.
  rewrite HblipFill. cbn [bind]. rewrite Hblip. cbn [bind]. rewrite Hattrs.
  cbn [bind]. rewrite Hrid'. cbn [bind to_string]. rewrite Hres'. cbn [bind].
  rewrite Htarget. cbn [bind]. rewrite Hext. cbn [bind].
  unfold zip_read. cbn [to_string]. rewrite Hzip. cbn [bind].
  rewrite HspPr. cbn [bind]. rewrite Hxfrm'. cbn [bind].
  rewrite Hvideo, Haudio. cbn [bind andb].
  eexists. exists ext. split; [reflexivity |]. split; [reflexivity |].
  split; [reflexivity |]. split.
  - cbn [prop lookup app String.eqb Ascii.eqb Bool.eqb].
    now rewrite Base64Facts.base64ArrayBuffer_encode.
  - apply Base64Facts.decode_encode.
Qed.

End Shapes.

(** A connector that is a placeholder. *)
Definition placeholder_connector : value :=
  Obj [ ("p:nvCxnSpPr",
         Obj [ ("p:cNvPr", Obj [("attrs", Obj [("id", Str "4");
                                               ("name", Str "Connector 3")])]);
               ("p:nvPr", Obj [("p:ph", Obj [("attrs", Obj [("type", Str "body")])])]) ]);
        ("p:spPr", Obj [("a:prstGeom", Obj [("attrs", Obj [("prst", Str "line")])])]) ].

Lemma processCxnSpNode_of_placeholder_witness :
  processCxnSpNode (H := Facts.sample_helpers) placeholder_connector empty_context
  = Throw (TypeError "Cannot read properties of undefined (reading 'p:nvPr')").
Proof.
  destruct (processCxnSpNode_of_placeholder (H := Facts.sample_helpers)
              placeholder_connector
              (prop placeholder_connector "p:nvCxnSpPr")
              (Str "Connector 3")
              (Obj [("attrs", Obj [("type", Str "body")])])
              empty_context eq_refl eq_refl eq_refl) as [_ Hthrow].
  apply Hthrow; [discriminate | reflexivity].
Defined.

(** A picture whose image is the relationship [rId2]. *)
Definition picture_frame : value :=
  Obj [ ("a:off", Obj [("attrs", Obj [("x", Str "0"); ("y", Str "0")])]);
        ("a:ext", Obj [("attrs", Obj [("cx", Str "914400"); ("cy", Str "914400")])]) ].

Definition picture_node : value :=
  Obj [ ("p:nvPicPr", Obj [("p:cNvPr", Obj [("attrs", Obj [("id", Str "5")])]);
                           ("p:nvPr", Obj [])]);
        ("p:blipFill", Obj [("a:blip", Obj [("attrs", Obj [("r:embed", Str "rId2")])])]);
        ("p:spPr", Obj [("a:xfrm", picture_frame)]) ].

Lemma processPicNode_image_witness :
  exists element ext,
    processPicNode (H := Facts.sample_helpers) picture_node image_context (Str "slide")
      = Ok element /\
    extractFileExtension (Str "ppt/media/image1.png") = Ok ext /\
    prop element "type" = Str "image" /\
    prop element "src"
      = Str ("data:" ++ getMimeType (toLowerCase ext) ++ ";base64,"
               ++ Base64.rfc4648_encode [Byte.x4d; Byte.x61; Byte.x6e]) /\
    Base64.rfc4648_decode (Base64.rfc4648_encode [Byte.x4d; Byte.x61; Byte.x6e])
      = Some [Byte.x4d; Byte.x61; Byte.x6e].
Proof.
  apply (processPicNode_image (H := Facts.sample_helpers) picture_node picture_frame
           "rId2" "ppt/media/image1.png" [Byte.x4d; Byte.x61; Byte.x6e]
           image_context); reflexivity.
Defined.

(** ** [indexNodes] *)

Definition skipped (key : string) : bool :=
  String.eqb key "p:nvGrpSpPr" || String.eqb key "p:grpSpPr".

(** The nodes that [indexNodes] visits, in the order of the loops: the
    children of the shape tree other than [p:nvGrpSpPr] and [p:grpSpPr], an
    array giving its elements. *)
Definition visited_nodes (fields : list (string * value)) : list value :=
  flat_map (fun kv => if skipped (fst kv) then []
                      else match snd kv with
                           | Arr items => items
                           | _ => [snd kv]
                           end)
           fields.

(** One node seen while looking for the key [k] at [path] under [p:nvSpPr]. *)
Definition keep_if_keyed (path : list string) (k : string) (found node : value)
  : value :=
  let key := getTextByPathList (prop node "p:nvSpPr") path in
  if truthy key && String.eqb (to_string key) k then node else found.

(** The last of the nodes whose attribute at [path] is the key [k];
    [undefined] when there is none. *)
Definition last_keyed (path : list string) (k : string) (nodes : list value) : value :=
  fold_left (keep_if_keyed path k) nodes Undefined.

Definition type_path : list string := ["p:nvPr"; "p:ph"; "attrs"; "type"].


Lemma lookup_set_field (fields : list (string * value)) (k k' : string) (v : value) :
  lookup (set_field fields k v) k'
  = if String.eqb k k' then v else lookup fields k'.
Proof.
  destruct (String.eqb k k') eqn:E.
  - apply String.eqb_eq in E. subst k'. apply Facts.lookup_set_field_same.
  - apply Facts.lookup_set_field_other. intros ->. now rewrite String.eqb_refl in E.
Qed.







(** A layout with two title placeholders and a picture. *)
Definition placeholder_shape (id type name : string) : value :=
  Obj [ ("p:nvSpPr",
         Obj [ ("p:cNvPr", Obj [("attrs", Obj [("id", Str id); ("name", Str name)])]);
               ("p:nvPr", Obj [("p:ph", Obj [("attrs", Obj [("type", Str type)])])]) ]) ].

Definition layout_tree : list (string * value) :=
  [ ("p:nvGrpSpPr", Obj []);
    ("p:grpSpPr", Obj []);
    ("p:sp", Arr [ placeholder_shape "2" "title" "Title 1";
                   placeholder_shape "3" "title" "Title 2" ]);
    ("p:pic", Obj [("p:nvPicPr", Obj [])]) ].



Example indexNodes_title :
  last_keyed type_path "title" (visited_nodes layout_tree)
  = placeholder_shape "3" "title" "Title 2".
Proof. reflexivity. Qed.

(** ** [getSlideBackgroundFill] *)

Section BackgroundShape.

Context {H : Helpers}.

Lemma getBgGradientFill_shape (bgPr phClr master g : value) (w : warpObj) :
  truthy bgPr = true ->
  getBgGradientFill bgPr phClr master w = Ok g ->
  exists rot colors, g = Obj [("rot", Num rot); ("colors", Arr colors)].
Proof.
  intros Hb. unfold getBgGradientFill. rewrite Hb.
  destruct (get (prop bgPr "a:gradFill") "a:gsLst") as [gsLstNode|e]; cbn [bind];
    [| discriminate].
  destruct (get gsLstNode "a:gs") as [gsLst|e]; cbn [bind]; [| discriminate].
  destruct (indexed_elements gsLst) as [stops|e]; cbn [bind]; [| discriminate].
  destruct (map_result _ stops) as [color_ary|e]; cbn [bind]; [| discriminate].
  destruct (truthy (prop (prop bgPr "a:gradFill") "a:lin")).
  - destruct (get _ "ang") as [ang|e]; cbn [bind]; [| discriminate].
    intros [= <-]. eauto.
  - cbn [bind]. intros [= <-]. eauto.
Qed.

Lemma getBgPicFill_shape (bgPr sorce pic : value) (w : warpObj) :
  getBgPicFill bgPr sorce w = Ok pic ->
  exists picBase64 opacity,
    pic = Obj [("picBase64", picBase64); ("opacity", Num opacity)].
Proof.
  unfold getBgPicFill.
  destruct (get bgPr "a:blipFill") as [blipFill|e]; cbn [bind]; [| discriminate].
  destruct (getPicFill sorce blipFill w) as [picBase64|e]; cbn [bind]; [| discriminate].
  destruct (get blipFill "a:blip") as [aBlipNode|e]; cbn [bind]; [| discriminate].
  intros [= <-]. eauto.
Qed.

(** X15.  Whenever [getSlideBackgroundFill] returns, the result is one of
    three forms: type [color] (with the fill colour, [#fff] when the slide
    sets none); type [gradient] with a value [{rot, colors}], [rot] a number
    and [colors] an array; type [image] with a value [{picBase64, opacity}],
    [opacity] a number.  The type is [gradient] or [image] only for a slide
    that has its own [p:bgPr]. *)
Theorem background_is_one_of_three (w : warpObj) (bg : value) :
  getSlideBackgroundFill w = Ok bg ->
  exists type value,
    bg = Obj [("type", Str type); ("value", value)] /\
    (type = "color"
     \/ (type = "gradient" /\
         exists rot colors, value = Obj [("rot", Num rot); ("colors", Arr colors)])
     \/ (type = "image" /\
         exists picBase64 opacity,
           value = Obj [("picBase64", picBase64); ("opacity", Num opacity)])) /\
    (type <> "color" ->
     truthy (getTextByPathList (slideContent w) ["p:sld"; "p:cSld"; "p:bg"; "p:bgPr"])
     = true).
Proof.
  unfold getSlideBackgroundFill. cbv zeta.
  set (bgPr := getTextByPathList (slideContent w) ["p:sld"; "p:cSld"; "p:bg"; "p:bgPr"]).
  destruct (truthy bgPr) eqn:Hb.
  - destruct (getFillType bgPr) as [bgFillTyp|e]; cbn [bind]; [| discriminate].
    destruct (String.eqb bgFillTyp "SOLID_FILL").
    { destruct (getSolidFill _ _ _ _) as [c|e]; cbn [bind]; [| discriminate].
      intros [= <-]. do 2 eexists. split; [reflexivity |]. split; [now left | easy]. }
    destruct (String.eqb bgFillTyp "GRADIENT_FILL").
    { destruct (getBgGradientFill bgPr Undefined _ w) as [g|e] eqn:Hg; cbn [bind];
        [| discriminate].
      destruct (getBgGradientFill_shape _ _ _ _ _ Hb Hg) as (rot & colors & ->).
      cbn [truthy bind]. intros [= <-]. do 2 eexists. split; [reflexivity |].
      split; [right; left; eauto | easy]. }
    destruct (String.eqb bgFillTyp "PIC_FILL").
    { destruct (getBgPicFill bgPr _ w) as [pic|e] eqn:Hp; cbn [bind]; [| discriminate].
      destruct (getBgPicFill_shape _ _ _ _ Hp) as (p & o & ->).
      intros [= <-]. do 2 eexists. split; [reflexivity |].
      split; [right; right; eauto | easy]. }
    cbn [bind]. intros [= <-]. do 2 eexists. split; [reflexivity |].
    split; [now left | easy].
  - assert (Hwhite : forall r : result (value * string),
               r = Ok (Str "#fff", "color") ->
               (bt <- r ;; let '(background, backgroundType) := bt in
                Ok (Obj [("type", Str backgroundType); ("value", background)]))
               = Ok bg ->
               exists type value,
                 bg = Obj [("type", Str type); ("value", value)] /\
                 (type = "color"
                  \/ (type = "gradient" /\
                      exists rot colors,
                        value = Obj [("rot", Num rot); ("colors", Arr colors)])
                  \/ (type = "image" /\
                      exists picBase64 opacity,
                        value = Obj [("picBase64", picBase64);
                                     ("opacity", Num opacity)])) /\
                 (type <> "color" -> false = true)).
    { intros r -> [= <-]. do 2 eexists. split; [reflexivity |].
      split; [now left | congruence]. }
    apply Hwhite. clear Hwhite Hb.
    repeat match goal with
           | |- context [if ?c then _ else _] => destruct c
           end; reflexivity.
Qed.

End BackgroundShape.
Definition gradient_stop (pos color : string) : value :=
  Obj [ ("attrs", Obj [("pos", Str pos)]);
        ("a:srgbClr", Obj [("attrs", Obj [("val", Str color)])]) ].

Definition gradient_slide : warpObj := {|
  zip := fun _ => None;
  slideLayoutContent := Obj [];
  slideLayoutTables := Obj [];
  slideMasterContent :=
    Obj [("p:sldMaster", Obj [("p:clrMap", Obj [("attrs", Obj [("bg1", Str "lt1")])])])];
  slideMasterTables := Obj [];
  slideContent :=
    Obj [("p:sld",
          Obj [("p:cSld",
                Obj [("p:bg",
                      Obj [("p:bgPr",
                            Obj [("a:gradFill",
                                  Obj [ ("a:gsLst",
                                         Obj [("a:gs",
                                               Arr [ gradient_stop "0" "FFFFFF";
                                                     gradient_stop "100000" "000000" ])]);
                                        ("a:lin",
                                         Obj [("attrs", Obj [("ang", Str "5400000")])]) ])])])])])];
  tableStyles := Obj [];
  slideResObj := Obj [];
  slideMasterTextStyles := Undefined;
  layoutResObj := Obj [];
  masterResObj := Obj [];
  themeContent := Obj [];
  themeResObj := Obj [];
  digramFileContent := Obj [];
  diagramResObj := Obj [];
  defaultTextStyle := Undefined
|}.

Definition gradient_background : value :=
  Obj [ ("type", Str "gradient");
        ("value",
         Obj [ ("rot", Num 180);
               ("colors",
                Arr [ Obj [("pos", Str "0%"); ("color", Str "#FFFFFF")];
                      Obj [("pos", Str "100%"); ("color", Str "#000000")] ]) ]) ].

Lemma background_is_one_of_three_witness :
  exists type value,
    gradient_background = Obj [("type", Str type); ("value", value)] /\
    (type = "color"
     \/ (type = "gradient" /\
         exists rot colors, value = Obj [("rot", Num rot); ("colors", Arr colors)])
     \/ (type = "image" /\
         exists picBase64 opacity,
           value = Obj [("picBase64", picBase64); ("opacity", Num opacity)])) /\
    (type <> "color" ->
     truthy (getTextByPathList (slideContent gradient_slide)
                               ["p:sld"; "p:cSld"; "p:bg"; "p:bgPr"])
     = true).
Proof.
  apply (background_is_one_of_three (H := Facts.sample_helpers) gradient_slide
           gradient_background).
  vm_compute. reflexivity.
Defined.

(** ** [getBgGradientFill] *)

Import Permutation Sorted.

(** The sort of the model on a list of any type, for stating how the sort
    of the records reads on their positions. *)
Fixpoint insert_by {A : Type} (gt : A -> A -> bool) (x : A) (rev_prefix : list A)
  : list A :=
  match rev_prefix with
  | [] => [x]
  | y :: r => if gt y x then y :: insert_by gt x r else x :: rev_prefix
  end.

Definition sort_by {A : Type} (gt : A -> A -> bool) (l : list A) : list A :=
  rev (fold_left (fun acc x => insert_by gt x acc) l []).

Lemma insert_by_map {A : Type} (cmp : value -> value -> bool) (f : A -> value)
      (gt : A -> A -> bool)
      (x : A) (acc : list A) :
  (forall y, In y acc -> cmp (f y) (f x) = gt y x) ->
  insert_sorted cmp (f x) (map f acc) = map f (insert_by gt x acc).
Proof.
  induction acc as [|y acc IH]; intros Hgt; [reflexivity |].
  cbn [map insert_sorted insert_by]. rewrite (Hgt y (or_introl eq_refl)).
  destruct (gt y x); [| reflexivity].
  cbn [map]. rewrite IH; [reflexivity |]. intros z Hz. apply Hgt. now right.
Qed.

Lemma insert_by_perm {A : Type} (gt : A -> A -> bool) (x : A) (acc : list A) :
  Permutation (insert_by gt x acc) (x :: acc).
Proof.
  induction acc as [|y acc IH]; [reflexivity |].
  cbn [insert_by]. destruct (gt y x); [| reflexivity].
  rewrite IH. apply perm_swap.
Qed.

Lemma fold_insert_by_perm {A : Type} (gt : A -> A -> bool) (l acc : list A) :
  Permutation (fold_left (fun acc x => insert_by gt x acc) l acc) (l ++ acc).
Proof.
  revert acc. induction l as [|x l IH]; intros acc; [reflexivity |].
  cbn [fold_left app]. rewrite IH, insert_by_perm. symmetry. apply Permutation_middle.
Qed.

Lemma fold_insert_by_map {A : Type} (cmp : value -> value -> bool) (f : A -> value)
      (gt : A -> A -> bool)
      (l acc : list A) :
  (forall x y, In x (l ++ acc) -> In y (l ++ acc) ->
               cmp (f y) (f x) = gt y x) ->
  fold_left (fun acc x => insert_sorted cmp x acc) (map f l) (map f acc)
  = map f (fold_left (fun acc x => insert_by gt x acc) l acc).
Proof.
  revert acc. induction l as [|x l IH]; intros acc Hgt; [reflexivity |].
  cbn [map fold_left]. rewrite (insert_by_map cmp f gt x acc).
  - apply IH. intros a b Ha Hb.
    apply Hgt.
    + apply (Permutation_in a (Permutation_app_head l (insert_by_perm gt x acc))) in Ha.
      apply (Permutation_in a (Permutation_sym (Permutation_middle l acc x))), Ha.
    + apply (Permutation_in b (Permutation_app_head l (insert_by_perm gt x acc))) in Hb.
      apply (Permutation_in b (Permutation_sym (Permutation_middle l acc x))), Hb.
  - intros y Hy. apply Hgt; cbn [app]; [now left | right; apply in_or_app; now right].
Qed.

Lemma sort_map {A : Type} (cmp : value -> value -> bool) (f : A -> value)
      (gt : A -> A -> bool) (l : list A) :
  (forall x y, In x l -> In y l -> cmp (f y) (f x) = gt y x) ->
  Pptx.sort cmp (map f l) = map f (sort_by gt l).
Proof.
  intros Hgt. unfold Pptx.sort, sort_by.
  change (@nil value) with (map f []).
  rewrite (fold_insert_by_map cmp f gt l []), map_rev; [reflexivity |].
  rewrite app_nil_r. exact Hgt.
Qed.

(** Insertion keeps a list that descends from its head descending. *)
Lemma insert_by_descending {A : Type} (key : A -> Z) (x : A) (acc : list A) :
  StronglySorted (fun a b => (key b <= key a)%Z) acc ->
  StronglySorted (fun a b => (key b <= key a)%Z)
                 (insert_by (fun a b => (key b <? key a)%Z) x acc).
Proof.
  induction 1 as [|y acc Hs IH Hy]; [repeat constructor |].
  cbn [insert_by]. destruct (key x <? key y)%Z eqn:E.
  - apply Z.ltb_lt in E. constructor; [exact IH |].
    apply (Forall_forall _ _). intros z Hz.
    apply (Permutation_in z (insert_by_perm _ x acc)) in Hz.
    destruct Hz as [<- | Hz]; [lia |].
    rewrite Forall_forall in Hy. now apply Hy.
  - apply Z.ltb_ge in E. constructor; [now constructor |].
    constructor; [exact E |].
    rewrite Forall_forall in Hy |- *. intros z Hz. specialize (Hy z Hz). lia.
Qed.

Lemma ascending_snoc {A : Type} (key : A -> Z) (y : A) (r : list A) :
  StronglySorted (fun a b => (key a <= key b)%Z) r ->
  (forall z, In z r -> (key z <= key y)%Z) ->
  StronglySorted (fun a b => (key a <= key b)%Z) (r ++ [y]).
Proof.
  induction 1 as [|z r Hs IH Hz]; intros Hy; [repeat constructor |].
  cbn [app]. constructor.
  - apply IH. intros u Hu. apply Hy. now right.
  - apply Forall_app. split; [exact Hz |]. constructor; [| constructor].
    apply Hy. now left.
Qed.

Lemma rev_descending {A : Type} (key : A -> Z) (l : list A) :
  StronglySorted (fun a b => (key b <= key a)%Z) l ->
  StronglySorted (fun a b => (key a <= key b)%Z) (rev l).
Proof.
  induction 1 as [|y l Hs IH Hy]; [constructor |].
  cbn [rev]. apply ascending_snoc; [exact IH |].
  intros z Hz. apply in_rev in Hz. rewrite Forall_forall in Hy. now apply Hy.
Qed.

Lemma sort_by_position {A : Type} (key : A -> Z) (l : list A) :
  Permutation (sort_by (fun a b => (key b <? key a)%Z) l) l /\
  StronglySorted (fun a b => (key a <= key b)%Z)
                 (sort_by (fun a b => (key b <? key a)%Z) l).
Proof.
  unfold sort_by. split.
  - rewrite <- Permutation_rev, fold_insert_by_perm. now rewrite app_nil_r.
  - apply rev_descending.
    assert (Hd : forall acc,
               StronglySorted (fun a b => (key b <= key a)%Z) acc ->
               StronglySorted (fun a b => (key b <= key a)%Z)
                 (fold_left (fun acc x => insert_by (fun a b => (key b <? key a)%Z) x acc)
                            l acc)).
    { induction l as [|x l IH]; intros acc Hacc; [exact Hacc |].
      cbn [fold_left]. apply IH. now apply insert_by_descending. }
    apply Hd. constructor.
Qed.

(** A gradient stop of position [k] percent and colour [hex], and the record
    built for it. *)
Definition stop_of (kc : Z * string) : value :=
  gradient_stop (decimal (1000 * fst kc)) (snd kc).

Definition record_of (kc : Z * string) : value :=
  Obj [("pos", Str (decimal (fst kc) ++ "%")); ("color", Str ("#" ++ snd kc))].

Definition percent_text_ok (k : Z) : bool :=
  match add (Num (to_number (Str (decimal (1000 * k))) / 1000)%float) (Str "%") with
  | Str s => String.eqb s (decimal k ++ "%") && truthy (Str (decimal (1000 * k)))
  | _ => false
  end.

Definition percent_order_ok (a : Z) : bool :=
  forallb (fun b =>
             Bool.eqb (0 <? parseInt (Str (decimal a ++ "%"))
                            - parseInt (Str (decimal b ++ "%")))%float
                      (b <? a)%Z)
          (interval 0 101).

Lemma percent_text_checked : forallb percent_text_ok (interval 0 101) = true.
Proof. vm_compute. reflexivity. Qed.

Lemma percent_order_checked : forallb percent_order_ok (interval 0 101) = true.
Proof. vm_compute. reflexivity. Qed.

Lemma percent_text (k : Z) :
  (0 <= k <= 100)%Z ->
  truthy (Str (decimal (1000 * k))) = true /\
  add (Num (to_number (Str (decimal (1000 * k))) / 1000)%float) (Str "%")
  = Str (decimal k ++ "%").
Proof.
  intros Hk.
  assert (Hok : percent_text_ok k = true)
    by (apply (checked_on_interval percent_text_ok 0 101 percent_text_checked); lia).
  unfold percent_text_ok in Hok.
  destruct (add _ (Str "%")) as [| | | |s| |]; try discriminate Hok.
  apply andb_true_iff in Hok as [Hs Ht]. apply String.eqb_eq in Hs. now subst s.
Qed.

Lemma percent_order (a b : Z * string) :
  (0 <= fst a <= 100)%Z -> (0 <= fst b <= 100)%Z ->
  pos_after (record_of a) (record_of b) = (fst b <? fst a)%Z.
Proof.
  intros Ha Hb.
  assert (Hok : percent_order_ok (fst a) = true)
    by (apply (checked_on_interval percent_order_ok 0 101 percent_order_checked); lia).
  unfold percent_order_ok in Hok.
  pose proof (checked_on_interval _ 0 101 Hok (fst b)) as Hab.
  cbv beta in Hab. apply Bool.eqb_prop in Hab; [| lia].
  exact Hab.
Qed.

Section Gradient.

Context {H : Helpers}.

Lemma stop_record (kc : Z * string) (master clrMapAttrs phClr : value) (w : warpObj) :
  (0 <= fst kc <= 100)%Z -> snd kc <> "" -> contains "#" (snd kc) = false ->
  member_chain master ["p:sldMaster"; "p:clrMap"; "attrs"] = Ok clrMapAttrs ->
  (sldMaster <- get master "p:sldMaster" ;;
   clrMap <- get sldMaster "p:clrMap" ;;
   clrMapAttrs <- get clrMap "attrs" ;;
   lo_color <- getSolidFill (stop_of kc) clrMapAttrs phClr w ;;
   let pos := getTextByPathList (stop_of kc) ["attrs"; "pos"] in
   Ok (Obj [ ("pos", if truthy pos
                     then add (Num (to_number pos / 1000)%float) (Str "%")
                     else Str "");
             ("color", lo_color) ]))
  = Ok (record_of kc).
Proof.
  intros Hk Hhex Hsharp Hmaster.
  apply member_chain_cons in Hmaster as (sldMaster & HsldMaster & Hmaster).
  apply member_chain_cons in Hmaster as (clrMap & HclrMap & Hmaster).
  apply member_chain_cons in Hmaster as (attrs & Hattrs & Hmaster).
  apply member_chain_nil in Hmaster. subst attrs.
  rewrite HsldMaster. cbn [bind]. rewrite HclrMap. cbn [bind]. rewrite Hattrs.
  cbn [bind].
  unfold stop_of, gradient_stop.
  rewrite (srgbClr_without_modifiers _ [("attrs", Obj [("val", Str (snd kc))])]
             [("val", Str (snd kc))] (snd kc));
    [| reflexivity | reflexivity | reflexivity | exact Hhex | repeat constructor].
  cbn [bind]. rewrite Hsharp.
  change (getTextByPathList
            (Obj [("attrs", Obj [("pos", Str (decimal (1000 * fst kc)))]);
                  ("a:srgbClr", Obj [("attrs", Obj [("val", Str (snd kc))])])])
            ["attrs"; "pos"])
    with (if truthy (Str (decimal (1000 * fst kc)))
          then Str (decimal (1000 * fst kc)) else Str (decimal (1000 * fst kc))).
  destruct (percent_text (fst kc) Hk) as [Ht Hadd].
  rewrite Ht, Hadd. rewrite ?Ht. reflexivity.
Qed.

Lemma stop_records (l : list (Z * string)) (master clrMapAttrs phClr : value)
      (w : warpObj) :
  Forall (fun kc => (0 <= fst kc <= 100)%Z /\ snd kc <> ""
                    /\ contains "#" (snd kc) = false) l ->
  member_chain master ["p:sldMaster"; "p:clrMap"; "attrs"] = Ok clrMapAttrs ->
  map_result
    (fun gs =>
       sldMaster <- get master "p:sldMaster" ;;
       clrMap <- get sldMaster "p:clrMap" ;;
       clrMapAttrs <- get clrMap "attrs" ;;
       lo_color <- getSolidFill gs clrMapAttrs phClr w ;;
       let pos := getTextByPathList gs ["attrs"; "pos"] in
       Ok (Obj [ ("pos", if truthy pos
                         then add (Num (to_number pos / 1000)%float) (Str "%")
                         else Str "");
                 ("color", lo_color) ]))
    (map stop_of l)
  = Ok (map record_of l).
Proof.
  intros Hl Hmaster. induction Hl as [|kc l (Hk & Hhex & Hsharp) _ IH];
    [reflexivity |].
  pose proof (stop_record kc master clrMapAttrs phClr w Hk Hhex Hsharp Hmaster)
    as Hrec.
  cbn [map map_result]. cbv beta zeta in Hrec |- *. rewrite Hrec.
  cbn [bind]. cbv beta zeta in IH. rewrite IH. reflexivity.
Qed.

(** X16.  For a gradient background whose stops are an array of plain
    [a:srgbClr] colours at whole percents from 0 to 100 (positions 0, 1000,
    ..., 100000), and without [a:lin], [getBgGradientFill] returns the
    rotation 90 and the stops [{pos: 'k%', color: '#hex'}] sorted by
    position: a rearrangement of the stops of the document, none lost or
    repeated, in ascending order of their percents. *)
Theorem getBgGradientFill_sorted_stops (l : list (Z * string))
        (master clrMapAttrs phClr : value) (w : warpObj) :
  Forall (fun kc => (0 <= fst kc <= 100)%Z /\ snd kc <> ""
                    /\ contains "#" (snd kc) = false) l ->
  member_chain master ["p:sldMaster"; "p:clrMap"; "attrs"] = Ok clrMapAttrs ->
  exists sorted,
    Permutation sorted l /\
    StronglySorted (fun a b => (fst a <= fst b)%Z) sorted /\
    getBgGradientFill
      (Obj [("a:gradFill", Obj [("a:gsLst", Obj [("a:gs", Arr (map stop_of l))])])])
      phClr master w
    = Ok (Obj [("rot", Num 90); ("colors", Arr (map record_of sorted))]).
Proof.
  intros Hl Hmaster.
  exists (sort_by (fun a b => (fst b <? fst a)%Z) l).
  destruct (sort_by_position fst l) as [Hperm Hsorted].
  split; [exact Hperm |]. split; [exact Hsorted |].
  assert (Hrun :
    getBgGradientFill
      (Obj [("a:gradFill", Obj [("a:gsLst", Obj [("a:gs", Arr (map stop_of l))])])])
      phClr master w
    = (color_ary <-
         map_result
           (fun gs =>
              sldMaster <- get master "p:sldMaster" ;;
              clrMap <- get sldMaster "p:clrMap" ;;
              clrMapAttrs <- get clrMap "attrs" ;;
              lo_color <- getSolidFill gs clrMapAttrs phClr w ;;
              let pos := getTextByPathList gs ["attrs"; "pos"] in
              Ok (Obj [ ("pos", if truthy pos
                                then add (Num (to_number pos / 1000)%float) (Str "%")
                                else Str "");
                        ("color", lo_color) ]))
           (map stop_of l) ;;
       Ok (Obj [("rot", Num 90); ("colors", Arr (Pptx.sort pos_after color_ary))])))
    by reflexivity.
  rewrite Hrun, (stop_records l master clrMapAttrs phClr w Hl Hmaster). cbn [bind].
  rewrite (sort_map pos_after record_of (fun a b => (fst b <? fst a)%Z) l);
    [reflexivity |].
  intros x y Hx Hy. rewrite Forall_forall in Hl.
  apply percent_order; [apply (Hl y Hy) | apply (Hl x Hx)].
Qed.

End Gradient.

Definition three_stops : list (Z * string) :=
  [(100, "000000"); (0, "FFFFFF"); (50, "888888")]%Z.

Lemma getBgGradientFill_sorted_stops_witness :
  exists sorted,
    Permutation sorted three_stops /\
    StronglySorted (fun a b => (fst a <= fst b)%Z) sorted /\
    getBgGradientFill (H := Facts.sample_helpers)
      (Obj [("a:gradFill",
             Obj [("a:gsLst", Obj [("a:gs", Arr (map stop_of three_stops))])])])
      Undefined (slideMasterContent gradient_slide) gradient_slide
    = Ok (Obj [("rot", Num 90); ("colors", Arr (map record_of sorted))]).
Proof.
  apply (getBgGradientFill_sorted_stops (H := Facts.sample_helpers) three_stops
           (slideMasterContent gradient_slide) (Obj [("bg1", Str "lt1")]));
    [| reflexivity].
  repeat constructor; cbn; (lia || discriminate).
Defined.

Example sorted_three_stops :
  sort_by (fun a b => (fst b <? fst a)%Z) three_stops
  = [(0, "FFFFFF"); (50, "888888"); (100, "000000")]%Z.
Proof. reflexivity. Qed.

(** ** [genShape] and [processSpNode]: shape or text *)

Section Classification.

Context {H : Helpers}.

(** What [genShape] decides from the geometry and the type. *)
Definition is_custom (node type : value) : bool :=
  truthy (getTextByPathList node ["p:spPr"; "a:custGeom"])
  && negb (is_str type "diagram").

Definition is_preset (node type : value) : bool :=
  truthy (getTextByPathList node ["p:spPr"; "a:prstGeom"; "attrs"; "prst"])
  && (is_str type "obj" || negb (truthy type)).

Lemma genShape_kind (node l m name type element : value) (w : warpObj) :
  genShape node l m name type w = Ok element ->
  prop element "type"
  = Str (if is_custom node type || is_preset node type then "shape" else "text") /\
  prop element "name" = name /\
  (is_custom node type = true -> prop element "shapType" = Str "custom") /\
  (is_custom node type = false -> is_preset node type = true ->
   prop element "shapType"
   = getTextByPathList node ["p:spPr"; "a:prstGeom"; "attrs"; "prst"]).
Proof.
  unfold genShape, is_custom, is_preset. cbv zeta.
  destruct (get node "p:txBody") as [txBody|e]; cbn [bind]; [| discriminate].
  destruct (if truthy txBody then _ else _) as [content|e]; cbn [bind];
    [| discriminate].
  destruct (getBorder node type w) as [border|e]; cbn [bind]; [| discriminate].
  destruct (get border "borderColor") as [borderColor|e]; cbn [bind];
    [| discriminate].
  destruct (getShapeFill node Undefined w) as [fill|e]; cbn [bind]; [| discriminate].
  destruct (getSlideBackgroundFill w) as [gradientFill|e]; cbn [bind];
    [| discriminate].
  destruct (if truthy (getTextByPathList node _) then _ else _) as [shadow|e];
    cbn [bind]; [| discriminate].
  destruct (getVerticalAlign node l m type) as [vAlign|e]; cbn [bind];
    [| discriminate].
  destruct (truthy (getTextByPathList node ["p:spPr"; "a:custGeom"])
            && negb (is_str type "diagram")) eqn:Hc.
  - destruct (get _ "cx") as [cx|e]; cbn [bind]; [| discriminate].
    destruct (getCustomShapePath _ _ _) as [d|e]; cbn [bind]; [| discriminate].
    intros [= <-]. cbn [orb].
    destruct (truthy shadow); repeat split; try reflexivity; discriminate.
  - cbn [orb].
    destruct (truthy (getTextByPathList node ["p:spPr"; "a:prstGeom"; "attrs"; "prst"])
              && (is_str type "obj" || negb (truthy type))) eqn:Hp.
    + intros [= <-].
      destruct (truthy shadow); repeat split; try reflexivity; discriminate.
    + intros [= <-].
      destruct (truthy shadow); repeat split; try reflexivity; discriminate.
Qed.

Definition ph_type_path : list string :=
  ["p:nvSpPr"; "p:nvPr"; "p:ph"; "attrs"; "type"].
Definition ph_idx_path : list string :=
  ["p:nvSpPr"; "p:nvPr"; "p:ph"; "attrs"; "idx"].
Definition txBox_path : list string := ["p:nvSpPr"; "p:cNvSpPr"; "attrs"; "txBox"].
Definition prst_path : list string := ["p:spPr"; "a:prstGeom"; "attrs"; "prst"].
Definition custGeom_path : list string := ["p:spPr"; "a:custGeom"].

Lemma processSpNode_placeholder (node element : value) (w : warpObj) (source : value) :
  truthy (getTextByPathList node ph_type_path) = true ->
  processSpNode node w source = Ok element ->
  exists l m,
    genShape node l m (getTextByPathList node ["p:nvSpPr"; "p:cNvPr"; "attrs"; "name"])
             (getTextByPathList node ph_type_path) w
    = Ok element.
Proof.
  unfold processSpNode, ph_type_path. cbv zeta. intros Ht. rewrite Ht.
  destruct (get (slideLayoutTables w) "typeTable") as [lt|e]; cbn [bind];
    [| discriminate].
  destruct (get lt _) as [l|e]; cbn [bind]; [| discriminate].
  destruct (get (slideMasterTables w) "typeTable") as [mt|e]; cbn [bind];
    [| discriminate].
  destruct (get mt _) as [m|e]; cbn [bind]; [| discriminate].
  cbv beta iota delta [negb].
  repeat (rewrite Ht; cbv beta iota delta [negb]). intros Hrun. now exists l, m.
Qed.

Lemma processSpNode_plain (node element : value) (w : warpObj) (source : value) :
  truthy (getTextByPathList node ph_type_path) = false ->
  truthy (getTextByPathList node ph_idx_path) = false ->
  processSpNode node w source = Ok element ->
  genShape node Undefined Undefined
           (getTextByPathList node ["p:nvSpPr"; "p:cNvPr"; "attrs"; "name"])
           (if is_str (getTextByPathList node txBox_path) "1" then Str "text"
            else if is_str source "diagramBg" then Str "diagram" else Str "obj") w
  = Ok element.
Proof.
  unfold processSpNode, ph_type_path, ph_idx_path, txBox_path. cbv zeta.
  intros Ht Hi. rewrite Ht, Hi. cbv beta iota delta [bind negb].
  destruct (is_str (getTextByPathList node _) "1").
  - change (truthy (Str "text")) with true. cbv beta iota. exact (fun Hg => Hg).
  - rewrite Ht. cbv beta iota.
    change (getTextByPathList Undefined ["p:nvSpPr"; "p:nvPr"; "p:ph"; "attrs"; "type"])
      with Undefined.
    change (truthy Undefined) with false. cbv beta iota. exact (fun Hg => Hg).
Qed.

(** X17.  Whether a [p:sp] is emitted as a shape or as a text, without custom
    geometry: a placeholder (its own [p:ph] has a type, other than [obj]) is
    a text, whatever its preset geometry; so is a text box ([txBox="1"])
    that is no placeholder; a node that is neither, on a slide, is a shape
    with its preset geometry as [shapType] when it has one, and a text when
    it has none.  In each case the element carries the name of the node. *)
Theorem processSpNode_shape_or_text (node element : value) (w : warpObj) :
  processSpNode node w (Str "slide") = Ok element ->
  truthy (getTextByPathList node custGeom_path) = false ->
  let type := getTextByPathList node ph_type_path in
  let idx := getTextByPathList node ph_idx_path in
  let txBox := is_str (getTextByPathList node txBox_path) "1" in
  let prst := getTextByPathList node prst_path in
  prop element "name"
    = getTextByPathList node ["p:nvSpPr"; "p:cNvPr"; "attrs"; "name"] /\
  (truthy type = true -> is_str type "obj" = false ->
   prop element "type" = Str "text") /\
  (truthy type = false -> truthy idx = false -> txBox = true ->
   prop element "type" = Str "text") /\
  (truthy type = false -> truthy idx = false -> txBox = false ->
   prop element "type" = Str (if truthy prst then "shape" else "text") /\
   (truthy prst = true -> prop element "shapType" = prst)).
Proof.
  intros Hrun Hcust type idx txBox prst.
  unfold custGeom_path in Hcust.
  assert (Hname : prop element "name"
                  = getTextByPathList node ["p:nvSpPr"; "p:cNvPr"; "attrs"; "name"]).
  { destruct (truthy type) eqn:Ht.
    - destruct (processSpNode_placeholder _ _ _ _ Ht Hrun) as (l & m & Hg).
      now apply genShape_kind in Hg.
    - destruct (truthy idx) eqn:Hi.
      + revert Hrun. unfold processSpNode. cbv zeta.
        fold ph_type_path ph_idx_path. fold type idx. rewrite Ht, Hi.
        destruct (get (slideLayoutTables w) "idxTable") as [lt|e]; cbn [bind];
          [| discriminate].
        destruct (get lt _) as [l|e]; cbn [bind]; [| discriminate].
        destruct (get (slideMasterTables w) "idxTable") as [mt|e]; cbn [bind];
          [| discriminate].
        destruct (get mt _) as [m|e]; cbn [bind]; [| discriminate].
        intros Hg. now apply genShape_kind in Hg.
      + pose proof (processSpNode_plain _ _ _ _ Ht Hi Hrun) as Hg.
        now apply genShape_kind in Hg. }
  split; [exact Hname |]. split; [| split].
  - intros Ht Hobj.
    destruct (processSpNode_placeholder _ _ _ _ Ht Hrun) as (l & m & Hg).
    apply genShape_kind in Hg as (Hkind & _).
    rewrite Hkind. unfold is_custom, is_preset. fold type.
    now rewrite Hcust, Hobj, Ht, !andb_false_r.
  - intros Ht Hi Hbox.
    pose proof (processSpNode_plain _ _ _ _ Ht Hi Hrun) as Hg.
    fold txBox in Hg. rewrite Hbox in Hg.
    apply genShape_kind in Hg as (Hkind & _).
    rewrite Hkind. unfold is_custom, is_preset.
    rewrite Hcust. cbn. now rewrite andb_false_r.
  - intros Ht Hi Hbox.
    pose proof (processSpNode_plain _ _ _ _ Ht Hi Hrun) as Hg.
    fold txBox in Hg. rewrite Hbox in Hg.
    change (is_str (Str "slide") "diagramBg") with false in Hg. cbv iota in Hg.
    apply genShape_kind in Hg as (Hkind & _ & _ & Hprst).
    unfold is_custom, is_preset in Hkind, Hprst. fold prst_path in Hkind, Hprst.
    fold prst in Hkind, Hprst. rewrite Hcust in Hkind, Hprst.
    cbn [andb orb is_str String.eqb Ascii.eqb Bool.eqb] in Hkind, Hprst.
    rewrite andb_true_r in Hkind, Hprst.
    split; [exact Hkind |]. intros Hp. apply Hprst; [reflexivity | exact Hp].
Qed.

End Classification.

(** A text box with a rectangle as preset geometry. *)
Definition text_box_node : value :=
  Obj [ ("p:nvSpPr",
         Obj [ ("p:cNvPr", Obj [("attrs", Obj [("id", Str "6");
                                               ("name", Str "TextBox 5")])]);
               ("p:cNvSpPr", Obj [("attrs", Obj [("txBox", Str "1")])]);
               ("p:nvPr", Obj []) ]);
        ("p:spPr",
         Obj [ ("a:xfrm", picture_frame);
               ("a:prstGeom", Obj [("attrs", Obj [("prst", Str "rect")])]) ]) ].

Definition text_box_element : value :=
  Eval vm_compute in
    match processSpNode (H := Facts.sample_helpers) text_box_node empty_context
                        (Str "slide") with
    | Ok element => element
    | Throw _ => Undefined
    end.

Lemma processSpNode_shape_or_text_witness :
  prop text_box_element "name" = Str "TextBox 5" /\
  prop text_box_element "type" = Str "text".
Proof.
  pose proof (processSpNode_shape_or_text (H := Facts.sample_helpers)
                text_box_node text_box_element empty_context) as Hkind.
  cbv zeta in Hkind.
  destruct Hkind as (Hname & _ & Hbox & _);
    [vm_compute; reflexivity | reflexivity |].
  split; [exact Hname | apply Hbox; reflexivity].
Defined.

(** ** [getContentTypes] *)

Definition slide_name (n : Z) : string := "ppt/slides/slide" ++ decimal n ++ ".xml".

Definition slideLayout_name (n : Z) : string :=
  "ppt/slideLayouts/slideLayout" ++ decimal n ++ ".xml".

(** An [Override] element. *)
Definition override (contentType partName : string) : value :=
  Obj [("attrs", Obj [("PartName", Str partName); ("ContentType", Str contentType)])].

(** The parts that [[Content_Types].xml] declares: slides and slide layouts
    by their numbers, and parts of other content types. *)
Inductive part : Type :=
| SlidePart (n : Z)
| LayoutPart (n : Z)
| OtherPart (contentType partName : string).

Definition override_of (p : part) : value :=
  match p with
  | SlidePart n => override slide_content_type ("/" ++ slide_name n)
  | LayoutPart n => override slideLayout_content_type ("/" ++ slideLayout_name n)
  | OtherPart contentType partName => override contentType partName
  end.

Definition slides_of (parts : list part) : list Z :=
  flat_map (fun p => match p with SlidePart n => [n] | _ => [] end) parts.

Definition layouts_of (parts : list part) : list Z :=
  flat_map (fun p => match p with LayoutPart n => [n] | _ => [] end) parts.

Definition well_formed (p : part) : Prop :=
  match p with
  | SlidePart n | LayoutPart n => (0 <= n < 300)%Z
  | OtherPart contentType _ =>
      contentType <> slide_content_type /\ contentType <> slideLayout_content_type
  end.

Definition has_number (name : string) (n : Z) : bool :=
  match digits_before_xml name with
  | Some _ => PrimFloat.Leibniz.eqb (part_number (Str name)) (Z2float n)
  | None => false
  end.

Definition names_ok (n : Z) : bool :=
  has_number (slide_name n) n && has_number (slideLayout_name n) n.

Definition numbers_order_ok (a : Z) : bool :=
  forallb (fun b => Bool.eqb (0 <? Z2float a - Z2float b)%float (b <? a)%Z)
          (interval 0 300).

Lemma names_checked : forallb names_ok (interval 0 300) = true.
Proof. vm_compute. reflexivity. Qed.

Lemma numbers_order_checked : forallb numbers_order_ok (interval 0 300) = true.
Proof. vm_compute. reflexivity. Qed.

Lemma has_number_spec (name : string) (n : Z) :
  has_number name n = true ->
  (exists digits, digits_before_xml name = Some digits) /\
  part_number (Str name) = Z2float n.
Proof.
  unfold has_number. destruct (digits_before_xml name) as [digits|] eqn:E;
    [| discriminate].
  intros Hn. split; [eauto | now apply FloatAxioms.Leibniz.eqb_spec].
Qed.

Lemma names_numbered (n : Z) :
  (0 <= n < 300)%Z ->
  has_number (slide_name n) n = true /\ has_number (slideLayout_name n) n = true.
Proof.
  intros Hn. apply andb_true_iff.
  apply (checked_on_interval names_ok 0 300 names_checked). lia.
Qed.

Lemma numbers_order (a b : Z) :
  (0 <= a < 300)%Z -> (0 <= b < 300)%Z ->
  (0 <? Z2float a - Z2float b)%float = (b <? a)%Z.
Proof.
  intros Ha Hb.
  assert (Hok : numbers_order_ok a = true)
    by (apply (checked_on_interval numbers_order_ok 0 300 numbers_order_checked); lia).
  pose proof (checked_on_interval _ 0 300 Hok b) as Hab.
  cbv beta in Hab. apply Bool.eqb_prop in Hab; [exact Hab | lia].
Qed.

(** The sort of part names that carry the numbers [ns]. *)
Lemma sort_parts_numbered (name : Z -> string) (ns : list Z) :
  (forall n, (0 <= n < 300)%Z -> has_number (name n) n = true) ->
  Forall (fun n => (0 <= n < 300)%Z) ns ->
  sort_parts (map name ns)
  = Ok (map (fun n => Str (name n)) (sort_by (fun a b => (b <? a)%Z) ns)).
Proof.
  intros Hname Hns. unfold sort_parts.
  assert (Hall : existsb (fun p => match digits_before_xml p with
                                   | Some _ => false
                                   | None => true
                                   end) (map name ns) = false).
  { induction Hns as [|n ns Hn _ IH]; [reflexivity |].
    cbn [map existsb]. rewrite IH, orb_false_r.
    destruct (has_number_spec _ _ (Hname n Hn)) as [[digits ->] _]. reflexivity. }
  rewrite Hall, andb_false_r.
  rewrite <- (sort_map sortSlideXml_after (fun n => Str (name n))
                       (fun a b => (b <? a)%Z) ns).
  - now rewrite map_map.
  - rewrite Forall_forall in Hns. intros x y Hx Hy.
    unfold sortSlideXml_after.
    destruct (has_number_spec _ _ (Hname y (Hns y Hy))) as [_ ->].
    destruct (has_number_spec _ _ (Hname x (Hns x Hx))) as [_ ->].
    apply numbers_order; [apply (Hns y Hy) | apply (Hns x Hx)].
Qed.

Lemma collect_parts_of (parts : list part) (slides layouts : list string) :
  Forall well_formed parts ->
  collect_parts (map override_of parts) slides layouts
  = Ok (slides ++ map slide_name (slides_of parts),
        layouts ++ map slideLayout_name (layouts_of parts))%list.
Proof.
  intros Hparts. revert slides layouts.
  induction Hparts as [|p parts Hp _ IH]; intros slides layouts.
  - cbn. now rewrite !app_nil_r.
  - destruct p as [n|n|contentType partName].
    + change (collect_parts (map override_of (SlidePart n :: parts)) slides layouts)
        with (collect_parts (map override_of parts) (slides ++ [slide_name n]) layouts).
      rewrite IH. cbn [slides_of layouts_of flat_map map app].
      now rewrite <- app_assoc.
    + change (collect_parts (map override_of (LayoutPart n :: parts)) slides layouts)
        with (collect_parts (map override_of parts) slides
                            (layouts ++ [slideLayout_name n])).
      rewrite IH. cbn [slides_of layouts_of flat_map map app].
      now rewrite <- app_assoc.
    + destruct Hp as [Hs Hl].
      cbn [map override_of collect_parts]. unfold override at 1.
      cbn [get prop lookup String.eqb Ascii.eqb Bool.eqb bind is_str].
      destruct (String.eqb contentType slide_content_type) eqn:Es;
        [apply String.eqb_eq in Es; congruence |].
      destruct (String.eqb contentType slideLayout_content_type) eqn:El;
        [apply String.eqb_eq in El; congruence |].
      apply IH.
Qed.

Lemma numbers_bounded (parts : list part) :
  Forall well_formed parts ->
  Forall (fun n => (0 <= n < 300)%Z) (slides_of parts) /\
  Forall (fun n => (0 <= n < 300)%Z) (layouts_of parts).
Proof.
  induction 1 as [|p parts Hp _ [IHs IHl]]; [split; constructor |].
  destruct p; cbn [slides_of layouts_of flat_map app]; split;
    try assumption; constructor; assumption.
Qed.

(** X18.  For a content-type list whose [Override] elements are an array
    declaring slides and slide layouts numbered below 300 (parts
    [/ppt/slides/slide<n>.xml] and [/ppt/slideLayouts/slideLayout<n>.xml]) and
    parts of other types, [getContentTypes] returns the slide paths and the
    layout paths, without the leading slash, each sorted by the number in
    the name ([slide2] before [slide10]): a rearrangement of the declared
    numbers in ascending order.  Parts of other content types are left
    out. *)
Theorem getContentTypes_orders_by_number (parts : list part) :
  Forall well_formed parts ->
  exists slides layouts,
    Permutation slides (slides_of parts) /\
    StronglySorted Z.le slides /\
    Permutation layouts (layouts_of parts) /\
    StronglySorted Z.le layouts /\
    getContentTypes (Obj [("Types", Obj [("Override", Arr (map override_of parts))])])
    = Ok (Obj [ ("slides", Arr (map (fun n => Str (slide_name n)) slides));
                ("slideLayouts",
                 Arr (map (fun n => Str (slideLayout_name n)) layouts)) ]).
Proof.
  intros Hparts.
  exists (sort_by (fun a b => (b <? a)%Z) (slides_of parts)),
         (sort_by (fun a b => (b <? a)%Z) (layouts_of parts)).
  destruct (sort_by_position (fun n => n) (slides_of parts)) as [Hps Hss].
  destruct (sort_by_position (fun n => n) (layouts_of parts)) as [Hpl Hsl].
  repeat split; try assumption.
  destruct (numbers_bounded parts Hparts) as [Hbs Hbl].
  unfold getContentTypes.
  cbn [get prop lookup String.eqb Ascii.eqb Bool.eqb bind iterate].
  rewrite (collect_parts_of parts [] [] Hparts). cbn [bind app].
  rewrite (sort_parts_numbered slide_name (slides_of parts)
             (fun n Hn => proj1 (names_numbered n Hn)) Hbs).
  cbn [bind].
  rewrite (sort_parts_numbered slideLayout_name (layouts_of parts)
             (fun n Hn => proj2 (names_numbered n Hn)) Hbl).
  reflexivity.
Qed.

Definition declared_parts : list part :=
  [ SlidePart 10; OtherPart "application/xml" "/ppt/presentation.xml";
    SlidePart 2; LayoutPart 1; SlidePart 1 ].

Lemma getContentTypes_orders_by_number_witness :
  exists slides layouts,
    Permutation slides (slides_of declared_parts) /\
    StronglySorted Z.le slides /\
    Permutation layouts (layouts_of declared_parts) /\
    StronglySorted Z.le layouts /\
    getContentTypes
      (Obj [("Types", Obj [("Override", Arr (map override_of declared_parts))])])
    = Ok (Obj [ ("slides", Arr (map (fun n => Str (slide_name n)) slides));
                ("slideLayouts",
                 Arr (map (fun n => Str (slideLayout_name n)) layouts)) ]).
Proof.
  apply (getContentTypes_orders_by_number declared_parts).
  repeat constructor; cbn; (lia || discriminate).
Defined.

Example declared_slides_sorted :
  sort_by (fun a b => (b <? a)%Z) (slides_of declared_parts) = [1; 2; 10]%Z.
Proof. reflexivity. Qed.

(** ** The recursion through nested groups *)

(** The nesting depth of a value. *)
Fixpoint depth (v : value) : nat :=
  match v with
  | Arr items =>
      S ((fix deepest (l : list value) : nat :=
            match l with
            | [] => O
            | x :: l' => Nat.max (depth x) (deepest l')
            end) items)
  | Obj fields =>
      S ((fix deepest (l : list (string * value)) : nat :=
            match l with
            | [] => O
            | (_, x) :: l' => Nat.max (depth x) (deepest l')
            end) fields)
  | _ => O
  end.













Section Fuel.

Context {H : Helpers}.





End Fuel.

(** A slide holding a group within a group. *)
Definition unit_frame : value :=
  Obj [ ("a:off", Obj [("attrs", Obj [("x", Str "0"); ("y", Str "0")])]);
        ("a:ext", Obj [("attrs", Obj [("cx", Str "914400"); ("cy", Str "914400")])]);
        ("a:chOff", Obj [("attrs", Obj [("x", Str "0"); ("y", Str "0")])]);
        ("a:chExt", Obj [("attrs", Obj [("cx", Str "914400"); ("cy", Str "914400")])]) ].

Definition nested_groups : value :=
  Obj [ ("p:grpSpPr", Obj [("a:xfrm", unit_frame)]);
        ("p:grpSp", Obj [ ("p:grpSpPr", Obj [("a:xfrm", unit_frame)]);
                          ("p:grpSp", Obj [("p:grpSpPr", Obj [("a:xfrm", unit_frame)])]) ]) ].

Definition nested_slide : warpObj := {|
  zip := fun _ => None;
  slideLayoutContent := Obj [];
  slideLayoutTables := Obj [];
  slideMasterContent := Obj [];
  slideMasterTables := Obj [];
  slideContent :=
    Obj [("p:sld", Obj [("p:cSld", Obj [("p:spTree", Obj [("p:grpSp", nested_groups)])])])];
  tableStyles := Obj [];
  slideResObj := Obj [];
  slideMasterTextStyles := Undefined;
  layoutResObj := Obj [];
  masterResObj := Obj [];
  themeContent := Obj [];
  themeResObj := Obj [];
  digramFileContent := Obj [];
  diagramResObj := Obj [];
  defaultTextStyle := Undefined
|}.


Example nested_slide_depth : depth (slideContent nested_slide) = 11%nat.
Proof. reflexivity. Qed.

(** ** The relationships of a slide *)

(** A relationship of a [.rels] part: its [Id], [Type] and [Target]. *)
Record relationship : Type := {
  rel_id : string;
  rel_type : string;
  rel_target : string
}.

(** The element [item] is the relationship [r]. *)
Definition describes (r : relationship) (item : value) : Prop :=
  exists attrs,
    get item "attrs" = Ok attrs /\
    get attrs "Id" = Ok (Str (rel_id r)) /\
    get attrs "Type" = Ok (Str (rel_type r)) /\
    get attrs "Target" = Ok (Str (rel_target r)).

Definition to_ppt (target : string) : string := replace_first "../" "ppt/" target.

Definition resource_of (r : relationship) : value :=
  Obj [ ("type", Str (replace_first relationships_uri "" (rel_type r)));
        ("target", Str (to_ppt (rel_target r))) ].

Definition is_layout (r : relationship) : bool :=
  String.eqb (rel_type r) slideLayout_uri.

Definition is_diagram (r : relationship) : bool :=
  String.eqb (rel_type r) diagramDrawing_uri.

Definition after_relationship (t : slide_rels) (r : relationship) : slide_rels :=
  if is_layout r then
    {| layoutFilename := to_ppt (rel_target r); diagramFilename := diagramFilename t;
       resObj := resObj t |}
  else
    {| layoutFilename := layoutFilename t;
       diagramFilename := if is_diagram r then to_ppt (rel_target r)
                          else diagramFilename t;
       resObj := set_field (resObj t) (rel_id r) (resource_of r) |}.

Lemma starts_with_app (p s : string) : starts_with p (p ++ s) = true.
Proof.
  induction p as [|c p IH]; [reflexivity |].
  cbn. now rewrite Ascii.eqb_refl, IH.
Qed.

Lemma replace_first_prefix (p r s : string) : replace_first p r (p ++ s) = r ++ s.
Proof.
  destruct (p ++ s) as [|c x] eqn:E.
  - destruct p; [| discriminate E]. cbn in E. subst s.
    cbn. symmetry. apply Base64Facts.sapp_nil_r.
  - cbn [replace_first]. rewrite <- E, starts_with_app, drop_app. reflexivity.
Qed.

Lemma target_path_run (attrs : value) (target : string) :
  get attrs "Target" = Ok (Str target) -> target_path attrs = Ok (to_ppt target).
Proof. intros Ht. unfold target_path. now rewrite Ht. Qed.

Lemma resource_run (attrs : value) (r : relationship) :
  get attrs "Type" = Ok (Str (rel_type r)) ->
  get attrs "Target" = Ok (Str (rel_target r)) ->
  resource attrs = Ok (resource_of r).
Proof.
  intros Hty Ht. unfold resource.
  rewrite Hty. cbn [bind as_string]. now rewrite (target_path_run _ _ Ht).
Qed.

Lemma slide_relationship_run (t : slide_rels) (r : relationship) (item : value) :
  describes r item -> slide_relationship t item = Ok (after_relationship t r).
Proof.
  intros (attrs & Ha & Hid & Hty & Ht).
  unfold slide_relationship, after_relationship, is_layout, is_diagram.
  rewrite Ha. cbn [bind]. rewrite Hty. cbn [bind is_str].
  rewrite (target_path_run _ _ Ht), Hid, (resource_run _ _ Hty Ht).
  cbn [bind to_string].
  destruct (String.eqb (rel_type r) slideLayout_uri); [reflexivity |].
  destruct (String.eqb (rel_type r) diagramDrawing_uri); reflexivity.
Qed.

Lemma slide_relationships_fold (rs : list relationship) (items : list value) :
  Forall2 describes rs items ->
  forall t, fold_result slide_relationship t items
            = Ok (fold_left after_relationship rs t).
Proof.
  induction 1 as [|r item rs items Hr _ IH]; intros t; [reflexivity |].
  cbn [fold_result fold_left]. rewrite (slide_relationship_run t r item Hr).
  cbn [bind]. apply IH.
Qed.

Lemma layoutFilename_kept (rs : list relationship) :
  (forall r, In r rs -> rel_type r <> slideLayout_uri) ->
  forall t, layoutFilename (fold_left after_relationship rs t) = layoutFilename t.
Proof.
  induction rs as [|r rs IH]; intros Hrs t; [reflexivity |].
  cbn [fold_left]. rewrite IH by (intros r' Hin; apply Hrs; now right).
  unfold after_relationship, is_layout.
  destruct (String.eqb (rel_type r) slideLayout_uri) eqn:E; [| reflexivity].
  apply String.eqb_eq in E. now contradiction (Hrs r (or_introl eq_refl)).
Qed.

Lemma diagramFilename_kept (rs : list relationship) :
  (forall r, In r rs -> rel_type r <> diagramDrawing_uri) ->
  forall t, diagramFilename (fold_left after_relationship rs t) = diagramFilename t.
Proof.
  induction rs as [|r rs IH]; intros Hrs t; [reflexivity |].
  cbn [fold_left]. rewrite IH by (intros r' Hin; apply Hrs; now right).
  unfold after_relationship, is_diagram.
  destruct (is_layout r); [reflexivity |]. cbn [diagramFilename].
  destruct (String.eqb (rel_type r) diagramDrawing_uri) eqn:E; [| reflexivity].
  apply String.eqb_eq in E. now contradiction (Hrs r (or_introl eq_refl)).
Qed.

Lemma resObj_kept (rs : list relationship) (id : string) :
  (forall r, In r rs -> rel_id r = id -> rel_type r = slideLayout_uri) ->
  forall t, lookup (resObj (fold_left after_relationship rs t)) id
            = lookup (resObj t) id.
Proof.
  induction rs as [|r rs IH]; intros Hrs t; [reflexivity |].
  cbn [fold_left]. rewrite IH by (intros r' Hin; apply Hrs; now right).
  unfold after_relationship, is_layout.
  destruct (String.eqb (rel_type r) slideLayout_uri) eqn:E; [reflexivity |].
  cbn [resObj]. rewrite lookup_set_field.
  destruct (String.eqb (rel_id r) id) eqn:Eid; [| reflexivity].
  apply String.eqb_eq in Eid. rewrite (Hrs r (or_introl eq_refl) Eid) in E.
  now rewrite String.eqb_refl in E.
Qed.

(** X20.  The first loop of [processSingleSlide], for a relationships part
    whose elements carry [Id], [Type] and [Target].  With several
    relationships: a relationship that is not the slide layout is found in
    [slideResObj] under its [Id], as its [Type] without the first occurrence
    of the relationships address and its [Target] with the first [../]
    replaced by [ppt/], unless a later one that is not the slide layout has
    the same [Id]; the layout file is the rewritten target of the last
    slide-layout relationship, and the empty string when there is none; the
    diagram file is that of the last diagram-drawing relationship.  With a
    single relationship, its target is taken for the layout file whatever its
    type, and [slideResObj] stays empty.  A type that starts with the
    relationships address is reduced to what follows it, and a target that
    starts with [../] to [ppt/] and what follows. *)
Theorem slide_relationships_table (resContent rels : value) :
  get resContent "Relationships" = Ok rels ->
  (forall items rs,
     get rels "Relationship" = Ok (Arr items) ->
     Forall2 describes rs items ->
     exists t,
       slide_relationships resContent = Ok t /\
       (forall before r after,
          rs = (before ++ r :: after)%list ->
          rel_type r <> slideLayout_uri ->
          (forall r', In r' after -> rel_id r' = rel_id r ->
                      rel_type r' = slideLayout_uri) ->
          lookup (resObj t) (rel_id r) = resource_of r) /\
       (forall before r after,
          rs = (before ++ r :: after)%list ->
          rel_type r = slideLayout_uri ->
          (forall r', In r' after -> rel_type r' <> slideLayout_uri) ->
          layoutFilename t = to_ppt (rel_target r)) /\
       ((forall r, In r rs -> rel_type r <> slideLayout_uri) ->
        layoutFilename t = "") /\
       (forall before r after,
          rs = (before ++ r :: after)%list ->
          rel_type r = diagramDrawing_uri ->
          (forall r', In r' after -> rel_type r' <> diagramDrawing_uri) ->
          diagramFilename t = to_ppt (rel_target r))) /\
  (forall fields r,
     get rels "Relationship" = Ok (Obj fields) ->
     describes r (Obj fields) ->
     slide_relationships resContent
     = Ok {| layoutFilename := to_ppt (rel_target r); diagramFilename := "";
             resObj := [] |}) /\
  (forall kind, replace_first relationships_uri "" (relationships_uri ++ kind) = kind) /\
  (forall path, to_ppt ("../" ++ path) = "ppt/" ++ path).
Proof.
  intros Hrels.
  split; [| split; [| split]].
  - intros items rs Harr Hrs.
    eexists. split.
    { unfold slide_relationships. rewrite Hrels. cbn [bind]. rewrite Harr.
      cbn [bind constructor_is_Array]. apply (slide_relationships_fold rs items Hrs). }
    split; [| split; [| split]].
    + intros before r after -> Hty Hafter.
      rewrite fold_left_app. cbn [fold_left].
      rewrite resObj_kept by exact Hafter.
      unfold after_relationship, is_layout.
      destruct (String.eqb (rel_type r) slideLayout_uri) eqn:E;
        [apply String.eqb_eq in E; congruence |].
      cbn [resObj]. apply Facts.lookup_set_field_same.
    + intros before r after -> Hty Hafter.
      rewrite fold_left_app. cbn [fold_left].
      rewrite layoutFilename_kept by exact Hafter.
      unfold after_relationship, is_layout.
      rewrite Hty, String.eqb_refl. reflexivity.
    + intros Hnone. now rewrite layoutFilename_kept.
    + intros before r after -> Hty Hafter.
      rewrite fold_left_app. cbn [fold_left].
      rewrite diagramFilename_kept by exact Hafter.
      unfold after_relationship, is_layout, is_diagram.
      rewrite Hty. reflexivity.
  - intros fields r Hobj (attrs & Ha & _ & _ & Ht).
    unfold slide_relationships. rewrite Hrels. cbn [bind]. rewrite Hobj.
    cbn [bind constructor_is_Array]. rewrite Ha. cbn [bind].
    now rewrite (target_path_run _ _ Ht).
  - intros kind. apply replace_first_prefix.
  - intros path. apply replace_first_prefix.
Qed.

(** A relationships part with the layout, an image and a diagram drawing. *)
Definition relationship_element (r : relationship) : value :=
  Obj [("attrs", Obj [("Id", Str (rel_id r)); ("Type", Str (rel_type r));
                      ("Target", Str (rel_target r))])].

Definition sample_relationships : list relationship :=
  [ {| rel_id := "rId1"; rel_type := slideLayout_uri;
       rel_target := "../slideLayouts/slideLayout2.xml" |};
    {| rel_id := "rId2"; rel_type := relationships_uri ++ "image";
       rel_target := "../media/image1.png" |};
    {| rel_id := "rId3"; rel_type := diagramDrawing_uri;
       rel_target := "../diagrams/drawing1.xml" |} ].

Definition sample_rels_part : value :=
  Obj [("Relationships",
        Obj [("Relationship", Arr (map relationship_element sample_relationships))])].

Lemma describes_element (r : relationship) : describes r (relationship_element r).
Proof. eexists. repeat split. Qed.

Lemma slide_relationships_table_witness :
  exists t,
    slide_relationships sample_rels_part = Ok t /\
    lookup (resObj t) "rId2"
    = Obj [("type", Str "image"); ("target", Str "ppt/media/image1.png")] /\
    layoutFilename t = "ppt/slideLayouts/slideLayout2.xml".
Proof.
  destruct (slide_relationships_table sample_rels_part
              (prop sample_rels_part "Relationships") eq_refl)
    as (Harray & _ & _ & _).
  destruct (Harray (map relationship_element sample_relationships)
                   sample_relationships eq_refl)
    as (t & Hrun & Hres & Hlayout & _).
  { repeat constructor; apply describes_element. }
  exists t. split; [exact Hrun |]. split.
  - apply (Hres [ {| rel_id := "rId1"; rel_type := slideLayout_uri;
                     rel_target := "../slideLayouts/slideLayout2.xml" |} ]
                {| rel_id := "rId2"; rel_type := relationships_uri ++ "image";
                   rel_target := "../media/image1.png" |}
                [ {| rel_id := "rId3"; rel_type := diagramDrawing_uri;
                     rel_target := "../diagrams/drawing1.xml" |} ]).
    + reflexivity.
    + discriminate.
    + intros r' [<- | []]. discriminate.
  - apply (Hlayout []
                {| rel_id := "rId1"; rel_type := slideLayout_uri;
                   rel_target := "../slideLayouts/slideLayout2.xml" |}
                [ {| rel_id := "rId2"; rel_type := relationships_uri ++ "image";
                     rel_target := "../media/image1.png" |};
                  {| rel_id := "rId3"; rel_type := diagramDrawing_uri;
                     rel_target := "../diagrams/drawing1.xml" |} ]).
    + reflexivity.
    + reflexivity.
    + intros r' [<- | [<- | []]]; discriminate.
Defined.

(** The diagram drawing keeps its whole type: its address is not the one
    that is removed. *)
Example sample_relationships_run :
  slide_relationships sample_rels_part
  = Ok {| layoutFilename := "ppt/slideLayouts/slideLayout2.xml";
          diagramFilename := "ppt/diagrams/drawing1.xml";
          resObj := [ ("rId2", Obj [("type", Str "image");
                                    ("target", Str "ppt/media/image1.png")]);
                      ("rId3", Obj [("type", Str diagramDrawing_uri);
                                    ("target", Str "ppt/diagrams/drawing1.xml")]) ] |}.
Proof. vm_compute. reflexivity. Qed.

(** ** Nodes that leave no element *)





Section Dropped.

Context {H : Helpers}.








End Dropped.

(** A tree with an OLE object, a group without transform, and an
    alternate content without fallback. *)
Definition ole_frame : value :=
  Obj [("a:graphic",
        Obj [("a:graphicData",
              Obj [("attrs",
                    Obj [("uri",
                          Str "http://schemas.openxmlformats.org/presentationml/2006/ole")])])])].

Example tree_without_elements :
  slide_elements (H := Facts.sample_helpers) 1
    (Obj [ ("p:graphicFrame", ole_frame);
           ("p:grpSp", Arr [Obj [("p:grpSpPr", Obj [])]; Obj []]);
           ("mc:AlternateContent", Obj [("mc:Choice", Obj [])]) ])
    empty_context
  = Ok [].
Proof. vm_compute. reflexivity. Qed.

(** ** Pictures that carry a video *)

(** The extensions of the videos that are read from the archive. *)
Definition playable (ext : string) : bool :=
  String.eqb ext "mp4" || String.eqb ext "webm" || String.eqb ext "ogg".

Section Video.

Context {H : Helpers}.

(** X22.  A picture with [a:videoFile] and without [a:audioFile], whose image
    and video relationships resolve, is emitted as an element of type
    [video].  When the target of the video is a link, the element has the
    escaped link as [src] and no [blob].  Otherwise the lower-cased extension
    of the target decides: for [mp4], [webm] and [ogg] the file is read from
    the archive and [blob] is the object URL made of its bytes with the MIME
    type of the extension, a file missing from the archive making the call
    throw; for any other extension nothing is read and the element is still
    emitted, with [blob] undefined and no [src]. *)
Theorem processPicNode_video (node xfrmNode : value) (rid path vrid vfile : string)
        (bytes : list Byte.byte) (w : warpObj) :
  let videoNode := getTextByPathList node ["p:nvPicPr"; "p:nvPr"; "a:videoFile"] in
  member_chain node ["p:blipFill"; "a:blip"; "attrs"; "r:embed"] = Ok (Str rid) ->
  member_chain (slideResObj w) [rid; "target"] = Ok (Str path) ->
  zip w path = Some bytes ->
  member_chain node ["p:spPr"; "a:xfrm"] = Ok xfrmNode ->
  truthy videoNode = true ->
  member_chain videoNode ["attrs"; "r:link"] = Ok (Str vrid) ->
  member_chain (slideResObj w) [vrid; "target"] = Ok (Str vfile) ->
  truthy (getTextByPathList node ["p:nvPicPr"; "p:nvPr"; "a:audioFile"]) = false ->
  exists vext,
    extractFileExtension (Str vfile) = Ok vext /\
    (isVideoLink (Str vfile) = true ->
     exists element,
       processPicNode node w (Str "slide") = Ok element /\
       prop element "type" = Str "video" /\
       prop element "src" = Str (escapeHtml_string vfile) /\
       prop element "blob" = Undefined) /\
    (isVideoLink (Str vfile) = false -> playable (toLowerCase vext) = false ->
     exists element,
       processPicNode node w (Str "slide") = Ok element /\
       prop element "type" = Str "video" /\
       prop element "blob" = Undefined /\
       prop element "src" = Undefined) /\
    (isVideoLink (Str vfile) = false -> playable (toLowerCase vext) = true ->
     forall vbytes,
       zip w vfile = Some vbytes ->
       exists element,
         processPicNode node w (Str "slide") = Ok element /\
         prop element "type" = Str "video" /\
         prop element "blob"
         = Str (createObjectURL vbytes (Str (getMimeType (toLowerCase vext))))) /\
    (isVideoLink (Str vfile) = false -> playable (toLowerCase vext) = true ->
     zip w vfile = None ->
     exists e, processPicNode node w (Str "slide") = Throw e).
Proof.
  intros videoNode Hrid Hres Hzip Hxfrm Hvideo Hlink Hvres Haudio.
  apply member_chain_cons in Hrid as (blipFill & HblipFill & Hrid).
  apply member_chain_cons in Hrid as (blip & Hblip & Hrid).
  apply member_chain_cons in Hrid as (attrs & Hattrs & Hrid).
  apply member_chain_cons in Hrid as (rid' & Hrid' & Hrid).
  apply member_chain_nil in Hrid. subst rid'.
  apply member_chain_cons in Hres as (res & Hres' & Hres).
  apply member_chain_cons in Hres as (target & Htarget & Hres).
  apply member_chain_nil in Hres. subst target.
  apply member_chain_cons in Hxfrm as (spPr & HspPr & Hxfrm).
  apply member_chain_cons in Hxfrm as (xfrm' & Hxfrm' & Hxfrm).
  apply member_chain_nil in Hxfrm. subst xfrm'.
  apply member_chain_cons in Hlink as (vattrs & Hvattrs & Hlink).
  apply member_chain_cons in Hlink as (link & Hlink' & Hlink).
  apply member_chain_nil in Hlink. subst link.
  rewrite (get_of_truthy videoNode "attrs" Hvideo) in Hvattrs.
  injection Hvattrs as <-.
  apply member_chain_cons in Hvres as (vres & Hvres' & Hvres).
  apply member_chain_cons in Hvres as (vtarget & Hvtarget & Hvres).
  apply member_chain_nil in Hvres. subst vtarget.
  destruct (extractFileExtension (Str path)) as [ext|e] eqn:Hext;
    [| discriminate Hext].
  destruct (extractFileExtension (Str vfile)) as [vext|e] eqn:Hvext;
    [| discriminate Hvext].
  exists vext. split; [reflexivity |].
  assert (Hrun : forall video,
             (videoRid <- get (prop videoNode "attrs") "r:link" ;;
              vres <- get (slideResObj w) (to_string videoRid) ;;
              videoFile <- get vres "target" ;;
              if isVideoLink videoFile then
                escaped <- escapeHtml videoFile ;;
                Ok (Str escaped, true, Undefined)
              else
                vext <- extractFileExtension videoFile ;;
                let videoFileExt := toLowerCase vext in
                if String.eqb videoFileExt "mp4" || String.eqb videoFileExt "webm"
                   || String.eqb videoFileExt "ogg" then
                  uInt8ArrayVideo <- zip_read w videoFile ;;
                  let videoMimeType := getMimeType videoFileExt in
                  Ok (videoFile, false,
                      Str (createObjectURL uInt8ArrayVideo (Str videoMimeType)))
                else Ok (videoFile, false, Undefined)) = video ->
             processPicNode node w (Str "slide")
             = (v <- video ;;
                let '(videoFile, isVdeoLink, videoBlob) := v in
                let box := [ ("top", prop (getPosition xfrmNode Undefined Undefined) "top");
                             ("left", prop (getPosition xfrmNode Undefined Undefined) "left");
                             ("width", prop (getSize xfrmNode Undefined Undefined) "width");
                             ("height", prop (getSize xfrmNode Undefined Undefined) "height");
                             ("rotate",
                              Num (if truthy (getTextByPathList node
                                                ["p:spPr"; "a:xfrm"; "attrs"; "rot"])
                                   then angleToDegrees
                                          (getTextByPathList node
                                             ["p:spPr"; "a:xfrm"; "attrs"; "rot"])
                                   else zero)) ] in
                if negb isVdeoLink
                then Ok (Obj (("type", Str "video") :: box ++ [("blob", videoBlob)]))
                else Ok (Obj (("type", Str "video") :: box ++ [("src", videoFile)])))).
  { intros video Hv. unfold processPicNode.
    change (is_str (Str "slide") "slideMasterBg") with false.
    change (is_str (Str "slide") "slideLayoutBg") with false. cbv iota.
    rewrite HblipFill. cbn [bind]. rewrite Hblip. cbn [bind]. rewrite Hattrs.
    cbn [bind]. rewrite Hrid'. cbn [bind to_string]. rewrite Hres'. cbn [bind].
    rewrite Htarget. cbn [bind]. rewrite Hext. cbn [bind].
    unfold zip_read at 1. cbn [to_string]. rewrite Hzip. cbn [bind].
    rewrite HspPr. cbn [bind]. rewrite Hxfrm'. cbn [bind].
    fold videoNode. rewrite Hvideo, Haudio. cbv zeta in Hv. rewrite Hv.
    destruct video as [[[videoFile isVdeoLink] videoBlob]|e]; cbn [bind andb];
      [| reflexivity].
    destruct isVdeoLink; reflexivity. }
  split; [| split; [| split]].
  - intros Hl. eexists. split.
    + rewrite (Hrun _ eq_refl).
      rewrite Hlink'. cbn [bind to_string]. rewrite Hvres'. cbn [bind].
      rewrite Hvtarget. cbn [bind]. rewrite Hl.
      cbn [escapeHtml as_string bind negb]. reflexivity.
    + repeat split; reflexivity.
  - intros Hl Hp. eexists. split.
    + rewrite (Hrun _ eq_refl).
      rewrite Hlink'. cbn [bind to_string]. rewrite Hvres'. cbn [bind].
      rewrite Hvtarget. cbn [bind]. rewrite Hl, Hvext. cbn [bind]. cbv zeta.
      unfold playable in Hp. rewrite Hp. cbn [bind negb]. reflexivity.
    + repeat split; reflexivity.
  - intros Hl Hp vbytes Hvzip. eexists. split.
    + rewrite (Hrun _ eq_refl).
      rewrite Hlink'. cbn [bind to_string]. rewrite Hvres'. cbn [bind].
      rewrite Hvtarget. cbn [bind]. rewrite Hl, Hvext. cbn [bind]. cbv zeta.
      unfold playable in Hp. rewrite Hp.
      unfold zip_read. cbn [to_string]. rewrite Hvzip. cbn [bind negb]. reflexivity.
    + repeat split; reflexivity.
  - intros Hl Hp Hvzip.
    rewrite (Hrun _ eq_refl).
    rewrite Hlink'. cbn [bind to_string]. rewrite Hvres'. cbn [bind].
    rewrite Hvtarget. cbn [bind]. rewrite Hl, Hvext. cbn [bind]. cbv zeta.
    unfold playable in Hp. rewrite Hp.
    unfold zip_read. cbn [to_string]. rewrite Hvzip. cbn [bind]. eauto.
Qed.

End Video.

(** A picture that plays a video of a kind that is not read. *)
Definition video_node : value :=
  Obj [ ("p:nvPicPr",
         Obj [("p:cNvPr", Obj [("attrs", Obj [("id", Str "6")])]);
              ("p:nvPr", Obj [("a:videoFile",
                               Obj [("attrs", Obj [("r:link", Str "rId3")])])])]);
        ("p:blipFill", Obj [("a:blip", Obj [("attrs", Obj [("r:embed", Str "rId2")])])]);
        ("p:spPr", Obj [("a:xfrm", picture_frame)]) ].

Definition video_context : warpObj :=
  slide_context
    (archive_with "ppt/media/image1.png" [Byte.x4d; Byte.x61; Byte.x6e])
    (Obj [ ("rId2", Obj [("type", Str "image");
                         ("target", Str "ppt/media/image1.png")]);
           ("rId3", Obj [("type", Str "video");
                         ("target", Str "ppt/media/media1.AVI")]) ]).

Lemma processPicNode_video_witness :
  exists element,
    processPicNode (H := Facts.sample_helpers) video_node video_context (Str "slide")
    = Ok element /\
    prop element "type" = Str "video" /\
    prop element "blob" = Undefined /\
    prop element "src" = Undefined.
Proof.
  destruct (processPicNode_video (H := Facts.sample_helpers) video_node picture_frame
              "rId2" "ppt/media/image1.png" "rId3" "ppt/media/media1.AVI"
              [Byte.x4d; Byte.x61; Byte.x6e] video_context)
    as (vext & Hvext & _ & Hother & _); try reflexivity.
  injection Hvext as <-.
  apply Hother; reflexivity.
Defined.

(** ** The picture of a slide background *)

Definition opacity_ok (k : Z) : bool :=
  PrimFloat.Leibniz.eqb (parseInt (Str (decimal (1000 * k))) / 100000)%float
                        (Z2float k / 100)%float
  && truthy (Str (decimal (1000 * k))).

Lemma opacity_checked : forallb opacity_ok (interval 0 101) = true.
Proof. vm_compute. reflexivity. Qed.

Lemma opacity_percent (k : Z) :
  (0 <= k <= 100)%Z ->
  truthy (Str (decimal (1000 * k))) = true /\
  (parseInt (Str (decimal (1000 * k))) / 100000)%float = (Z2float k / 100)%float.
Proof.
  intros Hk.
  assert (Hok : opacity_ok k = true)
    by (apply (checked_on_interval opacity_ok 0 101 opacity_checked); lia).
  apply andb_true_iff in Hok as [Heq Ht]. split; [exact Ht |].
  now apply FloatAxioms.Leibniz.eqb_spec.
Qed.

Lemma member_chain_of_truthy (node v : value) (k1 k2 : string) (path : list string) :
  member_chain node (k1 :: k2 :: path) = Ok v -> truthy node = true.
Proof.
  intros Hc. apply member_chain_cons in Hc as (a & Ha & Hc).
  apply member_chain_cons in Hc as (b & Hb & _).
  destruct node; try reflexivity; try discriminate Ha;
    cbn [get prop] in Ha; injection Ha as <-; discriminate Hb.
Qed.

Section PictureBackground.

Context {H : Helpers}.

Lemma getFillType_picture (bgPr : value) :
  truthy bgPr = true ->
  truthy (prop bgPr "a:blipFill") = true ->
  truthy (prop bgPr "a:grpFill") = false ->
  getFillType bgPr = Ok "PIC_FILL".
Proof.
  intros Hb Hp Hg. unfold getFillType.
  rewrite !(get_of_truthy bgPr _ Hb). cbn [bind]. now rewrite Hp, Hg.
Qed.

(** X23.  A slide whose own [p:bgPr] has an [a:blipFill] (and no
    [a:grpFill]) whose relationship resolves to a file of the archive gets a
    background of type [image]: its [picBase64] is a data URL with the MIME
    type of the extension of the escaped target and the base64 encoding of
    the file, and its [opacity] is 1 when the blip has no [a:alphaModFix]
    amount, and [k / 100] for an amount of [1000 * k], [k] from 0 to 100. *)
Theorem slide_picture_background (w : warpObj) (blip : value) (rid path : string)
        (bytes : list Byte.byte) :
  let bgPr := getTextByPathList (slideContent w) ["p:sld"; "p:cSld"; "p:bg"; "p:bgPr"] in
  let amt := getTextByPathList blip ["a:alphaModFix"; "attrs"; "amt"] in
  let file := escapeHtml_string path in
  let ext := after_last "." file in
  member_chain bgPr ["a:blipFill"; "a:blip"] = Ok blip ->
  member_chain blip ["attrs"; "r:embed"] = Ok (Str rid) ->
  truthy (prop bgPr "a:grpFill") = false ->
  getTextByPathList (slideResObj w) [rid; "target"] = Str path ->
  path <> "" -> ext <> "xml" -> zip w file = Some bytes ->
  exists opacity,
    getSlideBackgroundFill w
    = Ok (Obj [ ("type", Str "image");
                ("value",
                 Obj [ ("picBase64",
                        Str ("data:" ++ getMimeType ext ++ ";base64,"
                               ++ Base64.rfc4648_encode bytes));
                       ("opacity", Num opacity) ]) ]) /\
    (truthy amt = false -> opacity = one) /\
    (forall k, (0 <= k <= 100)%Z -> amt = Str (decimal (1000 * k)) ->
               opacity = (Z2float k / 100)%float).
Proof.
  intros bgPr amt file ext Hblip Hrid Hgrp Htarget Hpath Hext Hzip.
  assert (HbgPr : truthy bgPr = true)
    by (apply member_chain_of_truthy in Hblip; exact Hblip).
  assert (Htblip : truthy blip = true)
    by (apply member_chain_of_truthy in Hrid; exact Hrid).
  apply member_chain_cons in Hblip as (blipFill & HblipFill & Hblip).
  apply member_chain_cons in Hblip as (blip' & Hblip' & Hblip).
  apply member_chain_nil in Hblip. subst blip'.
  apply member_chain_cons in Hrid as (attrs & Hattrs & Hrid).
  apply member_chain_cons in Hrid as (rid' & Hrid' & Hrid).
  apply member_chain_nil in Hrid. subst rid'.
  assert (HtblipFill : truthy blipFill = true).
  { destruct blipFill; try reflexivity; try discriminate Hblip';
      cbn [get prop] in Hblip'; injection Hblip' as <-; discriminate Htblip. }
  assert (HblipFill' : prop bgPr "a:blipFill" = blipFill).
  { rewrite (get_of_truthy bgPr _ HbgPr) in HblipFill. now injection HblipFill. }
  set (node := getTextByPathList blip ["a:alphaModFix"; "attrs"]).
  assert (Hamt : amt = if truthy node then prop node "amt" else node).
  { unfold amt, node, getTextByPathList at 1. rewrite Htblip.
    change ["a:alphaModFix"; "attrs"; "amt"]
      with (["a:alphaModFix"; "attrs"] ++ ["amt"])%list.
    rewrite (path_loop_app blip _ _ Htblip).
    unfold getTextByPathList at 1.
    replace (path_loop blip ["a:alphaModFix"; "attrs"])
      with (getTextByPathList blip ["a:alphaModFix"; "attrs"])
      by (unfold getTextByPathList; now rewrite Htblip).
    fold node. destruct (truthy node); [| reflexivity].
    cbn [path_loop]. now destruct (truthy (prop node "amt")). }
  exists (if truthy node && truthy (prop node "amt")
          then (parseInt (prop node "amt") / 100000)%float else one).
  split; [| split].
  - unfold getSlideBackgroundFill. cbv zeta. fold bgPr. rewrite HbgPr.
    rewrite (getFillType_picture bgPr HbgPr); [| now rewrite HblipFill' | exact Hgrp].
    cbn [bind String.eqb Ascii.eqb Bool.eqb].
    unfold getBgPicFill. rewrite HblipFill. cbn [bind].
    unfold getPicFill. rewrite Hblip'. cbn [bind]. rewrite Hattrs. cbn [bind].
    rewrite Hrid'. cbn [bind to_string is_str String.eqb Ascii.eqb Bool.eqb orb].
    rewrite slideResObj_read, Htarget. cbn [truthy].
    destruct (String.eqb path "") eqn:E; [apply String.eqb_eq in E; congruence |].
    cbn [negb to_string]. rewrite loaded_images_read.
    cbn [truthy negb escapeHtml as_string bind]. fold file. fold ext.
    destruct (String.eqb ext "xml") eqn:Ex; [apply String.eqb_eq in Ex; congruence |].
    unfold zip_read. cbn [to_string]. rewrite Hzip. cbn [bind].
    rewrite Base64Facts.base64ArrayBuffer_encode. fold node. reflexivity.
  - intros Hfalsy. rewrite Hamt in Hfalsy.
    destruct (truthy node); [| reflexivity]. now rewrite Hfalsy.
  - intros k Hk Hstr.
    destruct (opacity_percent k Hk) as [Htruthy Hvalue].
    rewrite Hamt in Hstr.
    destruct (truthy node) eqn:En.
    + rewrite Hstr, Htruthy. exact Hvalue.
    + rewrite Hstr in En. congruence.
Qed.

End PictureBackground.

(** A slide with a half-transparent picture as background. *)
Definition picture_background_blip : value :=
  Obj [ ("attrs", Obj [("r:embed", Str "rId2")]);
        ("a:alphaModFix", Obj [("attrs", Obj [("amt", Str "50000")])]) ].

Definition picture_background_slide : warpObj :=
  {| zip := archive_with "ppt/media/image1.png" [Byte.x4d; Byte.x61; Byte.x6e];
     slideLayoutContent := Obj [];
     slideLayoutTables := Obj [];
     slideMasterContent := Obj [];
     slideMasterTables := Obj [];
     slideContent :=
       Obj [("p:sld",
             Obj [("p:cSld",
                   Obj [("p:bg",
                         Obj [("p:bgPr",
                               Obj [("a:blipFill",
                                     Obj [("a:blip", picture_background_blip)])])])])])];
     tableStyles := Obj [];
     slideResObj := Obj [("rId2", Obj [("type", Str "image");
                                       ("target", Str "ppt/media/image1.png")])];
     slideMasterTextStyles := Undefined;
     layoutResObj := Obj [];
     masterResObj := Obj [];
     themeContent := Obj [];
     themeResObj := Obj [];
     digramFileContent := Obj [];
     diagramResObj := Obj [];
     defaultTextStyle := Undefined |}.

Lemma slide_picture_background_witness :
  getSlideBackgroundFill (H := Facts.sample_helpers) picture_background_slide
  = Ok (Obj [ ("type", Str "image");
              ("value", Obj [ ("picBase64", Str "data:image/png;base64,TWFu");
                              ("opacity", Num (Z2float 50 / 100)%float) ]) ]).
Proof.
  destruct (slide_picture_background (H := Facts.sample_helpers)
              picture_background_slide picture_background_blip
              "rId2" "ppt/media/image1.png" [Byte.x4d; Byte.x61; Byte.x6e])
    as (opacity & Hrun & _ & Hopacity);
    [reflexivity | reflexivity | reflexivity | reflexivity
     | discriminate | discriminate | reflexivity |].
  rewrite (Hopacity 50%Z) in Hrun; [exact Hrun | lia | reflexivity].
Defined.

End Further.
